(** * Remootio API client: frame cryptography and session state machine

    A shallow embedding of [apicrypto.js] (the ENCRYPTED-frame codec built on
    crypto-js) and of the [RemootioDevice] class of [src/index.ts], followed by
    the properties of the two that the specification states.

    Layout: JavaScript values and the operators the code applies to them;
    the platform the code runs on (JSON, crypto-js) as an interface;
    [apicrypto.js]; [index.ts]; theorems; an executable reference platform
    (AES-256-CBC, HMAC-SHA256, Base64, JSON) used to run the code on concrete
    frames. *)

From Stdlib Require Import ZArith List String Ascii Bool Lia DecimalString QArith_base.
Import ListNotations.

Local Open Scope Z_scope.
Set Warnings "-register-all".

(* ------------------------------------------------------------------ *)
(** ** JavaScript strings and values *)

(** A JavaScript string is a sequence of UTF-16 code units. *)
Definition jsstring := list Z.

(** A byte sequence (a crypto-js [WordArray] read up to [sigBytes]). *)
Definition bytes := list Z.

Definition lit (s : string) : jsstring :=
  map (fun a => Z.of_N (N_of_ascii a)) (list_ascii_of_string s).
Arguments lit s%_string.

Fixpoint str_eqb (a b : jsstring) : bool :=
  match a, b with
  | [], [] => true
  | x :: a', y :: b' => (x =? y) && str_eqb a' b'
  | _, _ => false
  end.

(** The values [JSON.parse] can produce, and [undefined].  Numbers are the
    integers among the doubles. *)
Inductive value : Type :=
| VUndefined
| VNull
| VBool (b : bool)
| VNum (n : Z)
| VStr (s : jsstring)
| VArr (elems : list value)
| VObj (props : list (jsstring * value)).

Inductive exn : Type := TypeError | SyntaxError.

Inductive outcome (A : Type) : Type :=
| Return (a : A)
| Throw (e : exn).
Arguments Return {A} a.
Arguments Throw {A} e.

(** [!v] is [negb (truthy v)]. *)
Definition truthy (v : value) : bool :=
  match v with
  | VUndefined | VNull => false
  | VBool b => b
  | VNum n => negb (n =? 0)
  | VStr s => match s with [] => false | _ :: _ => true end
  | VArr _ | VObj _ => true
  end.

(** [v == undefined] *)
Definition is_undefined (v : value) : bool :=
  match v with
  | VUndefined | VNull => true
  | _ => false
  end.

Fixpoint lookup (k : jsstring) (props : list (jsstring * value)) : option value :=
  match props with
  | [] => None
  | (k', v) :: rest => if str_eqb k k' then Some v else lookup k rest
  end.

(** [v.k] for a property name [k] that no built-in prototype defines
    (every name the program reads is of that kind). *)
Definition get (v : value) (k : jsstring) : outcome value :=
  match v with
  | VUndefined | VNull => Throw TypeError
  | VObj props =>
      Return (match lookup k props with Some x => x | None => VUndefined end)
  | _ => Return VUndefined
  end.

(** [k in v], same proviso on [k]. *)
Definition has (k : jsstring) (v : value) : outcome bool :=
  match v with
  | VObj props =>
      Return (match lookup k props with Some _ => true | None => false end)
  | VArr _ => Return false
  | _ => Throw TypeError
  end.

(** [Number.prototype.toString] on an integer below 10^21 in size. *)
Definition NumberToString (n : Z) : jsstring :=
  lit (NilZero.string_of_int (Z.to_int n)).

(** [a + b] on numbers is the double nearest to the sum, ties to the even
    significand.  [to_double n] is that double for an integer [n]: [n]
    itself up to 2^53 in size, and beyond that [n] rounded to 53
    significant bits.  (No sum of a double and 1 reaches the overflow
    threshold.) *)
Definition to_double (n : Z) : Z :=
  let a := Z.abs n in
  if a <? 2 ^ 53 then n
  else
    let e := Z.log2 a - 52 in
    let q := Z.shiftr a e in
    let r := a - Z.shiftl q e in
    let half := 2 ^ (e - 1) in
    let q' := if r <? half then q
              else if half <? r then q + 1
              else if Z.even q then q else q + 1 in
    Z.sgn n * Z.shiftl q' e.

Fixpoint join_with (sep : jsstring) (parts : list jsstring) : jsstring :=
  match parts with
  | [] => []
  | [p] => p
  | p :: rest => p ++ sep ++ join_with sep rest
  end.

Fixpoint sequence {A} (l : list (option A)) : option (list A) :=
  match l with
  | [] => Some []
  | None :: _ => None
  | Some x :: rest =>
      match sequence rest with Some xs => Some (x :: xs) | None => None end
  end.

(** [ToString v]; [None] is the TypeError of [OrdinaryToPrimitive] on an
    object whose own [toString] property hides [Object.prototype.toString]
    (a parsed JSON object holds no callable). *)
Fixpoint ToString (v : value) : option jsstring :=
  match v with
  | VUndefined => Some (lit "undefined")
  | VNull => Some (lit "null")
  | VBool true => Some (lit "true")
  | VBool false => Some (lit "false")
  | VNum n => Some (NumberToString n)
  | VStr s => Some s
  | VArr elems =>
      match sequence (map (fun e => if is_undefined e then Some [] else ToString e)
                          elems) with
      | Some parts => Some (join_with (lit ",") parts)
      | None => None
      end
  | VObj props =>
      match lookup (lit "toString") props with
      | Some _ => None
      | None => Some (lit "[object Object]")
      end
  end.

(** [v == s] for a string [s], where [tonum] is [ToNumber s] when that is an
    integer and [None] otherwise (NaN or a fraction, which no number of
    [value] equals). *)
Definition loose_eq_with (tonum : option Z) (v : value) (s : jsstring)
  : outcome bool :=
  match v with
  | VUndefined | VNull => Return false
  | VBool b =>
      Return (match tonum with Some m => (if b then 1 else 0) =? m | None => false end)
  | VNum n =>
      Return (match tonum with Some m => n =? m | None => false end)
  | VStr t => Return (str_eqb t s)
  | VArr _ | VObj _ =>
      match ToString v with
      | Some t => Return (str_eqb t s)
      | None => Throw TypeError
      end
  end.

(** [v == 'WORD'] for a literal that is not a numeric literal. *)
Definition loose_eq_word (v : value) (s : jsstring) : outcome bool :=
  loose_eq_with None v s.

(** [s != v] as the decryption routine applies it to a computed string. *)
Definition loose_neq_with (tonum : option Z) (s : jsstring) (v : value)
  : outcome bool :=
  match loose_eq_with tonum v s with
  | Return b => Return (negb b)
  | Throw e => Throw e
  end.

(* ------------------------------------------------------------------ *)
(** ** Observable effects *)

Definition timer := nat.

Inductive cryptojs_call : Type :=
| enc_Hex_parse
| enc_Base64_parse
| enc_Base64_stringify
| enc_Latin1_parse
| enc_Latin1_stringify
| HmacSHA256_call
| AES_encrypt_call
| AES_decrypt_call
| WordArray_random.

Inductive warning : Type :=
| MacMismatch (calculated : jsstring) (declared : value)
| NotValidJSON (decrypted : jsstring)
| LastActionIdUndefined
| NotConnected
| AuthenticateFirst.

Inductive error_arg : Type :=
| AuthenticationOrEncryptionError
| NoResponseForPing (pingReplyTimeoutXMs : Q)
| Caught (e : exn).

(** The events of [RemootioDeviceEvents], by name. *)
Inductive event : Type :=
| Connecting
| Connected
| Authenticated
| Disconnect
| Error (a : error_arg)
| OutgoingMessage (frame : value) (unencryptedPayload : value)
| IncomingMessage (frame : value) (decryptedPayload : value).

(** What [apicrypto.js] does besides computing: calls into crypto-js and
    warnings on the console. *)
Inductive io : Type :=
| CryptoJS (c : cryptojs_call)
| console_warn (w : warning).

(** What the device does: the same, events for its listeners, and calls on
    the socket and the timers. *)
Inductive effect : Type :=
| IO (e : io)
| console_error (key : jsstring)
| emit (e : event)
| new_WebSocket (url : jsstring)
| ws_send (data : jsstring)
| ws_close
| ws_terminate
| setInterval (h : timer)
| clearInterval (h : timer)
| setTimeout (h : timer)
| clearTimeout (h : timer).

Definition trace := list effect.

(* ------------------------------------------------------------------ *)
(** ** Monads: effects and exceptions, with and without device state *)

Class Monad (m : Type -> Type) : Type := {
  ret : forall {A}, A -> m A;
  bind : forall {A B}, m A -> (A -> m B) -> m B
}.

Declare Scope monad_scope.
Delimit Scope monad_scope with monad.
Notation "x <- c ;; k" := (bind c (fun x => k))
  (at level 61, c at next level, right associativity) : monad_scope.
Notation "c ;; k" := (bind c (fun _ => k))
  (at level 61, right associativity) : monad_scope.
Local Open Scope monad_scope.

(** A computation of [apicrypto.js]: it logs its calls and warnings, and
    returns or throws. *)
Definition C (A : Type) : Type := (list io * outcome A)%type.

Definition C_bind {A B} (c : C A) (k : A -> C B) : C B :=
  match c with
  | (t, Return a) => let (t', r) := k a in (t ++ t', r)
  | (t, Throw e) => (t, Throw e)
  end.

#[global] Instance C_Monad : Monad C :=
  {| ret := fun A a => ([], Return a); bind := @C_bind |}.

Definition perform (e : io) : C unit := ([e], Return tt).
Definition pure {A} (o : outcome A) : C A := ([], o).

(** A crypto-js call: logged, then its result. *)
Definition call {A} (c : cryptojs_call) (result : A) : C A :=
  ([CryptoJS c], Return result).
Definition call_may_throw {A} (c : cryptojs_call) (result : outcome A) : C A :=
  ([CryptoJS c], result).

(* ------------------------------------------------------------------ *)
(** ** The platform: JSON and crypto-js

    Neither is code of the repository.  Each function the code calls is a
    field; the code is embedded over an arbitrary platform, and the
    properties of crypto-js a theorem relies on appear as its hypotheses.
    [CryptoJS.enc.Latin1] alone is written out, since the round trip
    depends on what it does to code units above 255. *)

Class Platform : Type := {
  JSON_parse : jsstring -> option value;          (* [None]: SyntaxError *)
  JSON_stringify : value -> jsstring;             (* of a defined value *)
  StringToNumber : jsstring -> option Z;          (* integer results *)
  Hex_parse : jsstring -> bytes;
  Base64_parse : jsstring -> bytes;
  Base64_parse_nonstring : value -> outcome bytes;
  Base64_stringify : bytes -> jsstring;
  Latin1_parse_nonstring : value -> outcome bytes;
  HmacSHA256 : jsstring -> bytes -> bytes;        (* message, key *)
  AES_encrypt : bytes -> bytes -> bytes -> bytes; (* plaintext, key, iv *)
  AES_decrypt : bytes -> bytes -> bytes -> bytes  (* ciphertext, key, iv *)
}.

(** [CryptoJS.enc.Latin1.parse]: [charCodeAt(i) & 0xff] per code unit. *)
Definition Latin1_parse (s : jsstring) : bytes :=
  map (fun c => Z.land c 255) s.

(** [CryptoJS.enc.Latin1.stringify]: [String.fromCharCode(byte & 0xff)]. *)
Definition Latin1_stringify (w : bytes) : jsstring :=
  map (fun b => Z.land b 255) w.

Section Apicrypto.
Context {P : Platform}.

Definition CryptoJS_enc_Base64_parse (v : value) : C bytes :=
  call_may_throw enc_Base64_parse
    match v with
    | VStr s => Return (Base64_parse s)
    | _ => Base64_parse_nonstring v
    end.

Definition CryptoJS_enc_Latin1_parse (v : value) : C bytes :=
  call_may_throw enc_Latin1_parse
    match v with
    | VStr s => Return (Latin1_parse s)
    | _ => Latin1_parse_nonstring v
    end.

(** The guard of line 23:
    [!frame || frame.type != "ENCRYPTED" || !frame.data || !frame.mac
     || !frame.data.payload || !frame.data.iv]. *)
Definition frame_rejected (frame : value) : C bool :=
  if negb (truthy frame) then ret true else
  type <- pure (get frame (lit "type")) ;;
  eq <- pure (loose_eq_word type (lit "ENCRYPTED")) ;;
  if negb eq then ret true else
  data <- pure (get frame (lit "data")) ;;
  if negb (truthy data) then ret true else
  mac <- pure (get frame (lit "mac")) ;;
  if negb (truthy mac) then ret true else
  payload <- pure (get data (lit "payload")) ;;
  if negb (truthy payload) then ret true else
  iv <- pure (get data (lit "iv")) ;;
  ret (negb (truthy iv)).

Definition remootioApiDecryptEncrypedFrame
    (frame : value) (ApiSecretKey ApiAuthKey : jsstring)
    (ApiSessionKey : option jsstring) : C value :=
  rejected <- frame_rejected frame ;;
  if rejected then ret VUndefined else
  (* STEP 0 *)
  CurrentlyUsedSecretKeyWordArray <-
    match ApiSessionKey with
    | None => call enc_Hex_parse (Hex_parse ApiSecretKey)
    | Some sessionKey => call enc_Base64_parse (Base64_parse sessionKey)
    end ;;
  ApiAuthKeyWordArray <- call enc_Hex_parse (Hex_parse ApiAuthKey) ;;
  (* Step 1 verify MAC *)
  data <- pure (get frame (lit "data")) ;;
  mac <- call HmacSHA256_call (HmacSHA256 (JSON_stringify data) ApiAuthKeyWordArray) ;;
  base64mac <- call enc_Base64_stringify (Base64_stringify mac) ;;
  frame_mac <- pure (get frame (lit "mac")) ;;
  differs <- pure (loose_neq_with (StringToNumber base64mac) base64mac frame_mac) ;;
  macMatches <-
    (if differs
     then perform (console_warn (MacMismatch base64mac frame_mac)) ;; ret false
     else ret true) ;;
  (* STEP 2 decrypt the payload *)
  payload <- pure (get data (lit "payload")) ;;
  payloadWordArray <- CryptoJS_enc_Base64_parse payload ;;
  iv <- pure (get data (lit "iv")) ;;
  ivWordArray <- CryptoJS_enc_Base64_parse iv ;;
  decryptedPayloadWordArray <-
    call AES_decrypt_call
      (AES_decrypt payloadWordArray CurrentlyUsedSecretKeyWordArray ivWordArray) ;;
  decryptedPayload <-
    call enc_Latin1_stringify (Latin1_stringify decryptedPayloadWordArray) ;;
  decryptedPayloadJSON <-
    match JSON_parse decryptedPayload with
    | Some json => ret json
    | None => perform (console_warn (NotValidJSON decryptedPayload)) ;; ret VUndefined
    end ;;
  if macMatches then ret decryptedPayloadJSON else ret VUndefined.

(** [random16] is what [CryptoJS.lib.WordArray.random(16)] yields. *)
Definition remootioApiConstructEncrypedFrame
    (unencryptedPayload : value) (ApiSecretKey ApiAuthKey : jsstring)
    (ApiSessionKey : option jsstring) (random16 : bytes) : C value :=
  match ApiSessionKey with
  | None => ret VUndefined
  | Some sessionKey =>
      CurrentlyUsedSecretKeyWordArray <-
        call enc_Base64_parse (Base64_parse sessionKey) ;;
      ApiAuthKeyWordArray <- call enc_Hex_parse (Hex_parse ApiAuthKey) ;;
      (* STEP 1 encrypt the payload *)
      ivWordArray <- call WordArray_random random16 ;;
      unencryptedPayloadWordArray <- CryptoJS_enc_Latin1_parse unencryptedPayload ;;
      encryptedPayloadWordArray <-
        call AES_encrypt_call
          (AES_encrypt unencryptedPayloadWordArray CurrentlyUsedSecretKeyWordArray
                       ivWordArray) ;;
      (* Step 2 the {data:...} object *)
      iv64 <- call enc_Base64_stringify (Base64_stringify ivWordArray) ;;
      payload64 <- call enc_Base64_stringify (Base64_stringify encryptedPayloadWordArray) ;;
      let toHMACObj :=
        VObj [(lit "iv", VStr iv64); (lit "payload", VStr payload64)] in
      (* STEP 3 the HMAC-SHA256 of JSON.stringify(frame.data) *)
      let toHMAC := JSON_stringify toHMACObj in
      mac <- call HmacSHA256_call (HmacSHA256 toHMAC ApiAuthKeyWordArray) ;;
      base64mac <- call enc_Base64_stringify (Base64_stringify mac) ;;
      (* STEP 4 *)
      ret (VObj [(lit "type", VStr (lit "ENCRYPTED"));
                 (lit "data", toHMACObj);
                 (lit "mac", VStr base64mac)])
  end.

End Apicrypto.

(* ------------------------------------------------------------------ *)
(** ** [index.ts]: the [RemootioDevice] class *)

(** [WebSocket.readyState] of the [ws] client the device holds. *)
Inductive readyState : Type := CONNECTING | OPEN | CLOSING | CLOSED.

Definition is_OPEN (s : option readyState) : bool :=
  match s with Some OPEN => true | _ => false end.

Record RemootioDevice : Type := {
  apiSecretKey : jsstring;
  apiAuthKey : jsstring;
  deviceIp : jsstring;
  websocketClient : option readyState;
  apiSessionKey : option jsstring;
  lastActionId : option Z;
  autoReconnect : bool;
  sendPingMessageEveryXMs : Z;
  sendPingMessageIntervalHandle : option timer;
  pingReplyTimeoutXMs : Q;
  pingReplyTimeoutHandle : option timer;
  waitingForAuthenticationQueryActionResponse : option bool
}.

Definition set_websocketClient (x : option readyState) (d : RemootioDevice) :=
  {| apiSecretKey := apiSecretKey d; apiAuthKey := apiAuthKey d;
     deviceIp := deviceIp d; websocketClient := x;
     apiSessionKey := apiSessionKey d; lastActionId := lastActionId d;
     autoReconnect := autoReconnect d;
     sendPingMessageEveryXMs := sendPingMessageEveryXMs d;
     sendPingMessageIntervalHandle := sendPingMessageIntervalHandle d;
     pingReplyTimeoutXMs := pingReplyTimeoutXMs d;
     pingReplyTimeoutHandle := pingReplyTimeoutHandle d;
     waitingForAuthenticationQueryActionResponse :=
       waitingForAuthenticationQueryActionResponse d |}.

Definition set_apiSessionKey (x : option jsstring) (d : RemootioDevice) :=
  {| apiSecretKey := apiSecretKey d; apiAuthKey := apiAuthKey d;
     deviceIp := deviceIp d; websocketClient := websocketClient d;
     apiSessionKey := x; lastActionId := lastActionId d;
     autoReconnect := autoReconnect d;
     sendPingMessageEveryXMs := sendPingMessageEveryXMs d;
     sendPingMessageIntervalHandle := sendPingMessageIntervalHandle d;
     pingReplyTimeoutXMs := pingReplyTimeoutXMs d;
     pingReplyTimeoutHandle := pingReplyTimeoutHandle d;
     waitingForAuthenticationQueryActionResponse :=
       waitingForAuthenticationQueryActionResponse d |}.

Definition set_lastActionId (x : option Z) (d : RemootioDevice) :=
  {| apiSecretKey := apiSecretKey d; apiAuthKey := apiAuthKey d;
     deviceIp := deviceIp d; websocketClient := websocketClient d;
     apiSessionKey := apiSessionKey d; lastActionId := x;
     autoReconnect := autoReconnect d;
     sendPingMessageEveryXMs := sendPingMessageEveryXMs d;
     sendPingMessageIntervalHandle := sendPingMessageIntervalHandle d;
     pingReplyTimeoutXMs := pingReplyTimeoutXMs d;
     pingReplyTimeoutHandle := pingReplyTimeoutHandle d;
     waitingForAuthenticationQueryActionResponse :=
       waitingForAuthenticationQueryActionResponse d |}.

Definition set_autoReconnect (x : bool) (d : RemootioDevice) :=
  {| apiSecretKey := apiSecretKey d; apiAuthKey := apiAuthKey d;
     deviceIp := deviceIp d; websocketClient := websocketClient d;
     apiSessionKey := apiSessionKey d; lastActionId := lastActionId d;
     autoReconnect := x;
     sendPingMessageEveryXMs := sendPingMessageEveryXMs d;
     sendPingMessageIntervalHandle := sendPingMessageIntervalHandle d;
     pingReplyTimeoutXMs := pingReplyTimeoutXMs d;
     pingReplyTimeoutHandle := pingReplyTimeoutHandle d;
     waitingForAuthenticationQueryActionResponse :=
       waitingForAuthenticationQueryActionResponse d |}.

Definition set_sendPingMessageIntervalHandle (x : option timer) (d : RemootioDevice) :=
  {| apiSecretKey := apiSecretKey d; apiAuthKey := apiAuthKey d;
     deviceIp := deviceIp d; websocketClient := websocketClient d;
     apiSessionKey := apiSessionKey d; lastActionId := lastActionId d;
     autoReconnect := autoReconnect d;
     sendPingMessageEveryXMs := sendPingMessageEveryXMs d;
     sendPingMessageIntervalHandle := x;
     pingReplyTimeoutXMs := pingReplyTimeoutXMs d;
     pingReplyTimeoutHandle := pingReplyTimeoutHandle d;
     waitingForAuthenticationQueryActionResponse :=
       waitingForAuthenticationQueryActionResponse d |}.

Definition set_pingReplyTimeoutHandle (x : option timer) (d : RemootioDevice) :=
  {| apiSecretKey := apiSecretKey d; apiAuthKey := apiAuthKey d;
     deviceIp := deviceIp d; websocketClient := websocketClient d;
     apiSessionKey := apiSessionKey d; lastActionId := lastActionId d;
     autoReconnect := autoReconnect d;
     sendPingMessageEveryXMs := sendPingMessageEveryXMs d;
     sendPingMessageIntervalHandle := sendPingMessageIntervalHandle d;
     pingReplyTimeoutXMs := pingReplyTimeoutXMs d;
     pingReplyTimeoutHandle := x;
     waitingForAuthenticationQueryActionResponse :=
       waitingForAuthenticationQueryActionResponse d |}.

Definition set_waitingForAuthenticationQueryActionResponse
    (x : option bool) (d : RemootioDevice) :=
  {| apiSecretKey := apiSecretKey d; apiAuthKey := apiAuthKey d;
     deviceIp := deviceIp d; websocketClient := websocketClient d;
     apiSessionKey := apiSessionKey d; lastActionId := lastActionId d;
     autoReconnect := autoReconnect d;
     sendPingMessageEveryXMs := sendPingMessageEveryXMs d;
     sendPingMessageIntervalHandle := sendPingMessageIntervalHandle d;
     pingReplyTimeoutXMs := pingReplyTimeoutXMs d;
     pingReplyTimeoutHandle := pingReplyTimeoutHandle d;
     waitingForAuthenticationQueryActionResponse := x |}.

(** A method or callback of the device: it reads and writes the fields,
    logs effects, and returns or throws. *)
Definition M (A : Type) : Type :=
  RemootioDevice -> (RemootioDevice * trace * outcome A)%type.

Definition M_bind {A B} (c : M A) (k : A -> M B) : M B :=
  fun d =>
    match c d with
    | (d1, t1, Return a) =>
        match k a d1 with (d2, t2, r) => (d2, t1 ++ t2, r) end
    | (d1, t1, Throw e) => (d1, t1, Throw e)
    end.

#[global] Instance M_Monad : Monad M :=
  {| ret := fun A a d => (d, [], Return a); bind := @M_bind |}.

Definition this {A} (field : RemootioDevice -> A) : M A :=
  fun d => (d, [], Return (field d)).
Definition assign (set : RemootioDevice -> RemootioDevice) : M unit :=
  fun d => (set d, [], Return tt).
Definition liftC {A} (c : C A) : M A :=
  fun d => (d, map IO (fst c), snd c).
Definition log (e : effect) : M unit := fun d => (d, [e], Return tt).
Definition warn (w : warning) : M unit := log (IO (console_warn w)).
Definition eval {A} (o : outcome A) : M A := fun d => (d, [], o).
Definition skip : M unit := ret tt.

(** [try { body } catch (e) { handler e }]; what [body] wrote before it
    threw stays written. *)
Definition try_catch (body : M unit) (handler : exn -> M unit) : M unit :=
  fun d =>
    match body d with
    | (d1, t1, Return _) => (d1, t1, Return tt)
    | (d1, t1, Throw e) =>
        match handler e d1 with (d2, t2, r) => (d2, t1 ++ t2, r) end
    end.

(** The device holds [apiSessionKey?: string] and [lastActionId?: number]
    (index.ts 99-100), and [frames.ts] (its text follows README.md) types
    the payload fields stored in them: [challenge.sessionKey: string],
    [challenge.initialActionId: number], [response.id: number].  The two
    fields are modelled at these declared types, and a payload field is read
    into them at its declared type.  The declarations are erased at run
    time: on a payload whose field has another type the code stores the
    value as it is, and later coerces it or throws, which the model does not
    follow (it reads such a field as absent).  The theorems about what is
    stored or sent after a challenge or a response take payloads of the
    declared shape. *)
Definition as_string (v : value) : option jsstring :=
  match v with VStr s => Some s | _ => None end.

Definition as_number (v : value) : option Z :=
  match v with VNum n => Some n | _ => None end.

Definition is_hex_digit (c : Z) : bool :=
  ((48 <=? c) && (c <=? 57)) || ((65 <=? c) && (c <=? 70))
  || ((97 <=? c) && (c <=? 102)).

(** [/[0-9A-Fa-f]{64}/g.test(s)] on a fresh regular expression. *)
Fixpoint hexstringRe_test_from (run : nat) (s : jsstring) : bool :=
  match s with
  | [] => false
  | c :: rest =>
      if is_hex_digit c
      then (if (64 <=? S run)%nat then true else hexstringRe_test_from (S run) rest)
      else hexstringRe_test_from 0 rest
  end.

Definition hexstringRe_test (s : jsstring) : bool := hexstringRe_test_from 0 s.

(** [new RemootioDevice(DeviceIp, ApiSecretKey, ApiAuthKey, sendPingMessageEveryXMs?)] *)
Definition constructor (DeviceIp ApiSecretKey ApiAuthKey : jsstring)
    (sendPingMessageEveryXMs_arg : option Z) : RemootioDevice * trace :=
  let every :=
    match sendPingMessageEveryXMs_arg with
    | Some ms => if ms =? 0 then 60000 else ms
    | None => 60000
    end in
  ({| apiSecretKey := ApiSecretKey;
      apiAuthKey := ApiAuthKey;
      deviceIp := DeviceIp;
      websocketClient := None;
      apiSessionKey := None;
      lastActionId := None;
      autoReconnect := false;
      sendPingMessageEveryXMs := every;
      sendPingMessageIntervalHandle := None;
      pingReplyTimeoutXMs := Qmake every 2;
      pingReplyTimeoutHandle := None;
      waitingForAuthenticationQueryActionResponse := Some false |},
   (if hexstringRe_test ApiSecretKey then [] else [console_error (lit "ApiSecretKey")])
   ++ (if hexstringRe_test ApiAuthKey then [] else [console_error (lit "ApiAuthKey")])).

(** [ws.close()] and [ws.terminate()] leave a socket that is not yet closed
    in the CLOSING state; the transport reports the end through 'close'. *)
Definition closing (s : option readyState) : option readyState :=
  match s with
  | Some CLOSED => Some CLOSED
  | Some _ => Some CLOSING
  | None => None
  end.

Definition action (type : jsstring) (id : Z) : value :=
  VObj [(lit "action", VObj [(lit "type", VStr type); (lit "id", VNum id)])].

Definition plain_frame (type : jsstring) : value :=
  VObj [(lit "type", VStr type)].

Section Device.
Context {P : Platform}.

(** [connect], on an address the [ws] constructor accepts.  (On another
    address [new WebSocket] throws, after the session fields are reset and
    before [websocketClient] is assigned or 'connecting' raised; the
    callbacks below exist only on a socket that was created.) *)
Definition connect (autoReconnect_arg : bool) : M unit :=
  (if autoReconnect_arg then assign (set_autoReconnect true) else skip) ;;
  assign (set_apiSessionKey None) ;;
  assign (set_lastActionId None) ;;
  assign (set_waitingForAuthenticationQueryActionResponse None) ;;
  ip <- this deviceIp ;;
  assign (set_websocketClient (Some CONNECTING)) ;;
  log (new_WebSocket (lit "ws://" ++ ip ++ lit ":8080/")) ;;
  log (emit Connecting).

Definition disconnect : M unit :=
  ws <- this websocketClient ;;
  match ws with
  | Some _ =>
      assign (set_autoReconnect false) ;;
      assign (set_websocketClient (closing ws)) ;;
      log ws_close
  | None => skip
  end.

Definition sendFrame (frameJson : value) : M unit :=
  ws <- this websocketClient ;;
  if is_OPEN ws then
    log (ws_send (JSON_stringify frameJson)) ;;
    log (emit (OutgoingMessage frameJson VUndefined))
  else warn (NotConnected).

Definition sendEncryptedFrame (unencryptedPayload : value) (random16 : bytes)
  : M unit :=
  ws <- this websocketClient ;;
  if is_OPEN ws then
    sessionKey <- this apiSessionKey ;;
    match sessionKey with
    | Some _ =>
        secret <- this apiSecretKey ;;
        auth <- this apiAuthKey ;;
        encryptedFrame <-
          liftC (remootioApiConstructEncrypedFrame
                   (VStr (JSON_stringify unencryptedPayload))
                   secret auth sessionKey random16) ;;
        log (ws_send (JSON_stringify encryptedFrame)) ;;
        log (emit (OutgoingMessage encryptedFrame unencryptedPayload))
    | None => warn (AuthenticateFirst)
    end
  else warn (NotConnected).

Definition authenticate : M unit := sendFrame (plain_frame (lit "AUTH")).
Definition sendHello : M unit := sendFrame (plain_frame (lit "HELLO")).
Definition sendPing : M unit := sendFrame (plain_frame (lit "PING")).

(** The common body of the six action methods; the id is
    [(this.lastActionId + 1) % 0x7fffffff], the sum taken in doubles. *)
Definition sendAction (type : jsstring) (random16 : bytes) : M unit :=
  last <- this lastActionId ;;
  match last with
  | Some id =>
      sendEncryptedFrame (action type (Z.rem (to_double (id + 1)) 0x7fffffff))
        random16
  | None => warn (LastActionIdUndefined)
  end.

Definition sendQuery := sendAction (lit "QUERY").
Definition sendTrigger := sendAction (lit "TRIGGER").
Definition sendTriggerSecondary := sendAction (lit "TRIGGER_SECONDARY").
Definition sendOpen := sendAction (lit "OPEN").
Definition sendClose := sendAction (lit "CLOSE").
Definition sendRestart := sendAction (lit "RESTART").

Definition isConnected (d : RemootioDevice) : bool := is_OPEN (websocketClient d).

Definition theLastActionId (d : RemootioDevice) : option Z := lastActionId d.

Definition isAuthenticated (d : RemootioDevice) : bool :=
  if is_OPEN (websocketClient d)
  then match apiSessionKey d with Some _ => true | None => false end
  else false.

(** The 'open' callback; [h] is the handle [setInterval] returns. *)
Definition on_open (h : timer) : M unit :=
  log (emit Connected) ;;
  log (setInterval h) ;;
  assign (set_sendPingMessageIntervalHandle (Some h)).

(** The interval callback; [h] is the handle [setTimeout] returns. *)
Definition on_ping_interval (h : timer) : M unit :=
  ws <- this websocketClient ;;
  if is_OPEN ws then
    log (setTimeout h) ;;
    assign (set_pingReplyTimeoutHandle (Some h)) ;;
    sendPing
  else skip.

(** The timeout callback armed by [on_ping_interval]. *)
Definition on_ping_reply_timeout : M unit :=
  ms <- this pingReplyTimeoutXMs ;;
  log (emit (Error (NoResponseForPing ms))) ;;
  ws <- this websocketClient ;;
  match ws with
  | Some _ =>
      assign (set_websocketClient (closing ws)) ;;
      log ws_terminate ;;
      assign (set_pingReplyTimeoutHandle None)
  | None => skip
  end.

(** Lines 226-236: the counter moves on a response id of the declared
    type, a number. *)
Definition advance_lastActionId (response_id : value) : M unit :=
  last <- this lastActionId ;;
  match last with
  | Some V =>
      match as_number response_id with
      | Some r =>
          if (V <? r) || ((r =? 0) && (V =? 0x7fffffff))
          then assign (set_lastActionId (Some r))
          else skip
      | None => skip
      end
  | None => warn LastActionIdUndefined
  end.

(** Lines 214-246, for a payload that is not [undefined]; the fields of a
    challenge and the id of a response are read at their declared types. *)
Definition process_payload (decryptedPayload : value) (random16 : bytes) : M unit :=
  isChallenge <- eval (has (lit "challenge") decryptedPayload) ;;
  (if isChallenge then
     challenge <- eval (get decryptedPayload (lit "challenge")) ;;
     sessionKey <- eval (get challenge (lit "sessionKey")) ;;
     assign (set_apiSessionKey (as_string sessionKey)) ;;
     initialActionId <- eval (get challenge (lit "initialActionId")) ;;
     assign (set_lastActionId (as_number initialActionId)) ;;
     assign (set_waitingForAuthenticationQueryActionResponse (Some true)) ;;
     sendQuery random16
   else skip) ;;
  isResponse <- eval (has (lit "response") decryptedPayload) ;;
  if isResponse then
    response <- eval (get decryptedPayload (lit "response")) ;;
    id <- eval (get response (lit "id")) ;;
    if negb (is_undefined id) then
      advance_lastActionId id ;;
      type <- eval (get response (lit "type")) ;;
      isQuery <- eval (loose_eq_word type (lit "QUERY")) ;;
      waiting <- this waitingForAuthenticationQueryActionResponse ;;
      match isQuery, waiting with
      | true, Some true =>
          assign (set_waitingForAuthenticationQueryActionResponse (Some false)) ;;
          log (emit Authenticated)
      | _, _ => skip
      end
    else skip
  else skip.

(** The 'message' callback on [data.toString()]. *)
Definition on_message (data : jsstring) (random16 : bytes) : M unit :=
  try_catch
    (rcvMsgJson <-
       match JSON_parse data with
       | Some json => ret json
       | None => eval (Throw SyntaxError)
       end ;;
     pending <- this pingReplyTimeoutHandle ;;
     match pending with
     | Some h => log (clearTimeout h) ;; assign (set_pingReplyTimeoutHandle None)
     | None => skip
     end ;;
     isEncrypted <-
       (if truthy rcvMsgJson
        then type <- eval (get rcvMsgJson (lit "type")) ;;
             eval (loose_eq_word type (lit "ENCRYPTED"))
        else ret false) ;;
     if isEncrypted then
       secret <- this apiSecretKey ;;
       auth <- this apiAuthKey ;;
       sessionKey <- this apiSessionKey ;;
       decryptedPayload <-
         liftC (remootioApiDecryptEncrypedFrame rcvMsgJson secret auth sessionKey) ;;
       log (emit (IncomingMessage rcvMsgJson decryptedPayload)) ;;
       if negb (is_undefined decryptedPayload)
       then process_payload decryptedPayload random16
       else log (emit (Error AuthenticationOrEncryptionError))
     else log (emit (IncomingMessage rcvMsgJson VUndefined)))
    (fun e => log (emit (Error (Caught e)))).

(** The 'close' callback. *)
Definition on_close : M unit :=
  interval <- this sendPingMessageIntervalHandle ;;
  match interval with
  | Some h =>
      log (clearInterval h) ;;
      assign (set_sendPingMessageIntervalHandle None)
  | None => skip
  end ;;
  reconnect <- this autoReconnect ;;
  (if reconnect then connect reconnect else skip) ;;
  log (emit Disconnect).

(** The [ws] client moves [readyState] before it runs a callback. *)
Definition transport_open (h : timer) : M unit :=
  assign (set_websocketClient (Some OPEN)) ;; on_open h.

Definition transport_close : M unit :=
  assign (set_websocketClient (Some CLOSED)) ;; on_close.

End Device.

(* ------------------------------------------------------------------ *)
(** ** A reference platform

    An executable instance of [Platform]: Hex, Base64 and UTF-8 as crypto-js
    codes them, SHA-256 (FIPS 180-4) and HMAC (RFC 2104), AES (FIPS 197) in
    CBC mode with PKCS#7 padding, and JSON over integer numbers.  It runs
    the code on concrete frames; the frame of the repository's decryption
    test decrypts under it to the payload the test expects. *)

Module Reference.

Definition hex_value (c : Z) : Z :=
  if (48 <=? c) && (c <=? 57) then c - 48
  else if (65 <=? c) && (c <=? 70) then c - 55
  else if (97 <=? c) && (c <=? 102) then c - 87
  else 0.

Fixpoint Hex_parse (s : jsstring) : bytes :=
  match s with
  | hi :: lo :: rest => (16 * hex_value hi + hex_value lo) :: Hex_parse rest
  | _ => []
  end.

Definition base64_map : jsstring :=
  lit "ABCDEFGHIJKLMNOPQRSTUVWXYZabcdefghijklmnopqrstuvwxyz0123456789+/".

Fixpoint index_of (c : Z) (l : list Z) (i : Z) : option Z :=
  match l with
  | [] => None
  | x :: rest => if x =? c then Some i else index_of c rest (i + 1)
  end.

Definition base64_char (i : Z) : Z := nth (Z.to_nat i) base64_map 0.

Definition reverseMap (c : Z) : Z :=
  match index_of c base64_map 0 with Some i => i | None => 0 end.

Definition sextet (triplet : Z) (j : Z) : Z :=
  base64_char (Z.land (Z.shiftr triplet (6 * (3 - j))) 63).

Fixpoint Base64_stringify (w : bytes) : jsstring :=
  match w with
  | [] => []
  | [a] =>
      let t := Z.shiftl a 16 in [sextet t 0; sextet t 1; 61; 61]
  | [a; b] =>
      let t := Z.lor (Z.shiftl a 16) (Z.shiftl b 8) in
      [sextet t 0; sextet t 1; sextet t 2; 61]
  | a :: b :: c :: rest =>
      let t := Z.lor (Z.lor (Z.shiftl a 16) (Z.shiftl b 8)) c in
      sextet t 0 :: sextet t 1 :: sextet t 2 :: sextet t 3 :: Base64_stringify rest
  end.

Fixpoint parseLoop (prev : Z) (i : Z) (s : jsstring) : bytes :=
  match s with
  | [] => []
  | c :: rest =>
      let r := i mod 4 in
      if r =? 0 then parseLoop c (i + 1) rest
      else
        Z.land (Z.lor (Z.shiftl (reverseMap prev) (r * 2))
                      (Z.shiftr (reverseMap c) (6 - r * 2))) 255
        :: parseLoop c (i + 1) rest
  end.

Fixpoint until_padding (s : jsstring) : jsstring :=
  match s with
  | [] => []
  | c :: rest => if c =? 61 then [] else c :: until_padding rest
  end.

Definition Base64_parse (s : jsstring) : bytes := parseLoop 0 0 (until_padding s).

(** *** SHA-256 and HMAC *)
Definition mask32 : Z := 0xffffffff.
Definition add32 (a b : Z) : Z := Z.land (a + b) mask32.
Definition rotr (n x : Z) : Z :=
  Z.lor (Z.shiftr x n) (Z.land (Z.shiftl x (32 - n)) mask32).
Definition not32 (x : Z) : Z := Z.lxor x mask32.

Definition primes64 : list Z :=
  [2; 3; 5; 7; 11; 13; 17; 19; 23; 29; 31; 37; 41; 43; 47; 53; 59; 61; 67; 71;
   73; 79; 83; 89; 97; 101; 103; 107; 109; 113; 127; 131; 137; 139; 149; 151;
   157; 163; 167; 173; 179; 181; 191; 193; 197; 199; 211; 223; 227; 229; 233;
   239; 241; 251; 257; 263; 269; 271; 277; 281; 283; 293; 307; 311].

Fixpoint icbrt_bits (b : nat) (n r : Z) : Z :=
  let try := r + Z.shiftl 1 (Z.of_nat b) in
  let r' := if try * try * try <=? n then try else r in
  match b with
  | O => r'
  | S b' => icbrt_bits b' n r'
  end.

Definition sha256_K : list Z :=
  Eval vm_compute in
  map (fun p => Z.land (icbrt_bits 40 (p * 2 ^ 96) 0) mask32) primes64.

Definition sha256_H0 : list Z :=
  Eval vm_compute in
  map (fun p => Z.land (Z.sqrt (p * 2 ^ 64)) mask32) (firstn 8 primes64).

Definition nthZ (i : nat) (l : list Z) : Z := nth i l 0.

Fixpoint be_words (b : bytes) : list Z :=
  match b with
  | a :: b' :: c :: d :: rest =>
      (Z.lor (Z.lor (Z.shiftl a 24) (Z.shiftl b' 16)) (Z.lor (Z.shiftl c 8) d))
      :: be_words rest
  | _ => []
  end.

Definition word_bytes (w : Z) : bytes :=
  [Z.land (Z.shiftr w 24) 255; Z.land (Z.shiftr w 16) 255;
   Z.land (Z.shiftr w 8) 255; Z.land w 255].

Fixpoint extend_schedule (n : nat) (w : list Z) : list Z :=
  match n with
  | O => w
  | S n' =>
      let t := List.length w in
      let w2 := nthZ (t - 2) w in
      let w7 := nthZ (t - 7) w in
      let w15 := nthZ (t - 15) w in
      let w16 := nthZ (t - 16) w in
      let s0 := Z.lxor (Z.lxor (rotr 7 w15) (rotr 18 w15)) (Z.shiftr w15 3) in
      let s1 := Z.lxor (Z.lxor (rotr 17 w2) (rotr 19 w2)) (Z.shiftr w2 10) in
      extend_schedule n' (w ++ [add32 (add32 s1 w7) (add32 s0 w16)])
  end.

Definition sha256_round (st : list Z) (kw : Z * Z) : list Z :=
  match st with
  | [a; b; c; d; e; f; g; h] =>
      let S1 := Z.lxor (Z.lxor (rotr 6 e) (rotr 11 e)) (rotr 25 e) in
      let ch := Z.lxor (Z.land e f) (Z.land (not32 e) g) in
      let t1 := add32 (add32 (add32 h S1) (add32 ch (fst kw))) (snd kw) in
      let S0 := Z.lxor (Z.lxor (rotr 2 a) (rotr 13 a)) (rotr 22 a) in
      let maj := Z.lxor (Z.lxor (Z.land a b) (Z.land a c)) (Z.land b c) in
      let t2 := add32 S0 maj in
      [add32 t1 t2; a; b; c; add32 d t1; e; f; g]
  | _ => st
  end.

Definition sha256_block (h : list Z) (block : bytes) : list Z :=
  let w := extend_schedule 48 (be_words block) in
  let st := fold_left sha256_round (combine sha256_K w) h in
  map (fun p => add32 (fst p) (snd p)) (combine h st).

Fixpoint chunks {A} (fuel : nat) (n : nat) (b : list A) : list (list A) :=
  match fuel with
  | O => []
  | S fuel' =>
      match b with
      | [] => []
      | _ => firstn n b :: chunks fuel' n (skipn n b)
      end
  end.

Definition sha256_pad (m : bytes) : bytes :=
  let len := Z.of_nat (List.length m) in
  let zeros := Z.to_nat ((55 - len) mod 64) in
  m ++ [128] ++ repeat 0 zeros
    ++ word_bytes (Z.shiftr (8 * len) 32) ++ word_bytes (Z.land (8 * len) mask32).

Definition SHA256 (m : bytes) : bytes :=
  let padded := sha256_pad m in
  let h := fold_left sha256_block (chunks (List.length padded) 64 padded) sha256_H0 in
  flat_map word_bytes h.

Definition xor_pad (c : Z) (key : bytes) : bytes :=
  map (fun b => Z.lxor b c) key.

Definition HMAC_SHA256 (message key : bytes) : bytes :=
  let key1 := if (64 <? Z.of_nat (List.length key)) then SHA256 key else key in
  let key2 := key1 ++ repeat 0 (64 - List.length key1) in
  SHA256 (xor_pad 0x5c key2 ++ SHA256 (xor_pad 0x36 key2 ++ message)).

(** UTF-8 of a string of UTF-16 code units (crypto-js hashes the UTF-8
    bytes of a string message). *)
Definition utf8_of_code_point (c : Z) : bytes :=
  if c <? 0x80 then [c]
  else if c <? 0x800 then [Z.lor 0xc0 (Z.shiftr c 6); Z.lor 0x80 (Z.land c 63)]
  else if c <? 0x10000 then
    [Z.lor 0xe0 (Z.shiftr c 12); Z.lor 0x80 (Z.land (Z.shiftr c 6) 63);
     Z.lor 0x80 (Z.land c 63)]
  else
    [Z.lor 0xf0 (Z.shiftr c 18); Z.lor 0x80 (Z.land (Z.shiftr c 12) 63);
     Z.lor 0x80 (Z.land (Z.shiftr c 6) 63); Z.lor 0x80 (Z.land c 63)].

Fixpoint Utf8_parse (s : jsstring) : bytes :=
  match s with
  | [] => []
  | hi :: rest =>
      match rest with
      | lo :: rest' =>
          if (0xd800 <=? hi) && (hi <? 0xdc00) && (0xdc00 <=? lo) && (lo <? 0xe000)
          then utf8_of_code_point (0x10000 + Z.shiftl (hi - 0xd800) 10 + (lo - 0xdc00))
               ++ Utf8_parse rest'
          else utf8_of_code_point hi ++ Utf8_parse rest
      | [] => utf8_of_code_point hi
      end
  end.

Definition HmacSHA256 (message : jsstring) (key : bytes) : bytes :=
  HMAC_SHA256 (Utf8_parse message) key.

(** *** AES *)


(* AES (FIPS 197) *)
Definition xtime (b : Z) : Z :=
  let d := Z.shiftl b 1 in
  if Z.testbit b 7 then Z.lxor (Z.land d 255) 0x1b else d.

Fixpoint gmul_bits (n : nat) (a b : Z) : Z :=
  match n with
  | O => 0
  | S n' =>
      Z.lxor (if Z.testbit b 0 then a else 0)
             (gmul_bits n' (xtime a) (Z.shiftr b 1))
  end.

Definition gmul (a b : Z) : Z := gmul_bits 8 a b.

Definition all_bytes : list Z := map Z.of_nat (seq 0 256).

Definition ginv (a : Z) : Z :=
  match find (fun b => gmul a b =? 1) all_bytes with
  | Some b => b
  | None => 0
  end.

Definition rotl8 (n x : Z) : Z :=
  Z.land (Z.lor (Z.shiftl x n) (Z.shiftr x (8 - n))) 255.

Definition affine (b : Z) : Z :=
  Z.lxor (Z.lxor (Z.lxor b (rotl8 1 b)) (Z.lxor (rotl8 2 b) (rotl8 3 b)))
         (Z.lxor (rotl8 4 b) 0x63).

Definition SBOX : list Z :=
  Eval vm_compute in map (fun a => affine (ginv a)) all_bytes.

Definition INV_SBOX : list Z :=
  Eval vm_compute in
  map (fun y => match index_of y SBOX 0 with Some x => x | None => 0 end) all_bytes.

Definition sub (b : Z) : Z := nthZ (Z.to_nat b) SBOX.
Definition inv_sub (b : Z) : Z := nthZ (Z.to_nat b) INV_SBOX.

Definition xor_bytes (a b : bytes) : bytes :=
  map (fun p => Z.lxor (fst p) (snd p)) (combine a b).

(** The state is the 16 bytes of a block, column after column. *)
Definition permute (idx : list nat) (s : bytes) : bytes :=
  map (fun i => nthZ i s) idx.

Definition ShiftRows : bytes -> bytes :=
  permute [0; 5; 10; 15; 4; 9; 14; 3; 8; 13; 2; 7; 12; 1; 6; 11]%nat.
Definition InvShiftRows : bytes -> bytes :=
  permute [0; 13; 10; 7; 4; 1; 14; 11; 8; 5; 2; 15; 12; 9; 6; 3]%nat.

Definition mix_column (m : list Z) (col : bytes) : bytes :=
  match col, m with
  | [a; b; c; d], [m0; m1; m2; m3] =>
      [Z.lxor (Z.lxor (gmul m0 a) (gmul m1 b)) (Z.lxor (gmul m2 c) (gmul m3 d));
       Z.lxor (Z.lxor (gmul m3 a) (gmul m0 b)) (Z.lxor (gmul m1 c) (gmul m2 d));
       Z.lxor (Z.lxor (gmul m2 a) (gmul m3 b)) (Z.lxor (gmul m0 c) (gmul m1 d));
       Z.lxor (Z.lxor (gmul m1 a) (gmul m2 b)) (Z.lxor (gmul m3 c) (gmul m0 d))]
  | _, _ => col
  end.

Definition MixColumns (s : bytes) : bytes :=
  flat_map (mix_column [2; 3; 1; 1]) (chunks 4 4 s).
Definition InvMixColumns (s : bytes) : bytes :=
  flat_map (mix_column [14; 11; 13; 9]) (chunks 4 4 s).

(** Key expansion: [Nk] words of key give [4 * (Nk + 7)] words. *)
Definition rot_word (w : bytes) : bytes :=
  match w with
  | a :: rest => rest ++ [a]
  | [] => []
  end.

Fixpoint rcon (i : nat) : Z :=
  match i with
  | O => 0
  | S O => 1
  | S i' => xtime (rcon i')
  end.

Fixpoint expand_key (n : nat) (Nk : nat) (w : list bytes) : list bytes :=
  match n with
  | O => w
  | S n' =>
      let i := List.length w in
      let prev := nth (i - 1) w [] in
      let temp :=
        if (i mod Nk =? 0)%nat then
          xor_bytes (map sub (rot_word prev)) [rcon (i / Nk); 0; 0; 0]
        else if (6 <? Nk)%nat && (i mod Nk =? 4)%nat then map sub prev
        else prev in
      expand_key n' Nk (w ++ [xor_bytes (nth (i - Nk) w []) temp])
  end.

Definition key_schedule (key : bytes) : list bytes :=
  let Nk := (List.length key / 4)%nat in
  let w := expand_key (4 * (Nk + 7) - Nk) Nk (chunks Nk 4 key) in
  map (@List.concat Z) (chunks (Nk + 7) 4 w).

Definition encrypt_round (s : bytes) (rk : bytes) : bytes :=
  xor_bytes (MixColumns (ShiftRows (map sub s))) rk.

Definition encryptBlock (ks : list bytes) (block : bytes) : bytes :=
  match ks with
  | [] => block
  | rk0 :: rks =>
      let middle := removelast rks in
      let s := fold_left encrypt_round middle (xor_bytes block rk0) in
      xor_bytes (ShiftRows (map sub s)) (last rks [])
  end.

Definition decrypt_round (s : bytes) (rk : bytes) : bytes :=
  InvMixColumns (xor_bytes (map inv_sub (InvShiftRows s)) rk).

Definition decryptBlock (ks : list bytes) (block : bytes) : bytes :=
  match rev ks with
  | [] => block
  | rkN :: rks =>
      let middle := removelast rks in
      let s := fold_left decrypt_round middle (xor_bytes block rkN) in
      xor_bytes (map inv_sub (InvShiftRows s)) (last rks [])
  end.

(** CBC mode with PKCS#7 padding. *)
Definition Pkcs7_pad (data : bytes) : bytes :=
  let n := 16 - Z.of_nat (List.length data) mod 16 in
  data ++ repeat n (Z.to_nat n).

Definition Pkcs7_unpad (data : bytes) : bytes :=
  let n := Z.to_nat (last data 0) in
  firstn (List.length data - n) data.

Fixpoint cbc_encrypt (ks : list bytes) (prev : bytes) (blocks : list bytes) : bytes :=
  match blocks with
  | [] => []
  | p :: rest =>
      let c := encryptBlock ks (xor_bytes p prev) in
      c ++ cbc_encrypt ks c rest
  end.

Fixpoint cbc_decrypt (ks : list bytes) (prev : bytes) (blocks : list bytes) : bytes :=
  match blocks with
  | [] => []
  | c :: rest => xor_bytes (decryptBlock ks c) prev ++ cbc_decrypt ks c rest
  end.

Definition AES_encrypt (plaintext key iv : bytes) : bytes :=
  let padded := Pkcs7_pad plaintext in
  cbc_encrypt (key_schedule key) iv (chunks (List.length padded) 16 padded).

Definition AES_decrypt (ciphertext key iv : bytes) : bytes :=
  Pkcs7_unpad
    (cbc_decrypt (key_schedule key) iv (chunks (List.length ciphertext) 16 ciphertext)).

(** *** JSON *)

Definition hex_digit (n : Z) : Z := if n <? 10 then 48 + n else 87 + n.

Definition quote_code_unit (c : Z) : jsstring :=
  if c =? 34 then [92; 34]
  else if c =? 92 then [92; 92]
  else if c =? 8 then [92; 98]
  else if c =? 12 then [92; 102]
  else if c =? 10 then [92; 110]
  else if c =? 13 then [92; 114]
  else if c =? 9 then [92; 116]
  else if c <? 32 then [92; 117; 48; 48; hex_digit (c / 16); hex_digit (c mod 16)]
  else [c].

Definition QuoteJSONString (s : jsstring) : jsstring :=
  [34] ++ flat_map quote_code_unit s ++ [34].

Fixpoint somes {A} (l : list (option A)) : list A :=
  match l with
  | [] => []
  | Some x :: rest => x :: somes rest
  | None :: rest => somes rest
  end.

Fixpoint JSON_stringify (v : value) : jsstring :=
  match v with
  | VUndefined => []
  | VNull => lit "null"
  | VBool true => lit "true"
  | VBool false => lit "false"
  | VNum n => NumberToString n
  | VStr s => QuoteJSONString s
  | VArr elems =>
      [91]
      ++ join_with [44]
           (map (fun e => match e with
                          | VUndefined => lit "null"
                          | _ => JSON_stringify e
                          end) elems)
      ++ [93]
  | VObj props =>
      [123]
      ++ join_with [44]
           (somes (map (fun p => match p with
                                 | (k, VUndefined) => None
                                 | (k, x) => Some (QuoteJSONString k ++ [58] ++ JSON_stringify x)
                                 end) props))
      ++ [125]
  end.

Definition is_ws (c : Z) : bool :=
  (c =? 32) || (c =? 9) || (c =? 10) || (c =? 13).

Fixpoint skip_ws (s : jsstring) : jsstring :=
  match s with
  | c :: rest => if is_ws c then skip_ws rest else s
  | [] => []
  end.

Definition is_digit (c : Z) : bool := (48 <=? c) && (c <=? 57).

Definition is_hex (c : Z) : bool :=
  is_digit c || ((65 <=? c) && (c <=? 70)) || ((97 <=? c) && (c <=? 102)).

(** The characters of a string literal after its opening quote. *)
Fixpoint parse_chars (s : jsstring) (acc : jsstring) : option (jsstring * jsstring) :=
  match s with
  | [] => None
  | c :: rest =>
      if c =? 34 then Some (rev acc, rest)
      else if c =? 92 then
        match rest with
        | 117 :: a :: b :: c' :: d :: rest' =>
            if is_hex a && is_hex b && is_hex c' && is_hex d
            then parse_chars rest'
                   (4096 * hex_value a + 256 * hex_value b
                    + 16 * hex_value c' + hex_value d :: acc)
            else None
        | e :: rest' =>
            if (e =? 34) || (e =? 92) || (e =? 47) then parse_chars rest' (e :: acc)
            else if e =? 98 then parse_chars rest' (8 :: acc)
            else if e =? 102 then parse_chars rest' (12 :: acc)
            else if e =? 110 then parse_chars rest' (10 :: acc)
            else if e =? 114 then parse_chars rest' (13 :: acc)
            else if e =? 116 then parse_chars rest' (9 :: acc)
            else None
        | [] => None
        end
      else if c <? 32 then None
      else parse_chars rest (c :: acc)
  end.

Fixpoint parse_digits (s : jsstring) (acc : Z) : Z * jsstring :=
  match s with
  | c :: rest => if is_digit c then parse_digits rest (10 * acc + (c - 48)) else (acc, s)
  | [] => (acc, [])
  end.

(** An integer literal; a fraction or an exponent is not read. *)
Definition parse_number (s : jsstring) : option (value * jsstring) :=
  let (negative, body) :=
    match s with
    | 45 :: rest => (true, rest)
    | _ => (false, s)
    end in
  match body with
  | d :: after =>
      if is_digit d then
        let (n, rest) := parse_digits body 0 in
        let leading_zero := (d =? 48) && match after with
                                         | d2 :: _ => is_digit d2
                                         | [] => false
                                         end in
        let continues := match rest with
                         | c :: _ => (c =? 46) || (c =? 101) || (c =? 69)
                         | [] => false
                         end in
        if leading_zero || continues then None
        else Some (VNum (if negative then - n else n), rest)
      else None
  | [] => None
  end.

Fixpoint set_member (k : jsstring) (v : value) (props : list (jsstring * value))
  : list (jsstring * value) :=
  match props with
  | [] => [(k, v)]
  | (k', v') :: rest =>
      if str_eqb k k' then (k, v) :: rest else (k', v') :: set_member k v rest
  end.

Fixpoint parse_value (fuel : nat) (s : jsstring) {struct fuel}
  : option (value * jsstring) :=
  match fuel with
  | O => None
  | S fuel' =>
      match skip_ws s with
      | 123 :: rest =>
          match skip_ws rest with
          | 125 :: rest' => Some (VObj [], rest')
          | _ => parse_members fuel' rest []
          end
      | 91 :: rest =>
          match skip_ws rest with
          | 93 :: rest' => Some (VArr [], rest')
          | _ => parse_elements fuel' rest []
          end
      | 34 :: rest =>
          match parse_chars rest [] with
          | Some (str, rest') => Some (VStr str, rest')
          | None => None
          end
      | 116 :: 114 :: 117 :: 101 :: rest => Some (VBool true, rest)
      | 102 :: 97 :: 108 :: 115 :: 101 :: rest => Some (VBool false, rest)
      | 110 :: 117 :: 108 :: 108 :: rest => Some (VNull, rest)
      | other => parse_number other
      end
  end
with parse_elements (fuel : nat) (s : jsstring) (acc : list value) {struct fuel}
  : option (value * jsstring) :=
  match fuel with
  | O => None
  | S fuel' =>
      match parse_value fuel' s with
      | Some (v, rest) =>
          match skip_ws rest with
          | 44 :: rest' => parse_elements fuel' rest' (v :: acc)
          | 93 :: rest' => Some (VArr (rev (v :: acc)), rest')
          | _ => None
          end
      | None => None
      end
  end
with parse_members (fuel : nat) (s : jsstring) (acc : list (jsstring * value))
  {struct fuel} : option (value * jsstring) :=
  match fuel with
  | O => None
  | S fuel' =>
      match skip_ws s with
      | 34 :: rest =>
          match parse_chars rest [] with
          | Some (k, rest1) =>
              match skip_ws rest1 with
              | 58 :: rest2 =>
                  match parse_value fuel' rest2 with
                  | Some (v, rest3) =>
                      match skip_ws rest3 with
                      | 44 :: rest4 => parse_members fuel' rest4 (set_member k v acc)
                      | 125 :: rest4 => Some (VObj (set_member k v acc), rest4)
                      | _ => None
                      end
                  | None => None
                  end
              | _ => None
              end
          | None => None
          end
      | _ => None
      end
  end.

Definition JSON_parse (s : jsstring) : option value :=
  match parse_value (2 * List.length s + 2) s with
  | Some (v, rest) =>
      match skip_ws rest with
      | [] => Some v
      | _ :: _ => None
      end
  | None => None
  end.

(** [ToNumber] of a string, for decimal integers. *)
Definition StringToNumber (s : jsstring) : option Z :=
  match skip_ws s with
  | [] => Some 0
  | body =>
      let (sign, digits) :=
        match body with
        | 45 :: rest => (-1, rest)
        | 43 :: rest => (1, rest)
        | _ => (1, body)
        end in
      match digits with
      | d :: _ =>
          if is_digit d then
            let (n, rest) := parse_digits digits 0 in
            match skip_ws rest with
            | [] => Some (sign * n)
            | _ :: _ => None
            end
          else None
      | [] => None
      end
  end.

(** What [Base64.parse] and [Latin1.parse] do with an argument that is not
    a string: they read [length], and fail at the first call of a string
    method the argument does not have. *)
Fixpoint length_to_padding (elems : list value) : nat :=
  match elems with
  | [] => O
  | VStr [61] :: _ => O
  | _ :: rest => S (length_to_padding rest)
  end.

Definition Base64_parse_nonstring (v : value) : outcome bytes :=
  match v with
  | VArr elems =>
      if (length_to_padding elems <=? 1)%nat then Return [] else Throw TypeError
  | _ => Throw TypeError
  end.

Definition Latin1_parse_nonstring (v : value) : outcome bytes :=
  match v with
  | VBool _ | VNum _ => Return []
  | VArr [] => Return []
  | VObj props =>
      match lookup (lit "length") props with
      | Some (VNum n) => if 0 <? n then Throw TypeError else Return []
      | _ => Return []
      end
  | _ => Throw TypeError
  end.

Definition platform : Platform :=
  Build_Platform JSON_parse JSON_stringify StringToNumber Hex_parse
    Base64_parse Base64_parse_nonstring Base64_stringify Latin1_parse_nonstring
    HmacSHA256 AES_encrypt AES_decrypt.

End Reference.


(* ------------------------------------------------------------------ *)
(** ** Vocabulary of the statements *)

(** The wire shape of an ENCRYPTED frame. *)
Definition frame_data (iv payload : jsstring) : value :=
  VObj [(lit "iv", VStr iv); (lit "payload", VStr payload)].

Definition encrypted_frame (iv payload mac : jsstring) : value :=
  VObj [(lit "type", VStr (lit "ENCRYPTED"));
        (lit "data", frame_data iv payload);
        (lit "mac", VStr mac)].

(** The decrypted payload shapes. *)
Definition challenge_payload (sessionKey : jsstring) (initialActionId : Z) : value :=
  VObj [(lit "challenge",
         VObj [(lit "sessionKey", VStr sessionKey);
               (lit "initialActionId", VNum initialActionId)])].

Definition response_payload (type : jsstring) (id : Z)
    (more : list (jsstring * value)) : value :=
  VObj [(lit "response",
         VObj ((lit "type", VStr type) :: (lit "id", VNum id) :: more))].

(** [v.k], [undefined] where the access would throw. *)
Definition field (v : value) (k : jsstring) : value :=
  match get v k with
  | Return x => x
  | Throw _ => VUndefined
  end.

(** [frame.type != "ENCRYPTED"] *)
Definition type_differs (frame : value) : outcome bool :=
  match loose_eq_word (field frame (lit "type")) (lit "ENCRYPTED") with
  | Return b => Return (negb b)
  | Throw e => Throw e
  end.

Definition primitive (v : value) : bool :=
  match v with
  | VArr _ | VObj _ => false
  | _ => true
  end.

Definition is_latin1 (s : jsstring) : bool :=
  forallb (fun c => (0 <=? c) && (c <? 256)) s.

Definition is_crypto (e : io) : bool :=
  match e with CryptoJS _ => true | _ => false end.

Definition is_error (e : effect) : bool :=
  match e with emit (Error _) => true | _ => false end.

Definition count (p : effect -> bool) (t : trace) : nat :=
  List.length (filter p t).

Definition is_authenticated_event (e : effect) : bool :=
  match e with emit Authenticated => true | _ => false end.

(** Calls that tear the connection down or open a new one. *)
Definition is_teardown (e : effect) : bool :=
  match e with
  | ws_close | ws_terminate | new_WebSocket _ => true
  | _ => false
  end.

(** The (frame, unencrypted payload) pairs of the 'outgoingmessage' events. *)
Fixpoint outgoing (t : trace) : list (value * value) :=
  match t with
  | [] => []
  | emit (OutgoingMessage frame payload) :: rest => (frame, payload) :: outgoing rest
  | _ :: rest => outgoing rest
  end.

(** The texts handed to [ws.send]. *)
Fixpoint sent (t : trace) : list jsstring :=
  match t with
  | [] => []
  | ws_send text :: rest => text :: sent rest
  | _ :: rest => sent rest
  end.

Definition dev_of {A} (run : RemootioDevice * trace * outcome A) : RemootioDevice :=
  fst (fst run).
Definition trace_of {A} (run : RemootioDevice * trace * outcome A) : trace :=
  snd (fst run).
Definition result_of {A} (run : RemootioDevice * trace * outcome A) : outcome A :=
  snd run.

(** What no 'message' callback writes: the keys, the address, the socket,
    the reconnect flag and the ping interval. *)
Definition same_config (d d' : RemootioDevice) : Prop :=
  apiSecretKey d' = apiSecretKey d
  /\ apiAuthKey d' = apiAuthKey d
  /\ deviceIp d' = deviceIp d
  /\ websocketClient d' = websocketClient d
  /\ autoReconnect d' = autoReconnect d
  /\ sendPingMessageEveryXMs d' = sendPingMessageEveryXMs d
  /\ sendPingMessageIntervalHandle d' = sendPingMessageIntervalHandle d
  /\ pingReplyTimeoutXMs d' = pingReplyTimeoutXMs d.

(** Calls on the socket's life and on the timers, [clearTimeout] apart. *)
Definition is_lifecycle (e : effect) : bool :=
  match e with
  | ws_close | ws_terminate | new_WebSocket _
  | setInterval _ | setTimeout _ | clearInterval _ => true
  | _ => false
  end.

(** A computation that keeps the configuration, at most forgets the reply
    timeout, makes no lifecycle call, sends at most [s] texts and none on a
    socket that is not open, and raises at most [e] 'error' events when it
    returns and none when it throws. *)
Definition tame (s e : nat) {A} (c : M A) : Prop :=
  forall d,
    same_config d (dev_of (c d))
    /\ (pingReplyTimeoutHandle (dev_of (c d)) = pingReplyTimeoutHandle d
        \/ pingReplyTimeoutHandle (dev_of (c d)) = None)
    /\ count is_lifecycle (trace_of (c d)) = 0%nat
    /\ (List.length (sent (trace_of (c d))) <= s)%nat
    /\ (is_OPEN (websocketClient d) = false -> sent (trace_of (c d)) = [])
    /\ match result_of (c d) with
       | Return _ => (count is_error (trace_of (c d)) <= e)%nat
       | Throw _ => count is_error (trace_of (c d)) = 0%nat
       end.

(** The events raised, in order. *)
Fixpoint events (t : trace) : list event :=
  match t with
  | [] => []
  | emit e :: rest => e :: events rest
  | _ :: rest => events rest
  end.

(** [s] holds sixty-four hexadecimal digits in a row. *)
Definition has_hex_run (s : jsstring) : Prop :=
  exists pre run post,
    s = pre ++ run ++ post
    /\ List.length run = 64%nat
    /\ forallb is_hex_digit run = true.

(** The crypto-js calls and the warnings of a run of [apicrypto.js], in order. *)
Definition crypto_calls (t : list io) : list cryptojs_call :=
  flat_map (fun e => match e with CryptoJS c => [c] | console_warn _ => [] end) t.

Definition warnings (t : list io) : list warning :=
  flat_map (fun e => match e with console_warn w => [w] | CryptoJS _ => [] end) t.

(** The device with another API secret key. *)
Definition with_secret (ApiSecretKey : jsstring) (d : RemootioDevice)
  : RemootioDevice :=
  {| apiSecretKey := ApiSecretKey; apiAuthKey := apiAuthKey d;
     deviceIp := deviceIp d; websocketClient := websocketClient d;
     apiSessionKey := apiSessionKey d; lastActionId := lastActionId d;
     autoReconnect := autoReconnect d;
     sendPingMessageEveryXMs := sendPingMessageEveryXMs d;
     sendPingMessageIntervalHandle := sendPingMessageIntervalHandle d;
     pingReplyTimeoutXMs := pingReplyTimeoutXMs d;
     pingReplyTimeoutHandle := pingReplyTimeoutHandle d;
     waitingForAuthenticationQueryActionResponse :=
       waitingForAuthenticationQueryActionResponse d |}.

(** From a device that satisfies [Q], the computation does the same
    whatever the API secret key is. *)
Definition blind_from (Q : RemootioDevice -> Prop) {A} (c : M A) : Prop :=
  forall d, Q d ->
  forall s, c (with_secret s d)
            = (with_secret s (dev_of (c d)), trace_of (c d), result_of (c d)).

(** The start of the 'message' callback: a pending reply timeout is cleared. *)
Definition clear_reply_timer (d : RemootioDevice) : RemootioDevice * trace :=
  match pingReplyTimeoutHandle d with
  | Some h => (set_pingReplyTimeoutHandle None d, [clearTimeout h])
  | None => (d, [])
  end.

(** The device once [connect] has reset the session and made a socket. *)
Definition reconnecting (d : RemootioDevice) : RemootioDevice :=
  set_websocketClient (Some CONNECTING)
    (set_waitingForAuthenticationQueryActionResponse None
       (set_lastActionId None (set_apiSessionKey None d))).

Definition url_of (d : RemootioDevice) : jsstring :=
  lit "ws://" ++ deviceIp d ++ lit ":8080/".

(** The device once a challenge has been stored. *)
Definition challenged (sessionKey : jsstring) (initialActionId : Z)
    (d : RemootioDevice) : RemootioDevice :=
  set_waitingForAuthenticationQueryActionResponse (Some true)
    (set_lastActionId (Some initialActionId)
       (set_apiSessionKey (Some sessionKey) d)).

Section Vocabulary.
Context {P : Platform}.

(** The six action methods with the action type each sends. *)
Definition action_methods : list (jsstring * (bytes -> M unit)) :=
  [(lit "QUERY", sendQuery); (lit "TRIGGER", sendTrigger);
   (lit "TRIGGER_SECONDARY", sendTriggerSecondary); (lit "OPEN", sendOpen);
   (lit "CLOSE", sendClose); (lit "RESTART", sendRestart)].

(** The frame [sendEncryptedFrame] builds for a payload. *)
Definition frame_for (d : RemootioDevice) (unencryptedPayload : value)
    (random16 : bytes) : C value :=
  remootioApiConstructEncrypedFrame (VStr (JSON_stringify unencryptedPayload))
    (apiSecretKey d) (apiAuthKey d) (apiSessionKey d) random16.

(** The MAC the receiver computes for a frame's [data]. *)
Definition expected_mac (data : value) (ApiAuthKey : jsstring) : jsstring :=
  Base64_stringify (HmacSHA256 (JSON_stringify data) (Hex_parse ApiAuthKey)).

(** [base64mac != frame.mac] *)
Definition mac_differs (frame : value) (ApiAuthKey : jsstring) : outcome bool :=
  let base64mac := expected_mac (field frame (lit "data")) ApiAuthKey in
  loose_neq_with (StringToNumber base64mac) base64mac (field frame (lit "mac")).

Definition current_key (ApiSecretKey : jsstring) (ApiSessionKey : option jsstring)
  : bytes :=
  match ApiSessionKey with
  | None => Hex_parse ApiSecretKey
  | Some sessionKey => Base64_parse sessionKey
  end.

(** The text a wire-shaped frame decrypts to. *)
Definition plaintext_of (iv payload : jsstring) (ApiSecretKey : jsstring)
    (ApiSessionKey : option jsstring) : jsstring :=
  Latin1_stringify
    (AES_decrypt (Base64_parse payload) (current_key ApiSecretKey ApiSessionKey)
                 (Base64_parse iv)).

(** crypto-js inverts its own encodings on the data of one frame. *)
Definition inverts_at (payload sessionKey : jsstring) (random16 : bytes) : Prop :=
  let key := Base64_parse sessionKey in
  let ciphertext := AES_encrypt (Latin1_parse payload) key random16 in
  Base64_parse (Base64_stringify random16) = random16
  /\ Base64_parse (Base64_stringify ciphertext) = ciphertext
  /\ AES_decrypt ciphertext key random16 = Latin1_parse payload.

(** The three base64 strings of the frame are not empty. *)
Definition encodes_nonempty (payload ApiAuthKey sessionKey : jsstring)
    (random16 : bytes) : Prop :=
  let key := Base64_parse sessionKey in
  let ciphertext := AES_encrypt (Latin1_parse payload) key random16 in
  let iv64 := Base64_stringify random16 in
  let payload64 := Base64_stringify ciphertext in
  iv64 <> [] /\ payload64 <> []
  /\ expected_mac (frame_data iv64 payload64) ApiAuthKey <> [].

End Vocabulary.

(* ------------------------------------------------------------------ *)
(** ** Concrete keys, frames and devices

    The keys and the frame of [apicrypto.test.ts], the address of
    [index.test.ts], and the device states the callbacks are run from. *)

Definition testApiSecretKey : jsstring :=
  lit "EFD0E4BF75D49BDD4F5CD5492D55C92FE96040E9CD74BED9F19ACA2658EA0FA9".
Definition testApiAuthKey : jsstring :=
  lit "7B456E7AE95E55F714E2270983C33360514DAD96C93AE1990AFE35FD5BF00A72".
Definition testApiSessionKey : jsstring :=
  lit "yzEI7RWCjYDEwFrgc5YrmWo82kXEjFNStbtN+wFM2Qk=".
Definition testIp : jsstring := lit "192.168.0.15".

Definition test_iv : jsstring := lit "S7Mt0PR3MCADhHOPqhJPLA==".
Definition test_payload : jsstring :=
  lit "pSw+jH9iR3/nOO2+78EpQct3w+vJGKku+8ynSaYra6WsU4dHQJfMg1KNJkooVb1/WYhT28NyGznEHEKt97SYTMG15KjWcQUuqRSlpGD3JzWi/5LG+JPvIg3ptivsFrRZR3wzHAtZI6CekFujm8dhjeK/o6w+daK4FdvVh78pVigX6tBuNHEjoRQfUL9TRS9W".
Definition test_mac : jsstring := lit "cD4IpRARmeWoUjkL4Kh40uhOMbs7P9prP497qZUapwQ=".

Definition test_frame : value := encrypted_frame test_iv test_payload test_mac.

(** The payload the decryption test expects. *)
Definition test_response : value :=
  VObj [(lit "response",
         VObj [(lit "type", VStr (lit "QUERY"));
               (lit "id", VNum 808411244);
               (lit "success", VBool true);
               (lit "state", VStr (lit "no sensor"));
               (lit "t100ms", VNum 8985);
               (lit "relayTriggered", VBool false);
               (lit "errorCode", VStr [])])].

(** The same frame with the first character of its MAC changed. *)
Definition corrupted_frame : value :=
  encrypted_frame test_iv test_payload
    (lit "dD4IpRARmeWoUjkL4Kh40uhOMbs7P9prP497qZUapwQ=").

(** Sixteen bytes for the random IV. *)
Definition test_random16 : bytes := Reference.Base64_parse test_iv.

(** [JSON.stringify] of the action the encryption test sends. *)
Definition test_action_text : jsstring :=
  Reference.JSON_stringify (action (lit "QUERY") 808411243).

(** The JSON text of the one-character string U+20AC. *)
Definition euro_text : jsstring := [34; 8364; 34].

(** Frames the guard of the decryption has to judge. *)
Definition pong_frame : value := plain_frame (lit "PONG").

Definition frame_with_object_type : value :=
  VObj [(lit "type", VObj [(lit "toString", VNum 0)])].

Definition frame_with_array_type : value :=
  VObj [(lit "type", VArr [VStr (lit "ENCRYPTED")]);
        (lit "data", frame_data test_iv test_payload);
        (lit "mac", VStr test_mac)].

(** The device of the tests, as constructed, connected, and authenticated. *)
Definition fresh_device : RemootioDevice :=
  fst (constructor testIp testApiSecretKey testApiAuthKey None).

Definition connected_device : RemootioDevice :=
  dev_of (transport_open 1%nat
            (dev_of (connect false fresh_device))).

Definition authenticated_device : RemootioDevice :=
  set_waitingForAuthenticationQueryActionResponse (Some false)
    (set_lastActionId (Some 100)
       (set_apiSessionKey (Some testApiSessionKey) connected_device)).

Definition closed_device : RemootioDevice :=
  set_websocketClient (Some CLOSED) authenticated_device.

(** The authenticated device once [disconnect] has asked the socket to close. *)
Definition closing_device : RemootioDevice :=
  dev_of (disconnect authenticated_device).

(** The authenticated device with its action counter at 2^53. *)
Definition far_device : RemootioDevice :=
  set_lastActionId (Some (2 ^ 53)) authenticated_device.

(** The frame a peer builds for a payload under a key given in base64. *)
Definition peer_frame (payload : value) (key64 : jsstring) : value :=
  match snd (remootioApiConstructEncrypedFrame (P:=Reference.platform)
               (VStr (Reference.JSON_stringify payload))
               testApiSecretKey testApiAuthKey (Some key64) test_random16) with
  | Return frame => frame
  | Throw _ => VUndefined
  end.

(** The API secret key, which encrypts the challenge, in base64. *)
Definition secret_key64 : jsstring :=
  Reference.Base64_stringify (Reference.Hex_parse testApiSecretKey).

(** A challenge as the peer answers AUTH with it. *)
Definition challenge_frame : value :=
  peer_frame (challenge_payload testApiSessionKey 100) secret_key64.

(** A second challenge, sent within the session it replaces. *)
Definition rechallenge_frame : value :=
  peer_frame (challenge_payload secret_key64 7) testApiSessionKey.

(** The test device right after the challenge: its QUERY is not yet answered. *)
Definition challenged_device : RemootioDevice :=
  challenged testApiSessionKey 100 connected_device.

(** Frames of the session as the peer builds them: two QUERY responses, a
    payload that is a bare number, and an event. *)
Definition query_response_frame : value :=
  peer_frame (response_payload (lit "QUERY") 101 []) testApiSessionKey.

Definition second_response_frame : value :=
  peer_frame (response_payload (lit "QUERY") 102 []) testApiSessionKey.

Definition number_frame : value := peer_frame (VNum 5) testApiSessionKey.

Definition event_payload : value :=
  VObj [(lit "event", VObj [(lit "type", VStr (lit "StateChange"))])].

Definition event_frame : value := peer_frame event_payload testApiSessionKey.

(** A text that is not JSON, and the text of a PONG frame. *)
Definition not_json : jsstring := lit "PONG".

Definition pong_text : jsstring := Reference.JSON_stringify pong_frame.

(* ------------------------------------------------------------------ *)
(** ** Properties of [apicrypto.js] *)

Lemma str_eqb_refl (s : jsstring) : str_eqb s s = true.
Proof.
  induction s as [|c s IH]; simpl; [reflexivity|].
  now rewrite Z.eqb_refl.
Qed.

Lemma str_eqb_eq (a b : jsstring) : str_eqb a b = true <-> a = b.
Proof.
  split.
  - revert b. induction a as [|x a IH]; intros [|y b]; simpl; try discriminate.
    + reflexivity.
    + intros H. apply andb_true_iff in H. destruct H as [Hxy Hab].
      apply Z.eqb_eq in Hxy. now rewrite Hxy, (IH b Hab).
  - intros ->. apply str_eqb_refl.
Qed.

Lemma str_eqb_neq (a b : jsstring) : a <> b -> str_eqb a b = false.
Proof.
  intros H. destruct (str_eqb a b) eqn:E; [|reflexivity].
  apply str_eqb_eq in E. contradiction.
Qed.

(** The result and the log of a sequence, from those of its parts. *)
Lemma snd_bind {A B} (c : C A) (k : A -> C B) :
  snd (bind c k)
  = match snd c with
    | Return a => snd (k a)
    | Throw e => Throw e
    end.
Proof.
  destruct c as [t [a|e]]; simpl; [|reflexivity].
  now destruct (k a).
Qed.

Lemma fst_bind {A B} (c : C A) (k : A -> C B) :
  fst (bind c k)
  = fst c ++ match snd c with
             | Return a => fst (k a)
             | Throw e => []
             end.
Proof.
  destruct c as [t [a|e]]; simpl; [|now rewrite app_nil_r].
  now destruct (k a).
Qed.

Lemma snd_ret {A} (a : A) : snd (ret a : C A) = Return a.
Proof. reflexivity. Qed.

Lemma fst_ret {A} (a : A) : fst (ret a : C A) = [].
Proof. reflexivity. Qed.

Ltac c_step :=
  first [ rewrite snd_bind | rewrite fst_bind | rewrite snd_ret | rewrite fst_ret
        | progress cbn [fst snd call call_may_throw pure perform
                        CryptoJS_enc_Base64_parse CryptoJS_enc_Latin1_parse] ].

Ltac c_step_in H :=
  first [ rewrite snd_bind in H | rewrite fst_bind in H
        | rewrite snd_ret in H | rewrite fst_ret in H
        | progress cbn [fst snd call call_may_throw pure perform
                        CryptoJS_enc_Base64_parse CryptoJS_enc_Latin1_parse] in H ].

(** Case analysis on the next test the computation in [H] depends on. *)
Ltac c_case_in H :=
  match type of H with
  | context [match ?x with _ => _ end] =>
      lazymatch x with
      | context [snd _] => fail
      | context [fst _] => fail
      | _ => destruct x eqn:?
      end
  end.

Ltac c_run_in H :=
  repeat (repeat c_step_in H; try discriminate H; try c_case_in H).

Section ApicryptoProperties.
Context {P : Platform}.

Lemma frame_rejected_spec (frame : value) :
  truthy frame = false
  \/ type_differs frame = Return true
  \/ (type_differs frame = Return false
      /\ (truthy (field frame (lit "data")) = false
          \/ truthy (field frame (lit "mac")) = false
          \/ truthy (field (field frame (lit "data")) (lit "payload")) = false
          \/ truthy (field (field frame (lit "data")) (lit "iv")) = false)) ->
  frame_rejected frame = ([], Return true).
Proof.
  unfold frame_rejected, type_differs, field.
  intros [H | [H | [H1 H2]]].
  - now rewrite H.
  - destruct (truthy frame) eqn:T; [|reflexivity]. simpl.
    destruct (get frame (lit "type")) as [ty|e] eqn:G.
    + simpl in *. destruct (loose_eq_word ty (lit "ENCRYPTED")) as [[|]|]; simpl;
        try discriminate; reflexivity.
    + destruct frame; simpl in *; discriminate.
  - destruct (truthy frame) eqn:T; [|reflexivity]. simpl.
    destruct (get frame (lit "type")) as [ty|e] eqn:G;
      [|destruct frame; simpl in *; discriminate].
    simpl in *.
    destruct (loose_eq_word ty (lit "ENCRYPTED")) as [[|]|]; simpl;
      try discriminate.
    destruct (get frame (lit "data")) as [data|e] eqn:Gd;
      [|destruct frame; simpl in *; discriminate].
    simpl.
    destruct (truthy data) eqn:Td; [|reflexivity]. simpl.
    destruct (get frame (lit "mac")) as [mac|e] eqn:Gm;
      [|destruct frame; simpl in *; discriminate].
    simpl.
    destruct (truthy mac) eqn:Tm; [|reflexivity]. simpl.
    destruct (get data (lit "payload")) as [payload|e] eqn:Gp;
      [|destruct data; simpl in *; discriminate].
    simpl.
    destruct (truthy payload) eqn:Tp; [|reflexivity]. simpl.
    destruct (get data (lit "iv")) as [iv|e] eqn:Gi;
      [|destruct data; simpl in *; discriminate].
    simpl.
    destruct H2 as [H|[H|[H|H]]]; try congruence.
    now rewrite H.
Qed.


Lemma primitive_type_differs (frame : value) :
  truthy frame = true ->
  primitive (field frame (lit "type")) = true ->
  field frame (lit "type") <> VStr (lit "ENCRYPTED") ->
  type_differs frame = Return true.
Proof.
  unfold type_differs. intros _ Hp Hne.
  destruct (field frame (lit "type")) as [| | b | n | s | l | l]; simpl in *;
    try discriminate; try reflexivity.
  rewrite str_eqb_neq; [reflexivity|]. congruence.
Qed.

(** C9 (amended): an argument that is falsy, or whose [type] is a
    primitive other than the string "ENCRYPTED", or whose [type] is an
    array or object that the comparison converts and finds unequal, or
    whose [type] compares equal while [data], [mac], [data.payload] or
    [data.iv] is missing or falsy, makes the decryption return [undefined]
    without throwing and without any crypto-js call or warning. *)
Theorem decrypt_rejects_malformed_frame
    (frame : value) (secret auth : jsstring) (key : option jsstring) :
  truthy frame = false
  \/ (primitive (field frame (lit "type")) = true
      /\ field frame (lit "type") <> VStr (lit "ENCRYPTED"))
  \/ type_differs frame = Return true
  \/ (type_differs frame = Return false
      /\ (truthy (field frame (lit "data")) = false
          \/ truthy (field frame (lit "mac")) = false
          \/ truthy (field (field frame (lit "data")) (lit "payload")) = false
          \/ truthy (field (field frame (lit "data")) (lit "iv")) = false)) ->
  remootioApiDecryptEncrypedFrame frame secret auth key = ([], Return VUndefined).
Proof.
  intros H. unfold remootioApiDecryptEncrypedFrame.
  assert (H' : truthy frame = false
               \/ type_differs frame = Return true
               \/ (type_differs frame = Return false
                   /\ (truthy (field frame (lit "data")) = false
                       \/ truthy (field frame (lit "mac")) = false
                       \/ truthy (field (field frame (lit "data")) (lit "payload")) = false
                       \/ truthy (field (field frame (lit "data")) (lit "iv")) = false))).
  { destruct H as [H | [[Hp Hne] | H]]; [now left | | now right].
    destruct (truthy frame) eqn:T; [|now left].
    right. left. now apply primitive_type_differs. }
  now rewrite (frame_rejected_spec frame H').
Qed.

(** C7: without a session key the construction returns [undefined], with no
    effect and no exception, whatever the payload; with a session key and a
    string payload it returns a frame of the wire shape. *)
Theorem construct_without_session_key
    (payload : value) (secret auth : jsstring) (random16 : bytes) :
  remootioApiConstructEncrypedFrame payload secret auth None random16
  = ([], Return VUndefined)
  /\ forall (s sessionKey : jsstring),
       exists iv64 payload64 mac64,
         snd (remootioApiConstructEncrypedFrame (VStr s) secret auth
                (Some sessionKey) random16)
         = Return (encrypted_frame iv64 payload64 mac64).
Proof.
  split; [reflexivity|].
  intros s sessionKey. simpl. do 3 eexists. reflexivity.
Qed.

(** What the guard lets through. *)
Lemma frame_accepted_inv (frame : value) (t : list io) :
  frame_rejected frame = (t, Return false) ->
  t = [] /\ truthy frame = true
  /\ loose_eq_word (field frame (lit "type")) (lit "ENCRYPTED") = Return true
  /\ (exists data, get frame (lit "data") = Return data /\ truthy data = true
        /\ (exists payload, get data (lit "payload") = Return payload
                            /\ truthy payload = true)
        /\ (exists iv, get data (lit "iv") = Return iv /\ truthy iv = true))
  /\ (exists mac, get frame (lit "mac") = Return mac /\ truthy mac = true).
Proof.
  unfold frame_rejected, field.
  destruct (truthy frame) eqn:T; simpl; [|discriminate].
  destruct (get frame (lit "type")) as [ty|e] eqn:G; simpl; [|discriminate].
  destruct (loose_eq_word ty (lit "ENCRYPTED")) as [[|]|]; simpl; try discriminate.
  destruct (get frame (lit "data")) as [data|e] eqn:Gd; simpl; [|discriminate].
  destruct (truthy data) eqn:Td; simpl; [|discriminate].
  destruct (get frame (lit "mac")) as [mac|e] eqn:Gm; simpl; [|discriminate].
  destruct (truthy mac) eqn:Tm; simpl; [|discriminate].
  destruct (get data (lit "payload")) as [payload|e] eqn:Gp; simpl; [|discriminate].
  destruct (truthy payload) eqn:Tp; simpl; [|discriminate].
  destruct (get data (lit "iv")) as [iv|e] eqn:Gi; simpl; [|discriminate].
  destruct (truthy iv) eqn:Ti; simpl; [|discriminate].
  intros H. inversion H. repeat split; eauto 10.
Qed.

Lemma decrypt_defined_inv (frame : value) (secret auth : jsstring)
    (key : option jsstring) (t : list io) (v : value) :
  remootioApiDecryptEncrypedFrame frame secret auth key = (t, Return v) ->
  v <> VUndefined ->
  frame_rejected frame = ([], Return false)
  /\ mac_differs frame auth = Return false
  /\ exists payloadWordArray ivWordArray,
       JSON_parse
         (Latin1_stringify
            (AES_decrypt payloadWordArray (current_key secret key) ivWordArray))
       = Some v.
Proof.
  intros H Hv. apply (f_equal snd) in H. cbn [snd] in H.
  unfold remootioApiDecryptEncrypedFrame in H.
  rewrite snd_bind in H.
  destruct (frame_rejected frame) as [t0 [[|]|e]] eqn:R; cbn [snd] in H;
    try discriminate.
  - rewrite snd_ret in H. congruence.
  - destruct (frame_accepted_inv frame t0 R)
      as (-> & T & Ty & (data & Gd & Td & (payload & Gp & Tp) & (iv & Gi & Ti))
          & (mac & Gm & Tm)).
    split; [reflexivity|].
    unfold mac_differs, field, expected_mac. rewrite Gd, Gm.
    destruct key as [sessionKey|];
      (repeat c_step_in H; rewrite Gd in H; repeat c_step_in H;
       rewrite Gm in H; repeat c_step_in H;
       destruct (loose_neq_with _ _ mac) as [differs|e]; [|discriminate];
       repeat c_step_in H; rewrite Gp, Gi in H;
       c_run_in H; try congruence;
       split; [reflexivity|]; unfold current_key; do 2 eexists;
       inversion H; subst; eassumption).
Qed.


(** The decryption of a frame of the wire shape, as a function of its three
    strings. *)
Lemma decrypt_wire_frame (iv payload mac secret auth : jsstring)
    (key : option jsstring) :
  snd (remootioApiDecryptEncrypedFrame (encrypted_frame iv payload mac)
         secret auth key)
  = Return
      (match iv, payload, mac with
       | _ :: _, _ :: _, _ :: _ =>
           if str_eqb mac (expected_mac (frame_data iv payload) auth)
           then match JSON_parse (plaintext_of iv payload secret key) with
                | Some json => json
                | None => VUndefined
                end
           else VUndefined
       | _, _, _ => VUndefined
       end).
Proof.
  unfold remootioApiDecryptEncrypedFrame.
  rewrite snd_bind.
  destruct mac as [|m0 mac]; [destruct iv, payload; reflexivity|].
  destruct payload as [|p0 payload]; [destruct iv; reflexivity|].
  destruct iv as [|i0 iv]; [reflexivity|].
  change (snd (frame_rejected (encrypted_frame (i0 :: iv) (p0 :: payload) (m0 :: mac))))
    with (Return (A:=bool) false).
  cbv iota.
  unfold expected_mac, plaintext_of, current_key.
  set (data := frame_data (i0 :: iv) (p0 :: payload)).
  set (m := m0 :: mac).
  destruct key as [sessionKey|];
    (repeat c_step;
     change (get (encrypted_frame (i0 :: iv) (p0 :: payload) m) (lit "data"))
       with (Return data);
     repeat c_step;
     change (get (encrypted_frame (i0 :: iv) (p0 :: payload) m) (lit "mac"))
       with (Return (VStr m));
     repeat c_step;
     unfold loose_neq_with, loose_eq_with;
     destruct (str_eqb m _); cbn [negb];
     repeat c_step;
     change (get data (lit "payload")) with (Return (VStr (p0 :: payload)));
     change (get data (lit "iv")) with (Return (VStr (i0 :: iv)));
     repeat c_step;
     destruct (JSON_parse _); repeat c_step; reflexivity).
Qed.

(** C3: a payload other than [undefined] is returned only when the MAC
    comparison found the recomputed MAC equal to the declared one and
    [JSON.parse] accepted the decrypted text, whose value it is; for a frame
    of the wire shape, a MAC other than the recomputed one gives [undefined],
    a matching MAC over a text that is not JSON gives [undefined] too, and a
    matching MAC over JSON text gives the parsed payload. *)
Theorem decrypt_returns_only_verified_json
    (secret auth : jsstring) (key : option jsstring) :
  (forall frame t v,
      remootioApiDecryptEncrypedFrame frame secret auth key = (t, Return v) ->
      v <> VUndefined ->
      mac_differs frame auth = Return false
      /\ exists payloadWordArray ivWordArray,
           JSON_parse
             (Latin1_stringify
                (AES_decrypt payloadWordArray (current_key secret key)
                             ivWordArray))
           = Some v)
  /\ (forall iv payload mac,
         mac <> expected_mac (frame_data iv payload) auth ->
         snd (remootioApiDecryptEncrypedFrame (encrypted_frame iv payload mac)
                secret auth key) = Return VUndefined)
  /\ (forall iv payload mac,
         mac = expected_mac (frame_data iv payload) auth ->
         JSON_parse (plaintext_of iv payload secret key) = None ->
         snd (remootioApiDecryptEncrypedFrame (encrypted_frame iv payload mac)
                secret auth key) = Return VUndefined)
  /\ (forall iv payload mac json,
         iv <> [] -> payload <> [] -> mac <> [] ->
         mac = expected_mac (frame_data iv payload) auth ->
         JSON_parse (plaintext_of iv payload secret key) = Some json ->
         snd (remootioApiDecryptEncrypedFrame (encrypted_frame iv payload mac)
                secret auth key) = Return json).
Proof.
  repeat split.
  - now destruct (decrypt_defined_inv frame secret auth key t v H H0) as (_ & ? & _).
  - now destruct (decrypt_defined_inv frame secret auth key t v H H0) as (_ & _ & ?).
  - intros iv payload mac Hne. rewrite decrypt_wire_frame.
    rewrite (str_eqb_neq _ _ Hne). now destruct iv, payload, mac.
  - intros iv payload mac -> Hj. rewrite decrypt_wire_frame, Hj.
    destruct iv, payload; try reflexivity.
    destruct (expected_mac _ _); [reflexivity|].
    now destruct (str_eqb _ _).
  - intros iv payload mac json Hi Hp Hm -> Hj. rewrite decrypt_wire_frame, Hj.
    rewrite str_eqb_refl.
    destruct iv, payload; try congruence.
    destruct (expected_mac _ _); congruence.
Qed.

Lemma Latin1_round_trip (s : jsstring) :
  is_latin1 s = true -> Latin1_stringify (Latin1_parse s) = s.
Proof.
  unfold Latin1_stringify, Latin1_parse.
  induction s as [|c s IH]; simpl; [reflexivity|].
  intros H. apply andb_true_iff in H. destruct H as [Hc Hs].
  apply andb_true_iff in Hc. destruct Hc as [H0 H255].
  apply Z.leb_le in H0. apply Z.ltb_lt in H255.
  rewrite (IH Hs). f_equal.
  change 255 with (Z.ones 8). rewrite !Z.land_ones by lia.
  rewrite Z.mod_mod by lia. apply Z.mod_small. change (2 ^ 8) with 256. lia.
Qed.

(** C1 (amended): for a payload string of code units below 256, on keys and
    an IV where crypto-js inverts its own encodings, the frame constructed
    from the string decrypts, under the same session key and auth key, to
    what [JSON.parse] makes of the string. *)
Theorem construct_decrypt_round_trip
    (s secret secret' auth sessionKey : jsstring) (random16 : bytes) (json : value) :
  is_latin1 s = true ->
  inverts_at s sessionKey random16 ->
  encodes_nonempty s auth sessionKey random16 ->
  JSON_parse s = Some json ->
  exists frame,
    snd (remootioApiConstructEncrypedFrame (VStr s) secret auth
           (Some sessionKey) random16) = Return frame
    /\ snd (remootioApiDecryptEncrypedFrame frame secret' auth (Some sessionKey))
       = Return json.
Proof.
  intros Hl (Hiv & Hct & Haes) (Ni & Np & Nm) Hj.
  eexists. split; [reflexivity|].
  match goal with
  | |- snd (remootioApiDecryptEncrypedFrame (VObj [_; (_, VObj [(_, VStr ?i); (_, VStr ?p)]); (_, VStr ?m)]) _ _ _) = _ =>
      change (snd (remootioApiDecryptEncrypedFrame (encrypted_frame i p m)
                     secret' auth (Some sessionKey)) = Return json)
  end.
  rewrite decrypt_wire_frame.
  unfold plaintext_of, current_key. rewrite Hiv, Hct, Haes.
  rewrite (Latin1_round_trip s Hl), Hj.
  fold (frame_data (Base64_stringify random16)
          (Base64_stringify
             (AES_encrypt (Latin1_parse s) (Base64_parse sessionKey) random16))).
  fold (expected_mac
          (frame_data (Base64_stringify random16)
             (Base64_stringify
                (AES_encrypt (Latin1_parse s) (Base64_parse sessionKey) random16)))
          auth).
  rewrite str_eqb_refl.
  destruct (Base64_stringify random16); [contradiction|].
  destruct (Base64_stringify (AES_encrypt _ _ _)); [contradiction|].
  destruct (expected_mac _ _); [contradiction|].
  reflexivity.
Qed.

End ApicryptoProperties.

(* ------------------------------------------------------------------ *)
(** ** Properties of the device *)

(** Unfolds the sequencing of a method down to its next test. *)
Ltac m_unfold :=
  cbn [bind ret M_Monad];
  cbv beta iota delta [M_bind this assign log warn eval skip liftC try_catch];
  cbn [fst snd app].

(** Up to 2^53 in size an integer is a double. *)
Lemma to_double_exact (n : Z) : Z.abs n <= 2 ^ 53 -> to_double n = n.
Proof.
  intros H. unfold to_double.
  destruct (Z.abs n <? 2 ^ 53) eqn:E; [reflexivity|].
  apply Z.ltb_ge in E.
  assert (A : Z.abs n = 2 ^ 53) by lia.
  destruct (Z.abs_eq_or_opp n) as [N|N]; rewrite N in A.
  - subst n. vm_compute. reflexivity.
  - assert (n = - 2 ^ 53) by lia. subst n. vm_compute. reflexivity.
Qed.

(** The sum [id + 1] is exact for an id below 2^53 in size. *)
Lemma next_id_exact (id : Z) :
  Z.abs id < 2 ^ 53 ->
  Z.rem (to_double (id + 1)) 0x7fffffff = Z.rem (id + 1) 0x7fffffff.
Proof. intros H. rewrite to_double_exact; [reflexivity | lia]. Qed.

Section DeviceProperties.
Context {P : Platform}.

Lemma sendEncryptedFrame_open (d : RemootioDevice) (payload : value)
    (random16 : bytes) :
  isAuthenticated d = true ->
  exists frame t,
    frame_for d payload random16 = (t, Return frame)
    /\ sendEncryptedFrame payload random16 d
       = (d, map IO t ++ [ws_send (JSON_stringify frame);
                          emit (OutgoingMessage frame payload)], Return tt).
Proof.
  unfold isAuthenticated, sendEncryptedFrame, frame_for. intros H.
  destruct (is_OPEN (websocketClient d)) eqn:O; [|discriminate].
  destruct (apiSessionKey d) as [k|] eqn:K; [|discriminate].
  do 2 eexists. split; [reflexivity|].
  m_unfold. rewrite O. m_unfold. rewrite K. reflexivity.
Qed.

Lemma sendEncryptedFrame_refused (d : RemootioDevice) (payload : value)
    (random16 : bytes) :
  isAuthenticated d = false ->
  exists w, sendEncryptedFrame payload random16 d = (d, [IO (console_warn w)], Return tt).
Proof.
  unfold isAuthenticated, sendEncryptedFrame. intros H. m_unfold.
  destruct (is_OPEN (websocketClient d)) eqn:O; m_unfold.
  - destruct (apiSessionKey d) as [k|] eqn:K; [discriminate|].
    eexists. reflexivity.
  - eexists. reflexivity.
Qed.

Lemma sendAction_spec (type : jsstring) (random16 : bytes) (d : RemootioDevice) :
  match lastActionId d with
  | None => sendAction type random16 d
            = (d, [IO (console_warn LastActionIdUndefined)], Return tt)
  | Some id =>
      sendAction type random16 d
      = sendEncryptedFrame (action type (Z.rem (to_double (id + 1)) 0x7fffffff))
          random16 d
  end.
Proof.
  unfold sendAction. m_unfold.
  destruct (lastActionId d) as [id|]; [|reflexivity].
  now destruct (sendEncryptedFrame _ random16 d) as [[d' t] [[]|e]].
Qed.

(** The three ways an action method ends. *)
Lemma sendAction_cases (type : jsstring) (random16 : bytes) (d : RemootioDevice) :
  match lastActionId d with
  | None => sendAction type random16 d
            = (d, [IO (console_warn LastActionIdUndefined)], Return tt)
  | Some id =>
      let payload := action type (Z.rem (to_double (id + 1)) 0x7fffffff) in
      if isAuthenticated d
      then exists frame t,
             frame_for d payload random16 = (t, Return frame)
             /\ sendAction type random16 d
                = (d, map IO t ++ [ws_send (JSON_stringify frame);
                                   emit (OutgoingMessage frame payload)], Return tt)
      else exists w, sendAction type random16 d
                     = (d, [IO (console_warn w)], Return tt)
  end.
Proof.
  pose proof (sendAction_spec type random16 d) as S.
  destruct (lastActionId d) as [id|]; [|exact S].
  cbv zeta. rewrite S.
  destruct (isAuthenticated d) eqn:A.
  - now apply sendEncryptedFrame_open.
  - now apply sendEncryptedFrame_refused.
Qed.

(** C5 (amended): each of the six action methods, when [lastActionId] is
    undefined, sends nothing and warns; when it is defined, below 2^53 in
    size (where the sum [lastActionId + 1] is exact in doubles), and the
    socket is open with a session key, sends the encrypted frame of an
    action whose id is [(lastActionId + 1) % 0x7fffffff]; otherwise sends
    nothing and warns.  The device is left as it was, so the id of the next
    action advances only after a response has moved [lastActionId]. *)
Theorem action_methods_send_next_id
    (type : jsstring) (send : bytes -> M unit) (random16 : bytes)
    (d : RemootioDevice) :
  In (type, send) action_methods ->
  match lastActionId d with
  | None => send random16 d = (d, [IO (console_warn LastActionIdUndefined)], Return tt)
  | Some id =>
      Z.abs id < 2 ^ 53 ->
      let payload := action type (Z.rem (id + 1) 0x7fffffff) in
      if isAuthenticated d
      then exists frame t,
             frame_for d payload random16 = (t, Return frame)
             /\ send random16 d
                = (d, map IO t ++ [ws_send (JSON_stringify frame);
                                   emit (OutgoingMessage frame payload)], Return tt)
      else exists w, send random16 d = (d, [IO (console_warn w)], Return tt)
  end.
Proof.
  intros Hin.
  assert (Hs : send = sendAction type).
  { unfold action_methods in Hin. simpl in Hin.
    repeat (destruct Hin as [Hin|Hin]; [now inversion Hin|]). contradiction. }
  subst send. pose proof (sendAction_cases type random16 d) as H.
  destruct (lastActionId d) as [id|]; [|exact H].
  intros B. now rewrite next_id_exact in H.
Qed.

Lemma advance_lastActionId_spec (r : Z) (d : RemootioDevice) :
  advance_lastActionId (VNum r) d
  = match lastActionId d with
    | Some V =>
        (if (V <? r) || ((r =? 0) && (V =? 0x7fffffff))
         then set_lastActionId (Some r) d else d, [], Return tt)
    | None => (d, [IO (console_warn LastActionIdUndefined)], Return tt)
    end.
Proof.
  unfold advance_lastActionId. m_unfold.
  destruct (lastActionId d) as [V|]; [|reflexivity].
  cbn [as_number].
  now destruct ((V <? r) || ((r =? 0) && (V =? 0x7fffffff))).
Qed.

Lemma get_truthy (v : value) (k : jsstring) :
  truthy v = true -> get v k = Return (field v k).
Proof. unfold field. now destruct v. Qed.

Lemma sendQuery_returns (random16 : bytes) (d : RemootioDevice) :
  sendQuery random16 d = (d, trace_of (sendQuery random16 d), Return tt).
Proof.
  pose proof (sendAction_cases (lit "QUERY") random16 d) as H.
  fold sendQuery in H.
  destruct (lastActionId d) as [id|]; [|now rewrite H].
  cbv zeta in H. destruct (isAuthenticated d).
  - destruct H as (frame & t & _ & ->). reflexivity.
  - destruct H as (w & ->). reflexivity.
Qed.

Lemma process_challenge (sessionKey : jsstring) (n : Z) (random16 : bytes)
    (d : RemootioDevice) :
  process_payload (challenge_payload sessionKey n) random16 d
  = (challenged sessionKey n d,
     trace_of (sendQuery random16 (challenged sessionKey n d)), Return tt).
Proof.
  unfold process_payload, challenge_payload. m_unfold. simpl.
  rewrite sendQuery_returns. simpl.
  now rewrite app_nil_r.
Qed.

(** The device after a response with a numeric id. *)
Lemma process_response (type : jsstring) (id : Z) (more : list (jsstring * value))
    (random16 : bytes) (d : RemootioDevice) :
  let run := process_payload (response_payload type id more) random16 d in
  result_of run = Return tt
  /\ lastActionId (dev_of run)
     = match lastActionId d with
       | Some V =>
           if (V <? id) || ((id =? 0) && (V =? 0x7fffffff)) then Some id else Some V
       | None => None
       end
  /\ apiSessionKey (dev_of run) = apiSessionKey d
  /\ websocketClient (dev_of run) = websocketClient d
  /\ (str_eqb type (lit "QUERY") = true ->
      waitingForAuthenticationQueryActionResponse d = Some true ->
      count is_authenticated_event (trace_of run) = 1%nat
      /\ waitingForAuthenticationQueryActionResponse (dev_of run) = Some false).
Proof.
  unfold process_payload, response_payload, advance_lastActionId. m_unfold. simpl.
  destruct (lastActionId d) as [V|] eqn:L; simpl.
  - destruct ((V <? id) || ((id =? 0) && (V =? 2147483647))); simpl;
      destruct (str_eqb type (lit "QUERY")); simpl;
      destruct (waitingForAuthenticationQueryActionResponse d) as [[|]|]; simpl;
      repeat split; auto; try discriminate.
  - destruct (str_eqb type (lit "QUERY")); simpl;
      destruct (waitingForAuthenticationQueryActionResponse d) as [[|]|]; simpl;
      repeat split; auto; try discriminate.
Qed.

(** C2 (the code at the boundary): with [lastActionId] at 0x7ffffffe, the
    largest id [(lastActionId + 1) % 0x7fffffff] can produce, a response
    with id 0 leaves [lastActionId] where it was; from 0x7fffffff, which no
    sent id reaches, a response with id 0 moves it back to 0. *)
Theorem lastActionId_wraparound_boundary
    (type : jsstring) (more : list (jsstring * value)) (random16 : bytes)
    (d : RemootioDevice) :
  lastActionId
    (dev_of (process_payload (response_payload type 0 more) random16
               (set_lastActionId (Some 0x7ffffffe) d)))
  = Some 0x7ffffffe
  /\ lastActionId
       (dev_of (process_payload (response_payload type 0 more) random16
                  (set_lastActionId (Some 0x7fffffff) d)))
     = Some 0.
Proof.
  split.
  - now destruct (process_response type 0 more random16
                    (set_lastActionId (Some 0x7ffffffe) d)) as (_ & -> & _).
  - now destruct (process_response type 0 more random16
                    (set_lastActionId (Some 0x7fffffff) d)) as (_ & -> & _).
Qed.



(** The 'message' callback on an encrypted frame whose payload is defined. *)
Lemma on_message_defined (d : RemootioDevice) (data : jsstring) (rcv : value)
    (random16 : bytes) (t : list io) (v : value) :
  JSON_parse data = Some rcv ->
  remootioApiDecryptEncrypedFrame rcv (apiSecretKey d) (apiAuthKey d)
    (apiSessionKey d) = (t, Return v) ->
  is_undefined v = false ->
  let run := process_payload v random16 (fst (clear_reply_timer d)) in
  on_message data random16 d
  = (dev_of run,
     snd (clear_reply_timer d) ++ map IO t
       ++ emit (IncomingMessage rcv v) :: trace_of run
       ++ match result_of run with
          | Return _ => []
          | Throw e => [emit (Error (Caught e))]
          end,
     Return tt).
Proof.
  intros HJ HD HU.
  assert (Hv : v <> VUndefined) by (intros ->; discriminate).
  destruct (decrypt_defined_inv rcv _ _ _ t v HD Hv) as (R & _ & _).
  destruct (frame_accepted_inv rcv [] R) as (_ & T & Ty & _).
  unfold on_message, clear_reply_timer. m_unfold. rewrite HJ. m_unfold.
  destruct (pingReplyTimeoutHandle d) as [h|]; m_unfold;
    rewrite T, (get_truthy rcv _ T), Ty; m_unfold; simpl;
    rewrite HD; simpl; rewrite HU; simpl;
    destruct (process_payload v random16 _) as [[d' tr] [[]|e]]; simpl;
    rewrite ?app_nil_r, <- ?app_assoc; reflexivity.
Qed.

(** The 'message' callback on an encrypted frame that does not decrypt. *)
Lemma on_message_undefined (d : RemootioDevice) (data : jsstring) (rcv : value)
    (random16 : bytes) (t : list io) (v : value) :
  JSON_parse data = Some rcv ->
  truthy rcv = true ->
  loose_eq_word (field rcv (lit "type")) (lit "ENCRYPTED") = Return true ->
  remootioApiDecryptEncrypedFrame rcv (apiSecretKey d) (apiAuthKey d)
    (apiSessionKey d) = (t, Return v) ->
  is_undefined v = true ->
  on_message data random16 d
  = (fst (clear_reply_timer d),
     snd (clear_reply_timer d) ++ map IO t
       ++ [emit (IncomingMessage rcv v);
           emit (Error AuthenticationOrEncryptionError)],
     Return tt).
Proof.
  intros HJ T Ty HD HU.
  unfold on_message, clear_reply_timer. m_unfold. rewrite HJ. m_unfold.
  destruct (pingReplyTimeoutHandle d) as [h|]; m_unfold;
    rewrite T, (get_truthy rcv _ T), Ty; m_unfold; simpl;
    rewrite HD; simpl; rewrite HU; simpl;
    rewrite ?app_nil_r, <- ?app_assoc; reflexivity.
Qed.

Lemma count_app (p : effect -> bool) (a b : trace) :
  count p (a ++ b) = (count p a + count p b)%nat.
Proof. unfold count. now rewrite filter_app, length_app. Qed.

Lemma count_IO (p : effect -> bool) (t : list io) :
  (forall e, p (IO e) = false) -> count p (map IO t) = 0%nat.
Proof.
  intros H. unfold count. induction t as [|e t IH]; simpl; [reflexivity|].
  now rewrite H.
Qed.

Lemma sent_app (a b : trace) : sent (a ++ b) = sent a ++ sent b.
Proof.
  induction a as [|e a IH]; simpl; [reflexivity|].
  destruct e; simpl; now rewrite ?IH.
Qed.

Lemma sent_IO (t : list io) : sent (map IO t) = [].
Proof. induction t as [|e t IH]; simpl; auto. Qed.

Lemma outgoing_app (a b : trace) : outgoing (a ++ b) = outgoing a ++ outgoing b.
Proof.
  induction a as [|e a IH]; simpl; [reflexivity|].
  destruct e as [| |ev| | | | | | | |]; simpl; try assumption.
  destruct ev; simpl; now rewrite ?IH.
Qed.

Lemma outgoing_IO (t : list io) : outgoing (map IO t) = [].
Proof. induction t as [|e t IH]; simpl; auto. Qed.

Lemma count_clear_reply_timer (p : effect -> bool) (d : RemootioDevice) :
  (forall h, p (clearTimeout h) = false) ->
  count p (snd (clear_reply_timer d)) = 0%nat.
Proof.
  intros H. unfold clear_reply_timer, count.
  destruct (pingReplyTimeoutHandle d); simpl; [now rewrite H|reflexivity].
Qed.

(** C6: an inbound ENCRYPTED frame whose decryption returns [undefined]
    raises exactly one 'error' event (after 'incomingmessage' with an
    undefined payload), and leaves [apiSessionKey], [lastActionId],
    [isAuthenticated], the socket and the other session fields as they
    were; nothing closes or terminates the socket. *)
Theorem failed_decrypt_raises_one_error
    (d : RemootioDevice) (data : jsstring) (rcv : value) (random16 : bytes)
    (t : list io) :
  JSON_parse data = Some rcv ->
  truthy rcv = true ->
  loose_eq_word (field rcv (lit "type")) (lit "ENCRYPTED") = Return true ->
  remootioApiDecryptEncrypedFrame rcv (apiSecretKey d) (apiAuthKey d)
    (apiSessionKey d) = (t, Return VUndefined) ->
  let run := on_message data random16 d in
  result_of run = Return tt
  /\ count is_error (trace_of run) = 1%nat
  /\ In (emit (IncomingMessage rcv VUndefined)) (trace_of run)
  /\ count is_teardown (trace_of run) = 0%nat
  /\ sent (trace_of run) = []
  /\ apiSessionKey (dev_of run) = apiSessionKey d
  /\ lastActionId (dev_of run) = lastActionId d
  /\ isAuthenticated (dev_of run) = isAuthenticated d
  /\ websocketClient (dev_of run) = websocketClient d
  /\ waitingForAuthenticationQueryActionResponse (dev_of run)
     = waitingForAuthenticationQueryActionResponse d
  /\ autoReconnect (dev_of run) = autoReconnect d.
Proof.
  intros HJ T Ty HD. cbv zeta.
  rewrite (on_message_undefined d data rcv random16 t VUndefined HJ T Ty HD eq_refl).
  unfold result_of, trace_of, dev_of. cbn [fst snd].
  split; [reflexivity|].
  split.
  { rewrite !count_app, count_clear_reply_timer, count_IO by reflexivity.
    reflexivity. }
  split.
  { apply in_or_app. right. apply in_or_app. right. now left. }
  split.
  { rewrite !count_app, count_clear_reply_timer, count_IO by reflexivity.
    reflexivity. }
  split.
  { rewrite !sent_app, sent_IO. unfold clear_reply_timer.
    now destruct (pingReplyTimeoutHandle d). }
  unfold clear_reply_timer, isAuthenticated.
  destruct (pingReplyTimeoutHandle d); repeat split; reflexivity.
Qed.


Lemma sendQuery_trace (random16 : bytes) (d : RemootioDevice) (id : Z) :
  lastActionId d = Some id ->
  let payload := action (lit "QUERY") (Z.rem (to_double (id + 1)) 0x7fffffff) in
  if isAuthenticated d
  then exists frame t,
         frame_for d payload random16 = (t, Return frame)
         /\ trace_of (sendQuery random16 d)
            = map IO t ++ [ws_send (JSON_stringify frame);
                           emit (OutgoingMessage frame payload)]
  else exists w, trace_of (sendQuery random16 d) = [IO (console_warn w)].
Proof.
  intros L.
  pose proof (sendAction_cases (lit "QUERY") random16 d) as H.
  fold sendQuery in H.
  rewrite L in H. cbv zeta in *. destruct (isAuthenticated d).
  - destruct H as (frame & t & F & ->). now exists frame, t.
  - destruct H as (w & ->). now exists w.
Qed.

Lemma sendQuery_never_authenticates (random16 : bytes) (d : RemootioDevice) :
  count is_authenticated_event (trace_of (sendQuery random16 d)) = 0%nat.
Proof.
  pose proof (sendAction_cases (lit "QUERY") random16 d) as H.
  fold sendQuery in H.
  destruct (lastActionId d) as [id|]; [|now rewrite H].
  cbv zeta in H. destruct (isAuthenticated d).
  - destruct H as (frame & t & _ & ->). unfold trace_of. cbn [fst snd].
    now rewrite count_app, count_IO.
  - destruct H as (w & ->). reflexivity.
Qed.

(** The 'message' callback on a frame that decrypts to a challenge. *)
Lemma on_message_challenge (d : RemootioDevice) (data : jsstring) (rcv : value)
    (random16 : bytes) (t : list io) (sessionKey : jsstring) (n : Z) :
  JSON_parse data = Some rcv ->
  remootioApiDecryptEncrypedFrame rcv (apiSecretKey d) (apiAuthKey d)
    (apiSessionKey d) = (t, Return (challenge_payload sessionKey n)) ->
  let d' := challenged sessionKey n (fst (clear_reply_timer d)) in
  on_message data random16 d
  = (d',
     snd (clear_reply_timer d) ++ map IO t
       ++ emit (IncomingMessage rcv (challenge_payload sessionKey n))
          :: trace_of (sendQuery random16 d'),
     Return tt).
Proof.
  intros HJ HD. cbv zeta.
  rewrite (on_message_defined d data rcv random16 t _ HJ HD eq_refl).
  cbv zeta. rewrite process_challenge.
  unfold dev_of, trace_of, result_of. cbn [fst snd].
  now rewrite app_nil_r.
Qed.

Lemma challenged_fields (sessionKey : jsstring) (n : Z) (d : RemootioDevice) :
  let d' := challenged sessionKey n (fst (clear_reply_timer d)) in
  apiSessionKey d' = Some sessionKey
  /\ lastActionId d' = Some n
  /\ waitingForAuthenticationQueryActionResponse d' = Some true
  /\ isAuthenticated d' = isConnected d
  /\ websocketClient d' = websocketClient d.
Proof.
  unfold challenged, clear_reply_timer, isAuthenticated, isConnected.
  destruct (pingReplyTimeoutHandle d); simpl; repeat split; try reflexivity;
    now destruct (is_OPEN (websocketClient d)).
Qed.

(** The QUERY action a connected device sends once a challenge is stored. *)
Lemma challenge_query_sent (d : RemootioDevice) (random16 : bytes)
    (sessionKey : jsstring) (n : Z) (pre : trace) :
  isConnected d = true ->
  outgoing pre = [] -> sent pre = [] ->
  let d' := challenged sessionKey n (fst (clear_reply_timer d)) in
  let query := action (lit "QUERY") (Z.rem (to_double (n + 1)) 0x7fffffff) in
  exists frame tf,
    remootioApiConstructEncrypedFrame (VStr (JSON_stringify query))
      (apiSecretKey d) (apiAuthKey d) (Some sessionKey) random16
    = (tf, Return frame)
    /\ outgoing (pre ++ trace_of (sendQuery random16 d')) = [(frame, query)]
    /\ sent (pre ++ trace_of (sendQuery random16 d')) = [JSON_stringify frame].
Proof.
  intros O Op Sp. cbv zeta.
  destruct (challenged_fields sessionKey n d) as (K & L & _ & A & _).
  cbv zeta in *.
  pose proof (sendQuery_trace random16 _ n L) as Q.
  cbv zeta in Q. rewrite A, O in Q. destruct Q as (frame & tf & F & ->).
  exists frame, tf. split.
  - unfold frame_for in F. rewrite K in F.
    unfold challenged, clear_reply_timer in F.
    now destruct (pingReplyTimeoutHandle d).
  - rewrite !outgoing_app, !sent_app, !outgoing_IO, !sent_IO, Op, Sp.
    split; reflexivity.
Qed.

(** On a socket that is not open the QUERY of a challenge is dropped. *)
Lemma challenge_query_dropped (d : RemootioDevice) (random16 : bytes)
    (sessionKey : jsstring) (n : Z) (pre : trace) :
  isConnected d = false ->
  outgoing pre = [] -> sent pre = [] ->
  let d' := challenged sessionKey n (fst (clear_reply_timer d)) in
  outgoing (pre ++ trace_of (sendQuery random16 d')) = []
  /\ sent (pre ++ trace_of (sendQuery random16 d')) = []
  /\ trace_of (sendQuery random16 d') = [IO (console_warn NotConnected)].
Proof.
  intros O Op Sp. cbv zeta.
  destruct (challenged_fields sessionKey n d) as (_ & L & _ & _ & W).
  cbv zeta in *.
  assert (E : trace_of (sendQuery random16
                          (challenged sessionKey n (fst (clear_reply_timer d))))
              = [IO (console_warn NotConnected)]).
  { unfold sendQuery, sendAction, sendEncryptedFrame. m_unfold.
    rewrite L. m_unfold. rewrite W. unfold isConnected in O. now rewrite O. }
  rewrite outgoing_app, sent_app, E, Op, Sp. repeat split.
Qed.

Lemma challenge_prefix_silent (d : RemootioDevice) (t : list io) (rcv v : value) :
  let pre := snd (clear_reply_timer d) ++ map IO t ++ [emit (IncomingMessage rcv v)] in
  outgoing pre = [] /\ sent pre = []
  /\ count is_authenticated_event pre = 0%nat.
Proof.
  cbv zeta.
  rewrite !outgoing_app, !sent_app, !count_app, !outgoing_IO, !sent_IO,
    count_clear_reply_timer, count_IO by reflexivity.
  unfold clear_reply_timer.
  now destruct (pingReplyTimeoutHandle d).
Qed.

Lemma on_message_challenge_trace (d : RemootioDevice) (data : jsstring)
    (rcv : value) (random16 : bytes) (t : list io) (sessionKey : jsstring) (n : Z) :
  JSON_parse data = Some rcv ->
  remootioApiDecryptEncrypedFrame rcv (apiSecretKey d) (apiAuthKey d)
    (apiSessionKey d) = (t, Return (challenge_payload sessionKey n)) ->
  let d' := challenged sessionKey n (fst (clear_reply_timer d)) in
  on_message data random16 d
  = (d',
     (snd (clear_reply_timer d) ++ map IO t
        ++ [emit (IncomingMessage rcv (challenge_payload sessionKey n))])
     ++ trace_of (sendQuery random16 d'),
     Return tt).
Proof.
  intros HJ HD. cbv zeta.
  rewrite (on_message_challenge d data rcv random16 t sessionKey n HJ HD).
  cbv zeta. now rewrite <- !app_assoc.
Qed.

(** C10 (amended): whatever state the device is in, a frame that decrypts
    to a challenge of the declared shape (a string [sessionKey], an integer
    [initialActionId]) overwrites [apiSessionKey] and [lastActionId] with
    the challenge's values and sets the awaiting flag.  On an open socket,
    with [initialActionId] below 2^53 in size, one QUERY action with id
    [(initialActionId + 1) % 0x7fffffff] is sent under the new session key;
    on a socket that is not open nothing is sent and [sendQuery] only warns
    that the client is not connected.  Either way the next QUERY response
    raises 'authenticated' again. *)
Theorem every_challenge_resets_session
    (d : RemootioDevice) (data : jsstring) (rcv : value) (random16 : bytes)
    (t : list io) (sessionKey : jsstring) (n : Z) :
  JSON_parse data = Some rcv ->
  remootioApiDecryptEncrypedFrame rcv (apiSecretKey d) (apiAuthKey d)
    (apiSessionKey d) = (t, Return (challenge_payload sessionKey n)) ->
  let run := on_message data random16 d in
  let query := action (lit "QUERY") (Z.rem (n + 1) 0x7fffffff) in
  result_of run = Return tt
  /\ apiSessionKey (dev_of run) = Some sessionKey
  /\ lastActionId (dev_of run) = Some n
  /\ waitingForAuthenticationQueryActionResponse (dev_of run) = Some true
  /\ (isConnected d = true -> Z.abs n < 2 ^ 53 ->
      exists frame tf,
        remootioApiConstructEncrypedFrame (VStr (JSON_stringify query))
          (apiSecretKey d) (apiAuthKey d) (Some sessionKey) random16
        = (tf, Return frame)
        /\ outgoing (trace_of run) = [(frame, query)]
        /\ sent (trace_of run) = [JSON_stringify frame])
  /\ (isConnected d = false ->
      outgoing (trace_of run) = []
      /\ sent (trace_of run) = []
      /\ In (IO (console_warn NotConnected)) (trace_of run))
  /\ (forall id more random16',
         count is_authenticated_event
           (trace_of (process_payload (response_payload (lit "QUERY") id more)
                        random16' (dev_of run))) = 1%nat).
Proof.
  intros HJ HD. cbv zeta.
  rewrite (on_message_challenge_trace d data rcv random16 t sessionKey n HJ HD).
  cbv zeta. unfold result_of, dev_of. cbn [fst snd].
  destruct (challenged_fields sessionKey n d) as (K & L & W & A & S).
  destruct (challenge_prefix_silent d t rcv (challenge_payload sessionKey n))
    as (Op & Sp & _).
  cbv zeta in *.
  repeat (split; [assumption || reflexivity|]).
  split.
  - intros O B. rewrite <- (next_id_exact n B).
    exact (challenge_query_sent d random16 sessionKey n _ O Op Sp).
  - split.
    + intros O. unfold trace_of at 1 2 3. cbn [fst snd].
      destruct (challenge_query_dropped d random16 sessionKey n _ O Op Sp)
        as (E1 & E2 & E3).
      cbv zeta in *. split; [exact E1|]. split; [exact E2|].
      apply in_or_app. right. rewrite E3. now left.
    + intros id more r'.
      destruct (process_response (lit "QUERY") id more r'
                  (challenged sessionKey n (fst (clear_reply_timer d))))
        as (_ & _ & _ & _ & H).
      now destruct (H eq_refl W).
Qed.

(** C4 (amended): on a connected device, once a challenge with
    [initialActionId] 100 is processed, [lastActionId] is 100 and one QUERY
    action with id 101 has been sent; no 'authenticated' event is raised
    and the awaiting flag stays set until a QUERY response arrives, which
    raises the event once and clears the flag; [isAuthenticated], which
    reads the socket and the session key, is already true. *)
Theorem challenge_sends_query_101
    (d : RemootioDevice) (data : jsstring) (rcv : value) (random16 : bytes)
    (t : list io) (sessionKey : jsstring) :
  isConnected d = true ->
  JSON_parse data = Some rcv ->
  remootioApiDecryptEncrypedFrame rcv (apiSecretKey d) (apiAuthKey d)
    (apiSessionKey d) = (t, Return (challenge_payload sessionKey 100)) ->
  let run := on_message data random16 d in
  lastActionId (dev_of run) = Some 100
  /\ (exists frame tf,
        remootioApiConstructEncrypedFrame
          (VStr (JSON_stringify (action (lit "QUERY") 101)))
          (apiSecretKey d) (apiAuthKey d) (Some sessionKey) random16
        = (tf, Return frame)
        /\ outgoing (trace_of run) = [(frame, action (lit "QUERY") 101)]
        /\ sent (trace_of run) = [JSON_stringify frame])
  /\ count is_authenticated_event (trace_of run) = 0%nat
  /\ waitingForAuthenticationQueryActionResponse (dev_of run) = Some true
  /\ isAuthenticated (dev_of run) = true
  /\ (forall id more random16',
         let run' := process_payload (response_payload (lit "QUERY") id more)
                       random16' (dev_of run) in
         count is_authenticated_event (trace_of run') = 1%nat
         /\ waitingForAuthenticationQueryActionResponse (dev_of run') = Some false).
Proof.
  intros O HJ HD. cbv zeta.
  rewrite (on_message_challenge_trace d data rcv random16 t sessionKey 100 HJ HD).
  cbv zeta. unfold dev_of. cbn [fst snd].
  destruct (challenged_fields sessionKey 100 d) as (K & L & W & A & S).
  destruct (challenge_prefix_silent d t rcv (challenge_payload sessionKey 100))
    as (Op & Sp & Cp).
  cbv zeta in *.
  split; [assumption|].
  split.
  { exact (challenge_query_sent d random16 sessionKey 100 _ O Op Sp). }
  split.
  { unfold trace_of at 1. cbn [fst snd].
    now rewrite count_app, Cp, sendQuery_never_authenticates. }
  split; [assumption|].
  split; [now rewrite A|].
  intros id more r'.
  destruct (process_response (lit "QUERY") id more r'
              (challenged sessionKey 100 (fst (clear_reply_timer d))))
    as (_ & _ & _ & _ & H).
  exact (H eq_refl W).
Qed.

Lemma set_autoReconnect_id (b : bool) (d : RemootioDevice) :
  autoReconnect d = b -> set_autoReconnect b d = d.
Proof. destruct d; simpl. now intros ->. Qed.

Lemma connect_spec (flag : bool) (d : RemootioDevice) :
  connect flag d
  = (reconnecting (if flag then set_autoReconnect true d else d),
     [new_WebSocket (url_of d); emit Connecting], Return tt).
Proof. unfold connect. m_unfold. now destruct flag. Qed.

(** What the 'close' callback does. *)
Lemma on_close_spec (d : RemootioDevice) :
  let d1 := match sendPingMessageIntervalHandle d with
            | Some _ => set_sendPingMessageIntervalHandle None d
            | None => d
            end in
  let cleared := match sendPingMessageIntervalHandle d with
                 | Some h => [clearInterval h]
                 | None => []
                 end in
  on_close d
  = if autoReconnect d
    then (reconnecting d1,
          cleared ++ [new_WebSocket (url_of d); emit Connecting; emit Disconnect],
          Return tt)
    else (d1, cleared ++ [emit Disconnect], Return tt).
Proof.
  unfold on_close. m_unfold.
  destruct (sendPingMessageIntervalHandle d) as [h|]; m_unfold;
    cbn [autoReconnect set_sendPingMessageIntervalHandle];
    destruct (autoReconnect d) eqn:A; rewrite ?connect_spec; m_unfold;
    rewrite ?set_autoReconnect_id by exact A; reflexivity.
Qed.

(** C8 (the code with both timers running): the 'close' callback clears
    the ping interval and raises 'disconnect'; the reply timeout armed by
    the last ping is neither cleared nor forgotten. *)
Theorem close_leaves_reply_timeout_armed
    (d : RemootioDevice) (interval reply : timer) :
  let d0 := set_pingReplyTimeoutHandle (Some reply)
              (set_sendPingMessageIntervalHandle (Some interval)
                 (set_autoReconnect false d)) in
  on_close d0
  = (set_sendPingMessageIntervalHandle None d0,
     [clearInterval interval; emit Disconnect], Return tt)
  /\ pingReplyTimeoutHandle (dev_of (on_close d0)) = Some reply.
Proof.
  cbv zeta. rewrite on_close_spec. split; reflexivity.
Qed.

End DeviceProperties.

(* ------------------------------------------------------------------ *)
(** ** What a 'message' callback can and cannot do *)

Section Tame.
Context {P : Platform}.

Lemma same_config_refl (d : RemootioDevice) : same_config d d.
Proof. unfold same_config. repeat split. Qed.

Lemma same_config_trans (a b c : RemootioDevice) :
  same_config a b -> same_config b c -> same_config a c.
Proof.
  unfold same_config.
  intros (A1 & A2 & A3 & A4 & A5 & A6 & A7 & A8)
         (B1 & B2 & B3 & B4 & B5 & B6 & B7 & B8).
  repeat split; congruence.
Qed.

Lemma tame_bind {A B} (s1 s2 e : nat) (c : M A) (k : A -> M B) :
  tame s1 0 c -> (forall a, tame s2 e (k a)) -> tame (s1 + s2) e (bind c k).
Proof.
  intros Hc Hk d. specialize (Hc d).
  cbn [bind M_Monad]. unfold M_bind.
  destruct (c d) as [[d1 t1] [a|ex]]; unfold dev_of, trace_of, result_of in *;
    cbn [fst snd] in *.
  - specialize (Hk a d1).
    destruct (k a d1) as [[d2 t2] r]; unfold dev_of, trace_of, result_of in *;
      cbn [fst snd] in *.
    destruct Hc as (C1 & C2 & C3 & C4 & C6 & C5),
             Hk as (K1 & K2 & K3 & K4 & K6 & K5).
    split; [eapply same_config_trans; eassumption|].
    split; [destruct K2 as [K2|K2]; [rewrite K2; exact C2 | now right]|].
    rewrite !count_app, sent_app, length_app, C3, K3.
    split; [reflexivity|]. split; [lia|].
    split.
    + intros Hd. rewrite (C6 Hd), K6; [reflexivity|].
      destruct C1 as (_ & _ & _ & W & _). now rewrite W.
    + destruct r; lia.
  - destruct Hc as (C1 & C2 & C3 & C4 & C6 & C5).
    split; [exact C1|]. split; [exact C2|]. split; [exact C3|].
    split; [lia|]. split; [exact C6 | exact C5].
Qed.

Lemma tame_bind0 {A B} (s e : nat) (c : M A) (k : A -> M B) :
  tame 0 0 c -> (forall a, tame s e (k a)) -> tame s e (bind c k).
Proof. exact (tame_bind 0 s e c k). Qed.

Lemma tame_bind_last {A B} (s e : nat) (c : M A) (k : A -> M B) :
  tame s 0 c -> (forall a, tame 0 e (k a)) -> tame s e (bind c k).
Proof.
  intros Hc Hk. rewrite <- (Nat.add_0_r s). now apply tame_bind.
Qed.

Lemma tame_weaken {A} (s s' e e' : nat) (c : M A) :
  tame s e c -> (s <= s')%nat -> (e <= e')%nat -> tame s' e' c.
Proof.
  intros H Hs He d. destruct (H d) as (C1 & C2 & C3 & C4 & C6 & C5).
  split; [exact C1|]. split; [exact C2|]. split; [exact C3|].
  split; [lia|]. split; [exact C6|].
  destruct (result_of (c d)); lia.
Qed.

Lemma tame_ret {A} (s e : nat) (a : A) : tame s e (ret a : M A).
Proof.
  intros d. cbn. repeat split; try (now left); lia.
Qed.

Lemma tame_skip (s e : nat) : tame s e skip.
Proof. apply tame_ret. Qed.

Lemma tame_this {A} (s e : nat) (f : RemootioDevice -> A) : tame s e (this f).
Proof.
  intros d. cbn. repeat split; try (now left); lia.
Qed.

Lemma tame_eval {A} (s e : nat) (o : outcome A) : tame s e (eval o).
Proof.
  intros d. cbn. repeat split; try (now left); try lia.
  destruct o; cbn; lia.
Qed.

Lemma tame_liftC {A} (s e : nat) (c : C A) : tame s e (liftC c).
Proof.
  intros d. unfold liftC, dev_of, trace_of, result_of. cbn [fst snd].
  rewrite !count_IO, sent_IO by reflexivity.
  repeat split; try (now left); cbn; try lia.
  destruct (snd c); lia.
Qed.

Lemma tame_log (s e : nat) (ef : effect) :
  is_lifecycle ef = false -> is_error ef = false -> sent [ef] = [] ->
  tame s e (log ef).
Proof.
  intros L E S d. unfold log, dev_of, trace_of, result_of, count. cbn [fst snd].
  cbn [filter]. rewrite L, E, S.
  repeat split; try (now left); cbn; lia.
Qed.

Lemma tame_warn (s e : nat) (w : warning) : tame s e (warn w).
Proof. now apply tame_log. Qed.

Lemma tame_error (s : nat) (a : error_arg) : tame s 1 (log (emit (Error a))).
Proof.
  intros d. cbn. repeat split; try (now left); lia.
Qed.

Lemma tame_set_apiSessionKey (s e : nat) (x : option jsstring) :
  tame s e (assign (set_apiSessionKey x)).
Proof. intros d. cbn. repeat split; try (now left); lia. Qed.

Lemma tame_set_lastActionId (s e : nat) (x : option Z) :
  tame s e (assign (set_lastActionId x)).
Proof. intros d. cbn. repeat split; try (now left); lia. Qed.

Lemma tame_set_waiting (s e : nat) (x : option bool) :
  tame s e (assign (set_waitingForAuthenticationQueryActionResponse x)).
Proof. intros d. cbn. repeat split; try (now left); lia. Qed.

Lemma tame_clear_reply (s e : nat) :
  tame s e (assign (set_pingReplyTimeoutHandle None)).
Proof. intros d. cbn. repeat split; try (now right); lia. Qed.

Lemma tame_clearTimeout (s e : nat) (h : timer) : tame s e (log (clearTimeout h)).
Proof. now apply tame_log. Qed.

Lemma tame_sendAction (type : jsstring) (random16 : bytes) :
  tame 1 0 (sendAction type random16).
Proof.
  intros d. pose proof (sendAction_cases type random16 d) as H.
  destruct (lastActionId d) as [id|].
  - cbv zeta in H. destruct (isAuthenticated d) eqn:HA.
    + destruct H as (frame & t & _ & ->).
      unfold dev_of, trace_of, result_of. cbn [fst snd].
      rewrite !count_app, sent_app, !count_IO, sent_IO by reflexivity.
      repeat split; try (now left); cbn; try lia.
      intros Hd. unfold isAuthenticated in HA. now rewrite Hd in HA.
    + destruct H as (w & ->). cbn. repeat split; try (now left); lia.
  - rewrite H. cbn. repeat split; try (now left); lia.
Qed.

Ltac tame_step :=
  first
    [ apply tame_ret | apply tame_skip | apply tame_this | apply tame_eval
    | apply tame_liftC | apply tame_warn | apply tame_clearTimeout
    | apply tame_set_apiSessionKey | apply tame_set_lastActionId
    | apply tame_set_waiting | apply tame_clear_reply
    | apply tame_log; reflexivity
    | apply tame_error
    | apply tame_bind0; [ | intros ]
    | match goal with
      | |- tame _ _ (match ?x with _ => _ end) => destruct x
      end ].

Lemma tame_advance_lastActionId (s e : nat) (id : value) :
  tame s e (advance_lastActionId id).
Proof. unfold advance_lastActionId. repeat tame_step. Qed.

Lemma tame_process_payload (v : value) (random16 : bytes) :
  tame 1 0 (process_payload v random16).
Proof.
  unfold process_payload.
  apply tame_bind0; [apply tame_eval | intros isChallenge].
  apply tame_bind_last.
  - destruct isChallenge; [|apply tame_skip].
    do 6 (apply tame_bind0; [solve [repeat tame_step] | intros]).
    apply tame_sendAction.
  - intros _.
    apply tame_bind0; [apply tame_eval | intros isResponse].
    destruct isResponse; [|apply tame_skip].
    apply tame_bind0; [apply tame_eval | intros response].
    apply tame_bind0; [apply tame_eval | intros id].
    destruct (negb (is_undefined id)); [|apply tame_skip].
    apply tame_bind0; [apply tame_advance_lastActionId | intros _].
    repeat tame_step.
Qed.

Lemma tame_try_catch (s : nat) (body : M unit) (handler : exn -> M unit) :
  tame s 1 body ->
  (forall ex, tame 0 1 (handler ex)) ->
  (forall ex d, result_of (handler ex d) = Return tt) ->
  tame s 1 (try_catch body handler)
  /\ forall d, result_of (try_catch body handler d) = Return tt.
Proof.
  intros Hb Hh Hr. split.
  - intros d. specialize (Hb d). unfold try_catch.
    destruct (body d) as [[d1 t1] [[]|ex]]; unfold dev_of, trace_of, result_of in *;
      cbn [fst snd] in *; [exact Hb|].
    specialize (Hh ex d1). specialize (Hr ex d1).
    destruct (handler ex d1) as [[d2 t2] r]; unfold dev_of, trace_of, result_of in *;
      cbn [fst snd] in *. subst r.
    destruct Hb as (C1 & C2 & C3 & C4 & C6 & C5),
             Hh as (K1 & K2 & K3 & K4 & K6 & K5).
    split; [eapply same_config_trans; eassumption|].
    split; [destruct K2 as [K2|K2]; [rewrite K2; exact C2 | now right]|].
    assert (Z0 : sent t2 = []) by (destruct (sent t2); [reflexivity | simpl in K4; lia]).
    rewrite !count_app, sent_app, Z0, app_nil_r, C3, K3, C5.
    split; [reflexivity|]. split; [exact C4|]. split; [exact C6 | lia].
  - intros d. unfold try_catch.
    destruct (body d) as [[d1 t1] [[]|ex]]; [reflexivity|].
    specialize (Hr ex d1).
    destruct (handler ex d1) as [[d2 t2] r]. exact Hr.
Qed.

Lemma on_message_tame (data : jsstring) (random16 : bytes) :
  tame 1 1 (on_message data random16)
  /\ forall d, result_of (on_message data random16 d) = Return tt.
Proof.
  unfold on_message. apply tame_try_catch.
  - apply tame_bind0; [destruct (JSON_parse data); repeat tame_step | intros rcv].
    apply tame_bind0; [apply tame_this | intros pending].
    apply tame_bind0; [destruct pending; repeat tame_step | intros _].
    apply tame_bind0; [destruct (truthy rcv); repeat tame_step | intros isEncrypted].
    destruct isEncrypted; [|repeat tame_step].
    do 3 (apply tame_bind0; [apply tame_this | intros]).
    apply tame_bind0; [apply tame_liftC | intros v].
    apply tame_bind0; [repeat tame_step | intros _].
    destruct (negb (is_undefined v)); [|apply tame_error].
    apply (tame_weaken 1 1 0 1); [apply tame_process_payload | lia | lia].
  - intros ex. apply tame_error.
  - reflexivity.
Qed.

(** X1: whatever arrives, the 'message' callback lets no exception of its
    own escape (events are recorded here; what a listener does with one is
    not part of the callback), leaves the keys, the address, the socket, the
    reconnect flag and the ping interval as they were, makes no call that
    closes, terminates or opens a socket or arms a timer, sends at most one
    text and raises at most one 'error' event. *)
Theorem message_callback_is_contained
    (data : jsstring) (random16 : bytes) (d : RemootioDevice) :
  let run := on_message data random16 d in
  result_of run = Return tt
  /\ same_config d (dev_of run)
  /\ count is_lifecycle (trace_of run) = 0%nat
  /\ (List.length (sent (trace_of run)) <= 1)%nat
  /\ (count is_error (trace_of run) <= 1)%nat.
Proof.
  cbv zeta. destruct (on_message_tame data random16) as [T R].
  destruct (T d) as (C1 & _ & C3 & C4 & _ & C5). rewrite (R d) in C5.
  split; [apply R|]. split; [exact C1|]. split; [exact C3|].
  split; [exact C4 | exact C5].
Qed.

(* ------------------------------------------------------------------ *)
(** ** The life of a connection *)

Lemma events_app (a b : trace) : events (a ++ b) = events a ++ events b.
Proof.
  induction a as [|e a IH]; [reflexivity|].
  destruct e as [| |ev| | | | | | | |]; cbn; now rewrite ?IH.
Qed.

Lemma events_IO (t : list io) : events (map IO t) = [].
Proof. induction t as [|e t IH]; cbn; auto. Qed.

Lemma transport_close_spec (d : RemootioDevice) :
  transport_close d = on_close (set_websocketClient (Some CLOSED) d).
Proof.
  unfold transport_close. m_unfold.
  now destruct (on_close _) as [[d2 t2] r].
Qed.

(** X3: [connect] can switch automatic reconnection on but never off: the
    flag after the call is the old flag or the argument, so once
    [connect(true)] has run, a later [connect] with any argument leaves a
    device that answers the next 'close' with a new socket, raising
    'connecting' before 'disconnect'. *)
Theorem connect_never_disables_reconnect (flag : bool) (d : RemootioDevice) :
  let d2 := dev_of (connect flag (dev_of (connect true d))) in
  let close := transport_close d2 in
  autoReconnect (dev_of (connect flag d)) = (autoReconnect d || flag)%bool
  /\ autoReconnect d2 = true
  /\ In (new_WebSocket (url_of d)) (trace_of close)
  /\ events (trace_of close) = [Connecting; Disconnect]
  /\ websocketClient (dev_of close) = Some CONNECTING
  /\ autoReconnect (dev_of close) = true.
Proof.
  cbv zeta. rewrite transport_close_spec, on_close_spec, !connect_spec.
  unfold dev_of, trace_of. cbn [fst snd].
  split; [destruct flag; cbn; destruct (autoReconnect d); reflexivity|].
  destruct flag; cbn [autoReconnect reconnecting set_websocketClient
    set_waitingForAuthenticationQueryActionResponse set_lastActionId
    set_apiSessionKey set_autoReconnect sendPingMessageIntervalHandle fst snd];
    (destruct (sendPingMessageIntervalHandle d);
     cbn; repeat split; auto).
Qed.

(** X4: on a device that holds a socket, [disconnect] closes it and
    switches automatic reconnection off, so the 'close' that follows raises
    'disconnect' alone and opens no socket; the device is then neither
    connected nor authenticated, while the session key and the action
    counter stay as they were.  Without a socket [disconnect] does nothing. *)
Theorem disconnect_is_final (d : RemootioDevice) (st : readyState) :
  websocketClient d = Some st ->
  let stop := disconnect d in
  let close := transport_close (dev_of stop) in
  trace_of stop = [ws_close]
  /\ events (trace_of close) = [Disconnect]
  /\ count is_teardown (trace_of close) = 0%nat
  /\ autoReconnect (dev_of close) = false
  /\ isConnected (dev_of close) = false
  /\ isAuthenticated (dev_of close) = false
  /\ sendPingMessageIntervalHandle (dev_of close) = None
  /\ apiSessionKey (dev_of close) = apiSessionKey d
  /\ lastActionId (dev_of close) = lastActionId d
  /\ (forall d', websocketClient d' = None -> disconnect d' = (d', [], Return tt)).
Proof.
  intros W. cbv zeta.
  assert (N : forall d', websocketClient d' = None -> disconnect d' = (d', [], Return tt))
    by (intros d' W'; unfold disconnect; m_unfold; now rewrite W').
  rewrite transport_close_spec, on_close_spec.
  unfold disconnect. m_unfold. rewrite W. m_unfold.
  unfold dev_of, trace_of. cbn [fst snd].
  cbn [autoReconnect set_websocketClient set_autoReconnect
       sendPingMessageIntervalHandle].
  destruct (sendPingMessageIntervalHandle d) eqn:E; cbn;
    (do 9 (split; [first [reflexivity | exact E]|])); exact N.
Qed.

(** X5: when the reply to a ping does not come, the timeout raises one
    'error', terminates the socket and forgets its own handle; the 'close'
    that follows reconnects when automatic reconnection is on, with the
    session reset, and only raises 'disconnect' when it is off.  Either way
    the device is no longer authenticated. *)
Theorem missed_ping_reply_ends_the_connection (d : RemootioDevice) (st : readyState) :
  websocketClient d = Some st ->
  let timeout := on_ping_reply_timeout d in
  let close := transport_close (dev_of timeout) in
  trace_of timeout
  = [emit (Error (NoResponseForPing (pingReplyTimeoutXMs d))); ws_terminate]
  /\ pingReplyTimeoutHandle (dev_of timeout) = None
  /\ events (trace_of close)
     = (if autoReconnect d then [Connecting; Disconnect] else [Disconnect])
  /\ count is_teardown (trace_of close) = (if autoReconnect d then 1 else 0)%nat
  /\ websocketClient (dev_of close)
     = Some (if autoReconnect d then CONNECTING else CLOSED)
  /\ isAuthenticated (dev_of close) = false
  /\ (autoReconnect d = true ->
      apiSessionKey (dev_of close) = None /\ lastActionId (dev_of close) = None).
Proof.
  intros W. cbv zeta. rewrite transport_close_spec, on_close_spec.
  unfold on_ping_reply_timeout. m_unfold. rewrite W. m_unfold.
  unfold dev_of, trace_of. cbn [fst snd].
  cbn [autoReconnect set_websocketClient set_pingReplyTimeoutHandle
       sendPingMessageIntervalHandle].
  destruct (autoReconnect d), (sendPingMessageIntervalHandle d); cbn;
    (do 6 (split; [reflexivity|]));
    intros H; first [discriminate H | split; reflexivity].
Qed.

(* ------------------------------------------------------------------ *)
(** ** Messages by kind *)

Lemma on_message_shape (data : jsstring) (random16 : bytes) :
  exists rest : value -> M unit,
    (forall rcv, tame 1 1 (rest rcv))
    /\ on_message data random16
       = try_catch
           (rcvMsgJson <-
              match JSON_parse data with
              | Some json => ret json
              | None => eval (Throw SyntaxError)
              end ;;
            pending <- this pingReplyTimeoutHandle ;;
            match pending with
            | Some h =>
                log (clearTimeout h) ;; assign (set_pingReplyTimeoutHandle None)
            | None => skip
            end ;;
            rest rcvMsgJson)
           (fun e => log (emit (Error (Caught e)))).
Proof.
  eexists. split; [|unfold on_message; reflexivity].
  intros rcv. cbv beta.
  apply tame_bind0; [destruct (truthy rcv); repeat tame_step | intros isEncrypted].
  destruct isEncrypted; [|repeat tame_step].
  do 3 (apply tame_bind0; [apply tame_this | intros]).
  apply tame_bind0; [apply tame_liftC | intros v].
  apply tame_bind0; [repeat tame_step | intros _].
  destruct (negb (is_undefined v)); [|apply tame_error].
  apply (tame_weaken 1 1 0 1); [apply tame_process_payload | lia | lia].
Qed.

Lemma on_message_parsed_clears (d : RemootioDevice) (data : jsstring)
    (rcv : value) (random16 : bytes) :
  JSON_parse data = Some rcv ->
  pingReplyTimeoutHandle (dev_of (on_message data random16 d)) = None
  /\ forall h, pingReplyTimeoutHandle d = Some h ->
       exists rest, trace_of (on_message data random16 d) = clearTimeout h :: rest.
Proof.
  intros HJ. destruct (on_message_shape data random16) as (rest & T & ->).
  rewrite HJ. m_unfold.
  destruct (pingReplyTimeoutHandle d) as [h|] eqn:E; m_unfold.
  - specialize (T rcv (set_pingReplyTimeoutHandle None d)).
    destruct (rest rcv _) as [[d2 t2] [[]|ex]];
      unfold dev_of, trace_of in *; cbn [fst snd app] in *;
      destruct T as (_ & [T|T] & _);
      (split; [exact T | intros h' [= <-]; eexists; reflexivity]).
  - specialize (T rcv d).
    destruct (rest rcv d) as [[d2 t2] [[]|ex]];
      unfold dev_of, trace_of in *; cbn [fst snd app] in *;
      destruct T as (_ & [T|T] & _);
      (split; [congruence | intros h' [=]]).
Qed.

(** X6: the interval callback on an open socket arms the reply timeout and
    sends PING; any message that parses as JSON then clears that timeout,
    whatever the message is. *)
Theorem any_parsed_message_clears_the_ping_timeout
    (d : RemootioDevice) (h : timer) (data : jsstring) (rcv : value)
    (random16 : bytes) :
  isConnected d = true ->
  JSON_parse data = Some rcv ->
  let ping := on_ping_interval h d in
  let reply := on_message data random16 (dev_of ping) in
  trace_of ping
  = [setTimeout h; ws_send (JSON_stringify (plain_frame (lit "PING")));
     emit (OutgoingMessage (plain_frame (lit "PING")) VUndefined)]
  /\ pingReplyTimeoutHandle (dev_of ping) = Some h
  /\ (exists rest, trace_of reply = clearTimeout h :: rest)
  /\ pingReplyTimeoutHandle (dev_of reply) = None.
Proof.
  intros HC HJ. cbv zeta. unfold isConnected in HC.
  assert (E : on_ping_interval h d
              = (set_pingReplyTimeoutHandle (Some h) d,
                 [setTimeout h; ws_send (JSON_stringify (plain_frame (lit "PING")));
                  emit (OutgoingMessage (plain_frame (lit "PING")) VUndefined)],
                 Return tt)).
  { unfold on_ping_interval, sendPing, sendFrame. m_unfold. rewrite HC. m_unfold.
    cbn [websocketClient set_pingReplyTimeoutHandle]. rewrite HC. reflexivity. }
  rewrite E. unfold dev_of at 2 4, trace_of at 1. cbn [fst snd].
  destruct (on_message_parsed_clears (set_pingReplyTimeoutHandle (Some h) d)
              data rcv random16 HJ) as (N & C).
  repeat split; [apply C; reflexivity | exact N].
Qed.

(** X7: a message that is not JSON raises one 'error' that carries the
    SyntaxError and does nothing else: no 'incomingmessage', nothing sent,
    and the device as it was, a pending ping reply timeout included. *)
Theorem non_json_message_only_raises_an_error
    (d : RemootioDevice) (data : jsstring) (random16 : bytes) :
  JSON_parse data = None ->
  on_message data random16 d = (d, [emit (Error (Caught SyntaxError))], Return tt).
Proof.
  intros HJ. unfold on_message. m_unfold. rewrite HJ. reflexivity.
Qed.

(** The 'message' callback on a frame that is not of type ENCRYPTED. *)
Lemma on_message_not_encrypted (d : RemootioDevice) (data : jsstring)
    (rcv : value) (random16 : bytes) :
  JSON_parse data = Some rcv ->
  truthy rcv = false
  \/ loose_eq_word (field rcv (lit "type")) (lit "ENCRYPTED") = Return false ->
  on_message data random16 d
  = (fst (clear_reply_timer d),
     snd (clear_reply_timer d) ++ [emit (IncomingMessage rcv VUndefined)],
     Return tt).
Proof.
  intros HJ H.
  unfold on_message, clear_reply_timer. m_unfold. rewrite HJ. m_unfold.
  destruct (truthy rcv) eqn:T.
  - destruct H as [H|H]; [discriminate H|].
    destruct (pingReplyTimeoutHandle d); m_unfold;
      rewrite (get_truthy rcv _ T), H; reflexivity.
  - destruct (pingReplyTimeoutHandle d); reflexivity.
Qed.

(** The 'message' callback on a frame whose type cannot be compared. *)
Lemma on_message_type_throws (d : RemootioDevice) (data : jsstring)
    (rcv : value) (random16 : bytes) (e : exn) :
  JSON_parse data = Some rcv ->
  loose_eq_word (field rcv (lit "type")) (lit "ENCRYPTED") = Throw e ->
  on_message data random16 d
  = (fst (clear_reply_timer d),
     snd (clear_reply_timer d) ++ [emit (Error (Caught e))],
     Return tt).
Proof.
  intros HJ H.
  assert (T : truthy rcv = true).
  { destruct rcv as [| |b|n|s|l|l]; try reflexivity; discriminate H. }
  unfold on_message, clear_reply_timer. m_unfold. rewrite HJ. m_unfold.
  destruct (pingReplyTimeoutHandle d); m_unfold;
    rewrite T, (get_truthy rcv _ T), H; reflexivity.
Qed.

(** X8: a frame whose [type] is not ENCRYPTED is handed to the listeners as
    it is, with an undefined payload: no call reaches crypto-js and only a
    pending reply timeout changes.  A [type] that cannot be compared raises
    an 'error' instead of 'incomingmessage'. *)
Theorem plain_frame_is_handed_on
    (d : RemootioDevice) (data : jsstring) (rcv : value) (random16 : bytes) :
  JSON_parse data = Some rcv ->
  (truthy rcv = false
   \/ loose_eq_word (field rcv (lit "type")) (lit "ENCRYPTED") = Return false ->
   on_message data random16 d
   = (fst (clear_reply_timer d),
      snd (clear_reply_timer d) ++ [emit (IncomingMessage rcv VUndefined)],
      Return tt))
  /\ (forall e,
        loose_eq_word (field rcv (lit "type")) (lit "ENCRYPTED") = Throw e ->
        on_message data random16 d
        = (fst (clear_reply_timer d),
           snd (clear_reply_timer d) ++ [emit (Error (Caught e))],
           Return tt)).
Proof.
  intros HJ. split.
  - now apply on_message_not_encrypted.
  - intros e. now apply on_message_type_throws.
Qed.

Lemma action_method_is_sendAction (type : jsstring) (send : bytes -> M unit) :
  In (type, send) action_methods -> send = sendAction type.
Proof.
  unfold action_methods.
  intros [H|[H|[H|[H|[H|[H|[]]]]]]]; now inversion H.
Qed.

(** X9: nothing goes out on a socket that is not open: [sendFrame] and
    [sendEncryptedFrame], the six action methods, the 'message' callback
    (whose challenge branch calls [sendQuery]) and the interval callback
    of the ping all send no text when [isConnected] is false. *)
Theorem nothing_is_sent_unless_open
    (d : RemootioDevice) (frame payload : value) (data : jsstring)
    (random16 : bytes) (h : timer) :
  isConnected d = false ->
  trace_of (sendFrame frame d) = [IO (console_warn NotConnected)]
  /\ trace_of (sendEncryptedFrame payload random16 d) = [IO (console_warn NotConnected)]
  /\ (forall type send, In (type, send) action_methods ->
        sent (trace_of (send random16 d)) = [])
  /\ sent (trace_of (on_message data random16 d)) = []
  /\ on_ping_interval h d = (d, [], Return tt).
Proof.
  intros HC. unfold isConnected in HC.
  split; [unfold sendFrame; m_unfold; now rewrite HC|].
  split; [unfold sendEncryptedFrame; m_unfold; now rewrite HC|].
  split.
  { intros type send HI. rewrite (action_method_is_sendAction type send HI).
    now apply (tame_sendAction type random16 d). }
  split.
  { destruct (on_message_tame data random16) as [T _]. now apply (T d). }
  unfold on_ping_interval. m_unfold. now rewrite HC.
Qed.

(** What a decrypted response does, in full. *)
Lemma process_response_run (type : jsstring) (id : Z)
    (more : list (jsstring * value)) (random16 : bytes) (d : RemootioDevice) :
  let d1 := match lastActionId d with
            | Some V =>
                if (V <? id) || ((id =? 0) && (V =? 0x7fffffff))
                then set_lastActionId (Some id) d else d
            | None => d
            end in
  let hit := (str_eqb type (lit "QUERY")
              && match waitingForAuthenticationQueryActionResponse d with
                 | Some true => true
                 | _ => false
                 end)%bool in
  process_payload (response_payload type id more) random16 d
  = (if hit
     then set_waitingForAuthenticationQueryActionResponse (Some false) d1
     else d1,
     match lastActionId d with
     | Some _ => []
     | None => [IO (console_warn LastActionIdUndefined)]
     end ++ (if hit then [emit Authenticated] else []),
     Return tt).
Proof.
  unfold process_payload, response_payload, advance_lastActionId. m_unfold. simpl.
  destruct (lastActionId d) as [V|] eqn:L; simpl.
  - destruct ((V <? id) || ((id =? 0) && (V =? 2147483647))); simpl;
      destruct (str_eqb type (lit "QUERY")); simpl;
      destruct (waitingForAuthenticationQueryActionResponse d) as [[|]|]; simpl;
      reflexivity.
  - destruct (str_eqb type (lit "QUERY")); simpl;
      destruct (waitingForAuthenticationQueryActionResponse d) as [[|]|]; simpl;
      reflexivity.
Qed.

Lemma events_clear_reply_timer (d : RemootioDevice) :
  events (snd (clear_reply_timer d)) = [].
Proof. unfold clear_reply_timer. now destruct (pingReplyTimeoutHandle d). Qed.

Lemma on_message_response (d : RemootioDevice) (data : jsstring) (rcv : value)
    (random16 : bytes) (t : list io) (type : jsstring) (id : Z)
    (more : list (jsstring * value)) :
  JSON_parse data = Some rcv ->
  remootioApiDecryptEncrypedFrame rcv (apiSecretKey d) (apiAuthKey d)
    (apiSessionKey d) = (t, Return (response_payload type id more)) ->
  let run := on_message data random16 d in
  let hit := (str_eqb type (lit "QUERY")
              && match waitingForAuthenticationQueryActionResponse d with
                 | Some true => true
                 | _ => false
                 end)%bool in
  events (trace_of run)
  = IncomingMessage rcv (response_payload type id more)
      :: (if hit then [Authenticated] else [])
  /\ waitingForAuthenticationQueryActionResponse (dev_of run)
     = (if hit then Some false
        else waitingForAuthenticationQueryActionResponse d)
  /\ lastActionId (dev_of run)
     = match lastActionId d with
       | Some V =>
           Some (if (V <? id) || ((id =? 0) && (V =? 0x7fffffff)) then id else V)
       | None => None
       end
  /\ apiSecretKey (dev_of run) = apiSecretKey d
  /\ apiAuthKey (dev_of run) = apiAuthKey d
  /\ apiSessionKey (dev_of run) = apiSessionKey d
  /\ websocketClient (dev_of run) = websocketClient d.
Proof.
  intros HJ HD. cbv zeta.
  rewrite (on_message_defined d data rcv random16 t _ HJ HD eq_refl).
  rewrite process_response_run.
  unfold dev_of, trace_of, result_of. cbn [fst snd].
  rewrite !events_app, events_clear_reply_timer, events_IO.
  unfold clear_reply_timer.
  destruct (pingReplyTimeoutHandle d); cbn [fst snd];
    cbn [waitingForAuthenticationQueryActionResponse lastActionId
         set_pingReplyTimeoutHandle];
    (destruct (str_eqb type (lit "QUERY"));
     destruct (waitingForAuthenticationQueryActionResponse d) as [[|]|] eqn:EW;
     destruct (lastActionId d) as [V|] eqn:EL;
     try destruct ((V <? id) || ((id =? 0) && (V =? 2147483647)));
     cbn; rewrite ?EW, ?EL; repeat split; reflexivity).
Qed.

(** X10: 'authenticated' is raised once per challenge: while the device
    waits for the answer to its QUERY, a response of type QUERY raises the
    event and ends the wait, a response of another type does neither, and
    the response that follows a QUERY response raises nothing. *)
Theorem authenticated_is_raised_once
    (d : RemootioDevice) (data1 data2 : jsstring) (rcv1 rcv2 : value)
    (random1 random2 : bytes) (t1 t2 : list io) (type1 type2 : jsstring)
    (id1 id2 : Z) (more1 more2 : list (jsstring * value)) :
  waitingForAuthenticationQueryActionResponse d = Some true ->
  JSON_parse data1 = Some rcv1 ->
  remootioApiDecryptEncrypedFrame rcv1 (apiSecretKey d) (apiAuthKey d)
    (apiSessionKey d) = (t1, Return (response_payload type1 id1 more1)) ->
  JSON_parse data2 = Some rcv2 ->
  remootioApiDecryptEncrypedFrame rcv2 (apiSecretKey d) (apiAuthKey d)
    (apiSessionKey d) = (t2, Return (response_payload type2 id2 more2)) ->
  let run1 := on_message data1 random1 d in
  let run2 := on_message data2 random2 (dev_of run1) in
  events (trace_of run1)
  = IncomingMessage rcv1 (response_payload type1 id1 more1)
      :: (if str_eqb type1 (lit "QUERY") then [Authenticated] else [])
  /\ waitingForAuthenticationQueryActionResponse (dev_of run1)
     = Some (negb (str_eqb type1 (lit "QUERY")))
  /\ events (trace_of run2)
     = IncomingMessage rcv2 (response_payload type2 id2 more2)
         :: (if negb (str_eqb type1 (lit "QUERY")) && str_eqb type2 (lit "QUERY")
             then [Authenticated] else []).
Proof.
  intros HW HJ1 HD1 HJ2 HD2. cbv zeta.
  destruct (on_message_response d data1 rcv1 random1 t1 type1 id1 more1 HJ1 HD1)
    as (E1 & W1 & _ & S1 & A1 & K1 & _).
  rewrite HW in E1, W1.
  rewrite <- S1, <- A1, <- K1 in HD2.
  destruct (on_message_response _ data2 rcv2 random2 t2 type2 id2 more2 HJ2 HD2)
    as (E2 & _).
  rewrite E1, E2, W1.
  destruct (str_eqb type1 (lit "QUERY")), (str_eqb type2 (lit "QUERY"));
    repeat split; reflexivity.
Qed.

Lemma process_primitive (v : value) (random16 : bytes) (d : RemootioDevice) :
  primitive v = true ->
  process_payload v random16 d = (d, [], Throw TypeError).
Proof.
  intros HP. unfold process_payload. m_unfold.
  destruct v; try discriminate HP; reflexivity.
Qed.

(** X11: an encrypted frame that verifies and decrypts to a JSON boolean,
    number or string raises 'incomingmessage' with that payload and then
    one 'error' carrying the TypeError of ['challenge' in payload]; nothing
    is sent and the session is untouched. *)
Theorem primitive_payload_raises_a_type_error
    (d : RemootioDevice) (data : jsstring) (rcv : value) (random16 : bytes)
    (t : list io) (v : value) :
  JSON_parse data = Some rcv ->
  remootioApiDecryptEncrypedFrame rcv (apiSecretKey d) (apiAuthKey d)
    (apiSessionKey d) = (t, Return v) ->
  primitive v = true ->
  is_undefined v = false ->
  on_message data random16 d
  = (fst (clear_reply_timer d),
     snd (clear_reply_timer d) ++ map IO t
       ++ [emit (IncomingMessage rcv v); emit (Error (Caught TypeError))],
     Return tt).
Proof.
  intros HJ HD HP HU.
  rewrite (on_message_defined d data rcv random16 t v HJ HD HU).
  now rewrite (process_primitive v random16 _ HP).
Qed.

(** X12: an encrypted frame that verifies and decrypts to an object or
    array with neither a [challenge] nor a [response] key, as the frames
    that carry events do, raises 'incomingmessage' with the payload and
    changes nothing but a pending reply timeout. *)
Theorem event_payload_is_only_reported
    (d : RemootioDevice) (data : jsstring) (rcv : value) (random16 : bytes)
    (t : list io) (v : value) :
  JSON_parse data = Some rcv ->
  remootioApiDecryptEncrypedFrame rcv (apiSecretKey d) (apiAuthKey d)
    (apiSessionKey d) = (t, Return v) ->
  has (lit "challenge") v = Return false ->
  has (lit "response") v = Return false ->
  on_message data random16 d
  = (fst (clear_reply_timer d),
     snd (clear_reply_timer d) ++ map IO t ++ [emit (IncomingMessage rcv v)],
     Return tt).
Proof.
  intros HJ HD HC HR.
  assert (HU : is_undefined v = false) by (destruct v; try reflexivity; discriminate HC).
  rewrite (on_message_defined d data rcv random16 t v HJ HD HU).
  assert (E : forall d', process_payload v random16 d' = (d', [], Return tt)).
  { intros d'. unfold process_payload. m_unfold. rewrite HC. m_unfold.
    rewrite HR. reflexivity. }
  now rewrite E.
Qed.

(* ------------------------------------------------------------------ *)
(** ** The handshake *)

Lemma dev_of_run {A} (d : RemootioDevice) (t : trace) (r : outcome A) :
  dev_of (d, t, r) = d.
Proof. reflexivity. Qed.

Lemma trace_of_run {A} (d : RemootioDevice) (t : trace) (r : outcome A) :
  trace_of (d, t, r) = t.
Proof. reflexivity. Qed.

Lemma transport_open_spec (h : timer) (d : RemootioDevice) :
  transport_open h d
  = (set_sendPingMessageIntervalHandle (Some h) (set_websocketClient (Some OPEN) d),
     [emit Connected; setInterval h], Return tt).
Proof. reflexivity. Qed.

Lemma challenged_keys (sessionKey : jsstring) (n : Z) (d : RemootioDevice) :
  let d' := challenged sessionKey n (fst (clear_reply_timer d)) in
  apiSecretKey d' = apiSecretKey d /\ apiAuthKey d' = apiAuthKey d
  /\ pingReplyTimeoutHandle d' = None.
Proof.
  unfold challenged, clear_reply_timer.
  now destruct (pingReplyTimeoutHandle d) eqn:E.
Qed.

(** X13: the whole handshake.  From any device, [connect], the socket's
    'open', [authenticate], a challenge that decrypts under the API secret
    key, with an [initialActionId] below 2^53 in size, and a QUERY response
    that decrypts under the challenge's session key raise 'connecting',
    'connected', the outgoing AUTH, the incoming challenge, the outgoing
    QUERY with id [(initialActionId + 1) % 0x7fffffff], the incoming
    response and 'authenticated', in that order, and leave the device
    authenticated under the session key of the challenge. *)
Theorem handshake_ends_authenticated
    (d0 : RemootioDevice) (flag : bool) (h : timer)
    (data1 data2 : jsstring) (rcv1 rcv2 : value) (t1 t2 : list io)
    (random1 random2 : bytes) (sessionKey : jsstring) (n id : Z)
    (more : list (jsstring * value)) :
  JSON_parse data1 = Some rcv1 ->
  remootioApiDecryptEncrypedFrame rcv1 (apiSecretKey d0) (apiAuthKey d0) None
  = (t1, Return (challenge_payload sessionKey n)) ->
  Z.abs n < 2 ^ 53 ->
  JSON_parse data2 = Some rcv2 ->
  remootioApiDecryptEncrypedFrame rcv2 (apiSecretKey d0) (apiAuthKey d0)
    (Some sessionKey)
  = (t2, Return (response_payload (lit "QUERY") id more)) ->
  let opened := (connect flag ;; transport_open h) d0 in
  let auth := authenticate (dev_of opened) in
  let run1 := on_message data1 random1 (dev_of auth) in
  let run2 := on_message data2 random2 (dev_of run1) in
  let query := action (lit "QUERY") (Z.rem (n + 1) 0x7fffffff) in
  events (trace_of opened) = [Connecting; Connected]
  /\ events (trace_of auth) = [OutgoingMessage (plain_frame (lit "AUTH")) VUndefined]
  /\ sent (trace_of auth) = [JSON_stringify (plain_frame (lit "AUTH"))]
  /\ (exists frame tf,
        remootioApiConstructEncrypedFrame (VStr (JSON_stringify query))
          (apiSecretKey d0) (apiAuthKey d0) (Some sessionKey) random1
        = (tf, Return frame)
        /\ events (trace_of run1)
           = [IncomingMessage rcv1 (challenge_payload sessionKey n);
              OutgoingMessage frame query]
        /\ sent (trace_of run1) = [JSON_stringify frame])
  /\ events (trace_of run2)
     = [IncomingMessage rcv2 (response_payload (lit "QUERY") id more);
        Authenticated]
  /\ isAuthenticated (dev_of run2) = true
  /\ apiSessionKey (dev_of run2) = Some sessionKey
  /\ lastActionId (dev_of run2)
     = Some (if (n <? id) || ((id =? 0) && (n =? 0x7fffffff)) then id else n).
Proof.
  intros HJ1 HD1 HB HJ2 HD2. cbv zeta.
  set (d1 := set_sendPingMessageIntervalHandle (Some h)
               (set_websocketClient (Some OPEN)
                  (reconnecting (if flag then set_autoReconnect true d0 else d0)))).
  assert (EO : (connect flag ;; transport_open h) d0
               = (d1, [new_WebSocket (url_of d0); emit Connecting;
                       emit Connected; setInterval h], Return tt)).
  { cbn [bind M_Monad]. unfold M_bind. rewrite connect_spec, transport_open_spec.
    reflexivity. }
  assert (K : apiSecretKey d1 = apiSecretKey d0 /\ apiAuthKey d1 = apiAuthKey d0
              /\ apiSessionKey d1 = None /\ websocketClient d1 = Some OPEN).
  { subst d1. destruct flag; repeat split; reflexivity. }
  destruct K as (KS & KA & KK & KW).
  assert (EA : authenticate d1
               = (d1, [ws_send (JSON_stringify (plain_frame (lit "AUTH")));
                       emit (OutgoingMessage (plain_frame (lit "AUTH")) VUndefined)],
                  Return tt)).
  { unfold authenticate, sendFrame. m_unfold. now rewrite KW. }
  rewrite EO, dev_of_run, trace_of_run, EA, dev_of_run, trace_of_run.
  split; [reflexivity|]. split; [reflexivity|]. split; [reflexivity|].
  rewrite <- KS, <- KA in HD1, HD2. rewrite <- KK in HD1.
  rewrite (on_message_challenge_trace d1 data1 rcv1 random1 t1 sessionKey n HJ1 HD1).
  cbv zeta. rewrite dev_of_run, trace_of_run.
  set (d2 := challenged sessionKey n (fst (clear_reply_timer d1))).
  destruct (challenged_fields sessionKey n d1) as (F1 & F2 & F3 & F4 & F5).
  destruct (challenged_keys sessionKey n d1) as (G1 & G2 & G3).
  fold d2 in F1, F2, F3, F4, F5, G1, G2, G3.
  unfold isConnected in F4. rewrite KW in F4. cbn [is_OPEN] in F4.
  pose proof (sendQuery_trace random1 d2 n F2) as Q. cbv zeta in Q.
  rewrite F4, (next_id_exact n HB) in Q. destruct Q as (frame & tf & QF & QT).
  unfold frame_for in QF. rewrite G1, G2, F1, KS, KA in QF.
  split.
  { exists frame, tf. split; [exact QF|]. rewrite QT.
    rewrite !events_app, !sent_app, events_clear_reply_timer, !events_IO, !sent_IO.
    unfold clear_reply_timer.
    destruct (pingReplyTimeoutHandle d1); split; reflexivity. }
  rewrite <- G1, <- G2, <- F1 in HD2.
  destruct (on_message_response d2 data2 rcv2 random2 t2 (lit "QUERY") id more
              HJ2 HD2) as (E2 & _ & L2 & _ & _ & S2 & W2).
  rewrite F3 in E2. rewrite F2 in L2.
  split; [exact E2|].
  split; [unfold isAuthenticated; now rewrite W2, S2, F5, KW, F1|].
  split; [now rewrite S2|exact L2].
Qed.

(* ------------------------------------------------------------------ *)
(** ** Every message, by cases *)

(** The 'message' callback on an encrypted frame whose decryption throws. *)
Lemma on_message_decrypt_throws (d : RemootioDevice) (data : jsstring)
    (rcv : value) (random16 : bytes) (t : list io) (e : exn) :
  JSON_parse data = Some rcv ->
  truthy rcv = true ->
  loose_eq_word (field rcv (lit "type")) (lit "ENCRYPTED") = Return true ->
  remootioApiDecryptEncrypedFrame rcv (apiSecretKey d) (apiAuthKey d)
    (apiSessionKey d) = (t, Throw e) ->
  on_message data random16 d
  = (fst (clear_reply_timer d),
     snd (clear_reply_timer d) ++ map IO t ++ [emit (Error (Caught e))],
     Return tt).
Proof.
  intros HJ T Ty HD.
  unfold on_message, clear_reply_timer. m_unfold. rewrite HJ. m_unfold.
  destruct (pingReplyTimeoutHandle d) as [h|]; m_unfold;
    rewrite T, (get_truthy rcv _ T), Ty; m_unfold; simpl;
    rewrite HD; simpl;
    rewrite ?app_nil_r, <- ?app_assoc; reflexivity.
Qed.

Lemma clear_reply_timer_session (d : RemootioDevice) :
  apiSessionKey (fst (clear_reply_timer d)) = apiSessionKey d
  /\ lastActionId (fst (clear_reply_timer d)) = lastActionId d
  /\ waitingForAuthenticationQueryActionResponse (fst (clear_reply_timer d))
     = waitingForAuthenticationQueryActionResponse d.
Proof. unfold clear_reply_timer. now destruct (pingReplyTimeoutHandle d). Qed.

(** The ways a parsed message can go. *)
Lemma on_message_cases (d : RemootioDevice) (data : jsstring) (rcv : value)
    (random16 : bytes) :
  JSON_parse data = Some rcv ->
  let run := on_message data random16 d in
  (dev_of run = fst (clear_reply_timer d)
   /\ (exists v, events (trace_of run) = [IncomingMessage rcv v]
                 \/ events (trace_of run)
                    = [IncomingMessage rcv v;
                       Error AuthenticationOrEncryptionError]))
  \/ (dev_of run = fst (clear_reply_timer d)
      /\ exists e, events (trace_of run) = [Error (Caught e)])
  \/ (exists t v,
        remootioApiDecryptEncrypedFrame rcv (apiSecretKey d) (apiAuthKey d)
          (apiSessionKey d) = (t, Return v)
        /\ is_undefined v = false
        /\ exists rest, events (trace_of run) = IncomingMessage rcv v :: rest).
Proof.
  intros HJ. cbv zeta.
  destruct (truthy rcv) eqn:T.
  2:{ left.
      rewrite (on_message_not_encrypted d data rcv random16 HJ (or_introl T)),
        dev_of_run, trace_of_run.
      split; [reflexivity|]. exists VUndefined. left.
      now rewrite events_app, events_clear_reply_timer. }
  destruct (loose_eq_word (field rcv (lit "type")) (lit "ENCRYPTED"))
    as [[|]|e] eqn:Ty.
  - destruct (remootioApiDecryptEncrypedFrame rcv (apiSecretKey d) (apiAuthKey d)
                (apiSessionKey d)) as [t [v|e]] eqn:HD.
    + destruct (is_undefined v) eqn:HU.
      * left.
        rewrite (on_message_undefined d data rcv random16 t v HJ T Ty HD HU),
          dev_of_run, trace_of_run.
        split; [reflexivity|]. exists v. right.
        now rewrite !events_app, events_clear_reply_timer, events_IO.
      * right. right. exists t, v. split; [reflexivity|]. split; [exact HU|].
        rewrite (on_message_defined d data rcv random16 t v HJ HD HU), trace_of_run.
        rewrite !events_app, events_clear_reply_timer, events_IO.
        eexists. reflexivity.
    + right. left.
      rewrite (on_message_decrypt_throws d data rcv random16 t e HJ T Ty HD),
        dev_of_run, trace_of_run.
      split; [reflexivity|]. exists e.
      now rewrite !events_app, events_clear_reply_timer, events_IO.
  - left.
    rewrite (on_message_not_encrypted d data rcv random16 HJ (or_intror Ty)),
      dev_of_run, trace_of_run.
    split; [reflexivity|]. exists VUndefined. left.
    now rewrite events_app, events_clear_reply_timer.
  - right. left.
    rewrite (on_message_type_throws d data rcv random16 e HJ Ty),
      dev_of_run, trace_of_run.
    split; [reflexivity|]. exists e.
    now rewrite events_app, events_clear_reply_timer.
Qed.

(** X16: a message that parses is reported before it is acted on: the
    events it raises begin with 'incomingmessage' carrying the parsed frame,
    so an outgoing QUERY, 'authenticated' or an 'error' about the payload
    come after it; the one exception is a lone 'error' carrying an exception
    thrown by the comparison of the type or by the decryption. *)
Theorem parsed_message_is_reported_first
    (d : RemootioDevice) (data : jsstring) (rcv : value) (random16 : bytes) :
  JSON_parse data = Some rcv ->
  let run := on_message data random16 d in
  (exists v rest, events (trace_of run) = IncomingMessage rcv v :: rest)
  \/ (exists e, events (trace_of run) = [Error (Caught e)]).
Proof.
  intros HJ. cbv zeta.
  destruct (on_message_cases d data rcv random16 HJ)
    as [(_ & v & [E|E]) | [(_ & e & E) | (t & v & _ & _ & rest & E)]].
  - left. exists v, []. exact E.
  - left. exists v, [Error AuthenticationOrEncryptionError]. exact E.
  - right. exists e. exact E.
  - left. exists v, rest. exact E.
Qed.

(** X17: the session changes only on a frame that verifies: when a
    message leaves the session key, the action counter or the wait for the
    QUERY response other than it found them, the message parsed, the MAC
    comparison of the decryption found the frame's MAC equal to the
    recomputed one, and the decryption returned a payload. *)
Theorem session_changes_only_on_a_verified_frame
    (d : RemootioDevice) (data : jsstring) (random16 : bytes) :
  let run := on_message data random16 d in
  (apiSessionKey (dev_of run) = apiSessionKey d
   /\ lastActionId (dev_of run) = lastActionId d
   /\ waitingForAuthenticationQueryActionResponse (dev_of run)
      = waitingForAuthenticationQueryActionResponse d)
  \/ (exists rcv t v,
        JSON_parse data = Some rcv
        /\ remootioApiDecryptEncrypedFrame rcv (apiSecretKey d) (apiAuthKey d)
             (apiSessionKey d) = (t, Return v)
        /\ is_undefined v = false
        /\ mac_differs rcv (apiAuthKey d) = Return false).
Proof.
  cbv zeta. destruct (JSON_parse data) as [rcv|] eqn:HJ.
  - destruct (on_message_cases d data rcv random16 HJ)
      as [(E & _) | [(E & _) | (t & v & HD & HU & _)]].
    + left. rewrite E. apply clear_reply_timer_session.
    + left. rewrite E. apply clear_reply_timer_session.
    + right. exists rcv, t, v. split; [reflexivity|]. split; [exact HD|].
      split; [exact HU|].
      assert (Hv : v <> VUndefined) by (intros ->; discriminate HU).
      now destruct (decrypt_defined_inv rcv _ _ _ t v HD Hv) as (_ & M & _).
  - left. unfold on_message. m_unfold. rewrite HJ. repeat split.
Qed.

End Tame.

(* ------------------------------------------------------------------ *)
(** ** The API secret key within a session *)

Section SecretKey.
Context {P : Platform}.

Lemma run_eta {A} (run : RemootioDevice * trace * outcome A) :
  run = (dev_of run, trace_of run, result_of run).
Proof. now destruct run as [[d t] r]. Qed.

Lemma bind_this {A B} (f : RemootioDevice -> A) (k : A -> M B) (d : RemootioDevice) :
  bind (this f) k d = k (f d) d.
Proof. m_unfold. now destruct (k (f d) d) as [[d2 t2] r]. Qed.

Lemma blind_from_bind {A B} (Q R : RemootioDevice -> Prop) (c : M A) (k : A -> M B) :
  blind_from Q c ->
  (forall d, Q d -> R (dev_of (c d))) ->
  (forall a, blind_from R (k a)) ->
  blind_from Q (bind c k).
Proof.
  intros Hc HR Hk d HQ s. cbn [bind M_Monad]. unfold M_bind.
  rewrite (Hc d HQ s). specialize (HR d HQ).
  destruct (c d) as [[d1 t1] [a|e]]; unfold dev_of, trace_of, result_of in *;
    cbn [fst snd] in *; [|reflexivity].
  rewrite (Hk a d1 HR s).
  now destruct (k a d1) as [[d2 t2] r].
Qed.

Lemma blind_from_weaken {A} (Q Q' : RemootioDevice -> Prop) (c : M A) :
  blind_from Q c -> (forall d, Q' d -> Q d) -> blind_from Q' c.
Proof. intros H W d HQ. apply H, W, HQ. Qed.

Lemma blind_ret {A} (Q : RemootioDevice -> Prop) (a : A) : blind_from Q (ret a : M A).
Proof. intros d _ s. reflexivity. Qed.

Lemma blind_skip (Q : RemootioDevice -> Prop) : blind_from Q skip.
Proof. apply blind_ret. Qed.

Lemma blind_eval {A} (Q : RemootioDevice -> Prop) (o : outcome A) : blind_from Q (eval o).
Proof. intros d _ s. reflexivity. Qed.

Lemma blind_log (Q : RemootioDevice -> Prop) (e : effect) : blind_from Q (log e).
Proof. intros d _ s. reflexivity. Qed.

Lemma blind_warn (Q : RemootioDevice -> Prop) (w : warning) : blind_from Q (warn w).
Proof. apply blind_log. Qed.

Lemma blind_liftC {A} (Q : RemootioDevice -> Prop) (c : C A) : blind_from Q (liftC c).
Proof. intros d _ s. reflexivity. Qed.

Lemma blind_this {A} (Q : RemootioDevice -> Prop) (f : RemootioDevice -> A) :
  (forall s d, f (with_secret s d) = f d) -> blind_from Q (this f).
Proof. intros Hf d _ s. unfold this. now rewrite Hf. Qed.

Lemma blind_assign (Q : RemootioDevice -> Prop)
    (set : RemootioDevice -> RemootioDevice) :
  (forall s d, set (with_secret s d) = with_secret s (set d)) ->
  blind_from Q (assign set).
Proof. intros Hg d _ s. unfold assign. now rewrite Hg. Qed.

Lemma blind_try_catch (Q : RemootioDevice -> Prop) (body : M unit)
    (handler : exn -> M unit) :
  blind_from Q body ->
  (forall e, blind_from (fun _ => True) (handler e)) ->
  blind_from Q (try_catch body handler).
Proof.
  intros Hb Hh d HQ s. unfold try_catch. rewrite (Hb d HQ s).
  destruct (body d) as [[d1 t1] [[]|e]]; unfold dev_of, trace_of, result_of;
    cbn [fst snd]; [reflexivity|].
  rewrite (Hh e d1 I s).
  now destruct (handler e d1) as [[d2 t2] r].
Qed.

Lemma construct_ignores_secret (payload : value) (s s' auth : jsstring)
    (key : option jsstring) (random16 : bytes) :
  remootioApiConstructEncrypedFrame payload s auth key random16
  = remootioApiConstructEncrypedFrame payload s' auth key random16.
Proof. now destruct key. Qed.

Lemma decrypt_ignores_secret (frame : value) (s s' auth k : jsstring) :
  remootioApiDecryptEncrypedFrame frame s auth (Some k)
  = remootioApiDecryptEncrypedFrame frame s' auth (Some k).
Proof. reflexivity. Qed.

Ltac blind_step :=
  first
    [ apply blind_ret | apply blind_skip | apply blind_eval | apply blind_log
    | apply blind_warn | apply blind_liftC
    | apply blind_this; reflexivity
    | apply blind_assign; reflexivity
    | match goal with
      | |- blind_from _ (match ?x with _ => _ end) => destruct x
      end ].

Lemma blind_sendEncryptedFrame (payload : value) (random16 : bytes) :
  blind_from (fun _ => True) (sendEncryptedFrame payload random16).
Proof.
  intros d _ s. unfold sendEncryptedFrame. rewrite !bind_this.
  cbn [websocketClient with_secret].
  destruct (is_OPEN (websocketClient d)); [|reflexivity].
  rewrite !bind_this. cbn [apiSessionKey with_secret].
  destruct (apiSessionKey d) as [k|]; [|reflexivity].
  rewrite !bind_this. cbn [apiSecretKey apiAuthKey with_secret].
  rewrite (construct_ignores_secret _ s (apiSecretKey d)).
  m_unfold.
  destruct (remootioApiConstructEncrypedFrame _ _ _ _ _) as [t [frame|e]];
    reflexivity.
Qed.

Lemma blind_sendAction (type : jsstring) (random16 : bytes) :
  blind_from (fun _ => True) (sendAction type random16).
Proof.
  unfold sendAction.
  apply (blind_from_bind _ (fun _ => True)); [blind_step | trivial | intros last].
  destruct last; [apply blind_sendEncryptedFrame | blind_step].
Qed.

Ltac blind_chain :=
  repeat (apply (blind_from_bind _ (fun _ => True));
          [solve [repeat blind_step] | trivial | intros]).

Lemma blind_advance_lastActionId (id : value) :
  blind_from (fun _ => True) (advance_lastActionId id).
Proof.
  unfold advance_lastActionId. blind_chain. repeat blind_step.
Qed.

Lemma blind_process_payload (v : value) (random16 : bytes) :
  blind_from (fun _ => True) (process_payload v random16).
Proof.
  unfold process_payload.
  apply (blind_from_bind _ (fun _ => True)); [blind_step | trivial | intros isChallenge].
  apply (blind_from_bind _ (fun _ => True)); [| trivial | intros _].
  - destruct isChallenge; [|blind_step].
    do 6 (apply (blind_from_bind _ (fun _ => True));
          [solve [repeat blind_step] | trivial | intros]).
    apply blind_sendAction.
  - apply (blind_from_bind _ (fun _ => True)); [blind_step | trivial | intros isResponse].
    destruct isResponse; [|blind_step].
    do 2 (apply (blind_from_bind _ (fun _ => True)); [blind_step | trivial | intros]).
    destruct (negb (is_undefined _)); [|blind_step].
    apply (blind_from_bind _ (fun _ => True));
      [apply blind_advance_lastActionId | trivial | intros _].
    blind_chain. repeat blind_step.
    all: blind_chain; repeat blind_step.
Qed.

Lemma blind_decrypt_step (k : jsstring) (rcv : value) (after : value -> M unit) :
  (forall v, blind_from (fun _ => True) (after v)) ->
  blind_from (fun d => apiSessionKey d = Some k)
    (secret <- this apiSecretKey ;;
     auth <- this apiAuthKey ;;
     sessionKey <- this apiSessionKey ;;
     decryptedPayload <-
       liftC (remootioApiDecryptEncrypedFrame rcv secret auth sessionKey) ;;
     after decryptedPayload).
Proof.
  intros Ha d HQ s. rewrite !bind_this.
  cbn [apiSecretKey apiAuthKey apiSessionKey with_secret]. rewrite HQ.
  rewrite (decrypt_ignores_secret rcv s (apiSecretKey d)).
  apply (blind_from_bind (fun _ => True) (fun _ => True));
    [apply blind_liftC | trivial | exact Ha | exact I].
Qed.

Lemma blind_on_message (k : jsstring) (data : jsstring) (random16 : bytes) :
  blind_from (fun d => apiSessionKey d = Some k) (on_message data random16).
Proof.
  set (Q := fun d => apiSessionKey d = Some k).
  unfold on_message. apply blind_try_catch; [|intros e; apply blind_log].
  apply (blind_from_bind _ Q).
  { destruct (JSON_parse data); blind_step. }
  { intros d HQ. now destruct (JSON_parse data). }
  intros rcv.
  apply (blind_from_bind _ Q); [blind_step | trivial | intros pending].
  apply (blind_from_bind _ Q).
  { destruct pending; [|blind_step].
    apply (blind_from_bind _ Q); [blind_step | trivial | intros _]. blind_step. }
  { intros d HQ. now destruct pending. }
  intros _.
  apply (blind_from_bind _ Q).
  { destruct (truthy rcv); [|blind_step].
    apply (blind_from_bind _ Q); [blind_step | trivial | intros type]. blind_step. }
  { intros d HQ. destruct (truthy rcv); [|exact HQ].
    cbn [bind M_Monad]. unfold M_bind, eval.
    now destruct (get rcv (lit "type")). }
  intros isEncrypted.
  destruct isEncrypted; [|blind_step].
  apply blind_decrypt_step. intros v.
  apply (blind_from_bind _ (fun _ => True)); [blind_step | trivial | intros _].
  destruct (negb (is_undefined v)); [apply blind_process_payload | blind_step].
Qed.

(** X15: while the device holds a session key, the API secret key plays
    no part: on a device that differs only in its API secret key, a
    message gives the same effects and the same result and leaves the same
    fields, and [sendEncryptedFrame] and the six action methods send the
    same; sending ignores that key in any state. *)
Theorem secret_key_is_unused_within_a_session
    (s k : jsstring) (d : RemootioDevice) (data : jsstring) (payload : value)
    (random16 : bytes) :
  apiSessionKey d = Some k ->
  on_message data random16 (with_secret s d)
  = (with_secret s (dev_of (on_message data random16 d)),
     trace_of (on_message data random16 d),
     result_of (on_message data random16 d))
  /\ trace_of (sendEncryptedFrame payload random16 (with_secret s d))
     = trace_of (sendEncryptedFrame payload random16 d)
  /\ (forall type send, In (type, send) action_methods ->
        trace_of (send random16 (with_secret s d)) = trace_of (send random16 d))
  /\ (forall d' type send, In (type, send) action_methods ->
        trace_of (sendEncryptedFrame payload random16 (with_secret s d'))
        = trace_of (sendEncryptedFrame payload random16 d')
        /\ trace_of (send random16 (with_secret s d'))
           = trace_of (send random16 d')).
Proof.
  intros HK. split; [exact (blind_on_message k data random16 d HK s)|].
  split; [now rewrite (blind_sendEncryptedFrame payload random16 d I s)|].
  split.
  - intros type send HI. rewrite (action_method_is_sendAction type send HI).
    now rewrite (blind_sendAction type random16 d I s).
  - intros d' type send HI. rewrite (action_method_is_sendAction type send HI).
    now rewrite (blind_sendEncryptedFrame payload random16 d' I s),
      (blind_sendAction type random16 d' I s).
Qed.

End SecretKey.

(* ------------------------------------------------------------------ *)
(** ** From an action method to the peer *)

Section Wire.
Context {P : Platform}.

(** The frame constructed for a payload string under a session key. *)
Lemma constructed_frame (s secret auth sessionKey : jsstring) (random16 : bytes) :
  let iv64 := Base64_stringify random16 in
  let payload64 :=
    Base64_stringify
      (AES_encrypt (Latin1_parse s) (Base64_parse sessionKey) random16) in
  snd (remootioApiConstructEncrypedFrame (VStr s) secret auth (Some sessionKey)
         random16)
  = Return (encrypted_frame iv64 payload64
              (expected_mac (frame_data iv64 payload64) auth)).
Proof. reflexivity. Qed.

(** X18: what an action method puts on the wire is what the peer reads:
    on an authenticated device whose [lastActionId] is below 2^53 in size,
    each of the six methods sends one text, the JSON of a frame that
    [remootioApiDecryptEncrypedFrame] turns back, under the auth key and the
    session key, into the action with the method's type and the id
    [(lastActionId + 1) % 0x7fffffff]; this on keys and an IV where
    crypto-js and JSON invert their own encodings of that action. *)
Theorem sent_action_decrypts_at_the_peer
    (type : jsstring) (send : bytes -> M unit) (random16 : bytes)
    (d : RemootioDevice) (id : Z) (sessionKey secret' : jsstring) :
  In (type, send) action_methods ->
  isConnected d = true ->
  apiSessionKey d = Some sessionKey ->
  lastActionId d = Some id ->
  Z.abs id < 2 ^ 53 ->
  is_latin1 (JSON_stringify (action type (Z.rem (id + 1) 0x7fffffff))) = true ->
  JSON_parse (JSON_stringify (action type (Z.rem (id + 1) 0x7fffffff)))
  = Some (action type (Z.rem (id + 1) 0x7fffffff)) ->
  inverts_at (JSON_stringify (action type (Z.rem (id + 1) 0x7fffffff)))
    sessionKey random16 ->
  encodes_nonempty (JSON_stringify (action type (Z.rem (id + 1) 0x7fffffff)))
    (apiAuthKey d) sessionKey random16 ->
  exists frame,
    sent (trace_of (send random16 d)) = [JSON_stringify frame]
    /\ snd (remootioApiDecryptEncrypedFrame frame secret' (apiAuthKey d)
              (Some sessionKey))
       = Return (action type (Z.rem (id + 1) 0x7fffffff)).
Proof.
  intros HI HC HK HL HB Hl Hj (Hiv & Hct & Haes) (Ni & Np & Nm).
  rewrite (action_method_is_sendAction type send HI).
  pose proof (sendAction_cases type random16 d) as H.
  rewrite HL, (next_id_exact id HB) in H. cbv zeta in H.
  assert (HA : isAuthenticated d = true).
  { unfold isAuthenticated. unfold isConnected in HC. now rewrite HC, HK. }
  rewrite HA in H. destruct H as (frame & t & HF & ->).
  exists frame. split.
  { rewrite trace_of_run, sent_app, sent_IO. reflexivity. }
  unfold frame_for in HF. rewrite HK in HF.
  apply (f_equal snd) in HF. rewrite constructed_frame in HF.
  cbv zeta in HF. cbn [snd] in HF. injection HF as <-.
  rewrite decrypt_wire_frame.
  unfold plaintext_of, current_key. rewrite Hiv, Hct, Haes.
  rewrite (Latin1_round_trip _ Hl), Hj, str_eqb_refl.
  destruct (Base64_stringify random16); [contradiction|].
  destruct (Base64_stringify (AES_encrypt _ _ _)); [contradiction|].
  destruct (expected_mac _ _); [contradiction|].
  reflexivity.
Qed.

End Wire.

(* ------------------------------------------------------------------ *)
(** ** The work of a decryption *)

Section DecryptionWork.
Context {P : Platform}.

(** X14: on a frame of the wire shape, decryption makes the same eight
    crypto-js calls whether or not the MAC verifies: a wrong MAC costs a
    warning and the result, not the AES decryption or the parse, and a
    decrypted text that is not JSON costs a second warning. *)
Theorem decryption_runs_whatever_the_mac
    (iv payload mac secret auth : jsstring) (key : option jsstring) :
  iv <> [] -> payload <> [] -> mac <> [] ->
  let t := fst (remootioApiDecryptEncrypedFrame (encrypted_frame iv payload mac)
                  secret auth key) in
  let expected := expected_mac (frame_data iv payload) auth in
  let text := plaintext_of iv payload secret key in
  crypto_calls t
  = [match key with Some _ => enc_Base64_parse | None => enc_Hex_parse end;
     enc_Hex_parse; HmacSHA256_call; enc_Base64_stringify;
     enc_Base64_parse; enc_Base64_parse; AES_decrypt_call; enc_Latin1_stringify]
  /\ warnings t
     = (if str_eqb mac expected then [] else [MacMismatch expected (VStr mac)])
       ++ match JSON_parse text with
          | Some _ => []
          | None => [NotValidJSON text]
          end.
Proof.
  intros Hiv Hp Hm. cbv zeta.
  unfold remootioApiDecryptEncrypedFrame.
  rewrite fst_bind.
  destruct mac as [|m0 mac]; [contradiction|].
  destruct payload as [|p0 payload]; [contradiction|].
  destruct iv as [|i0 iv]; [contradiction|].
  change (snd (frame_rejected (encrypted_frame (i0 :: iv) (p0 :: payload) (m0 :: mac))))
    with (Return (A:=bool) false).
  change (fst (frame_rejected (encrypted_frame (i0 :: iv) (p0 :: payload) (m0 :: mac))))
    with (@nil io).
  cbv iota.
  unfold expected_mac, plaintext_of, current_key.
  set (data := frame_data (i0 :: iv) (p0 :: payload)).
  set (m := m0 :: mac).
  destruct key as [sessionKey|];
    (repeat c_step;
     change (get (encrypted_frame (i0 :: iv) (p0 :: payload) m) (lit "data"))
       with (Return data);
     repeat c_step;
     change (get (encrypted_frame (i0 :: iv) (p0 :: payload) m) (lit "mac"))
       with (Return (VStr m));
     repeat c_step;
     unfold loose_neq_with, loose_eq_with;
     destruct (str_eqb m _); cbn [negb];
     repeat c_step;
     change (get data (lit "payload")) with (Return (VStr (p0 :: payload)));
     change (get data (lit "iv")) with (Return (VStr (i0 :: iv)));
     repeat c_step;
     destruct (JSON_parse _); repeat c_step; split; reflexivity).
Qed.

End DecryptionWork.

(* ------------------------------------------------------------------ *)
(** ** The constructor's key check *)

Lemma forallb_firstn {A} (f : A -> bool) (k : nat) (l : list A) :
  forallb f l = true -> forallb f (firstn k l) = true.
Proof.
  intros F. rewrite <- (firstn_skipn k l), forallb_app in F.
  now apply andb_prop in F.
Qed.

Lemma hexstringRe_test_from_spec (s : jsstring) :
  forall n, (n < 64)%nat ->
    hexstringRe_test_from n s = true
    <-> (exists run post,
           s = run ++ post /\ List.length run = (64 - n)%nat
           /\ forallb is_hex_digit run = true)
        \/ has_hex_run s.
Proof.
  induction s as [|c rest IH]; intros n Hn; cbn [hexstringRe_test_from].
  - split; [discriminate|].
    intros [(run & post & E & L & _) | (pre & run & post & E & L & _)].
    + destruct run; [cbn [List.length] in L; lia | discriminate].
    + destruct pre;
        [destruct run; [cbn [List.length] in L; lia | discriminate] | discriminate].
  - destruct (is_hex_digit c) eqn:Hc.
    + destruct (64 <=? S n)%nat eqn:Hle.
      * apply Nat.leb_le in Hle. split; [intros _ | reflexivity].
        left. exists [c], rest.
        split; [reflexivity|].
        split; [cbn [List.length]; lia | cbn [forallb]; now rewrite Hc].
      * apply Nat.leb_gt in Hle. rewrite (IH (S n)) by lia. split.
        -- intros [(run & post & E & L & F) | (pre & run & post & E & L & F)].
           ++ left. exists (c :: run), post. subst.
              split; [reflexivity|].
              split; [cbn [List.length]; lia | cbn [forallb]; now rewrite Hc, F].
           ++ right. exists (c :: pre), run, post. subst. auto.
        -- intros [(run & post & E & L & F) | (pre & run & post & E & L & F)].
           ++ destruct run as [|c' run]; [cbn [List.length] in L; lia|].
              cbn [List.length forallb app] in E, L, F. injection E as E1 E2. subst.
              apply andb_prop in F as [_ F].
              left. exists run, post. repeat split; [lia | exact F].
           ++ destruct pre as [|p pre].
              ** destruct run as [|c' run]; [cbn [List.length] in L; lia|].
                 cbn [List.length forallb app] in E, L, F. injection E as E1 E2. subst.
                 apply andb_prop in F as [_ F].
                 left. exists (firstn (64 - S n) run), (skipn (64 - S n) run ++ post).
                 split; [now rewrite app_assoc, firstn_skipn|].
                 split; [rewrite length_firstn; lia | now apply forallb_firstn].
              ** cbn in E. injection E as E1 E2. subst.
                 right. exists pre, run, post. auto.
    + rewrite (IH 0%nat) by lia. split.
      * intros [(run & post & E & L & F) | (pre & run & post & E & L & F)].
        -- right. exists (c :: nil), run, post. subst. auto.
        -- right. exists (c :: pre), run, post. subst. auto.
      * intros [(run & post & E & L & F) | (pre & run & post & E & L & F)].
        -- destruct run as [|c' run]; [cbn [List.length] in L; lia|].
           cbn [forallb app] in E, F. injection E as E1 E2. subst.
           rewrite Hc in F. discriminate.
        -- destruct pre as [|p pre].
           ++ destruct run as [|c' run]; [cbn [List.length] in L; lia|].
              cbn [forallb app] in E, F. injection E as E1 E2. subst.
              rewrite Hc in F. discriminate.
           ++ cbn in E. injection E as E1 E2. subst.
              right. exists pre, run, post. auto.
Qed.

Lemma hexstringRe_test_spec (s : jsstring) :
  hexstringRe_test s = true <-> has_hex_run s.
Proof.
  unfold hexstringRe_test. rewrite hexstringRe_test_from_spec by lia.
  split; [|now right].
  intros [(run & post & E & L & F) | H]; [|exact H].
  exists [], run, post. auto.
Qed.

(** X2: the constructor logs an error for a key exactly when the key holds
    no sixty-four hexadecimal digits in a row, wherever in the key; whatever
    the check finds, it stores both keys as given and returns a device that
    is neither connected nor authenticated. *)
Theorem constructor_accepts_any_hex_run
    (DeviceIp ApiSecretKey ApiAuthKey : jsstring) (ms : option Z) :
  let made := constructor DeviceIp ApiSecretKey ApiAuthKey ms in
  (In (console_error (lit "ApiSecretKey")) (snd made) <-> ~ has_hex_run ApiSecretKey)
  /\ (In (console_error (lit "ApiAuthKey")) (snd made) <-> ~ has_hex_run ApiAuthKey)
  /\ (List.length (snd made) <= 2)%nat
  /\ apiSecretKey (fst made) = ApiSecretKey
  /\ apiAuthKey (fst made) = ApiAuthKey
  /\ isConnected (fst made) = false
  /\ isAuthenticated (fst made) = false.
Proof.
  cbv zeta. unfold constructor. cbn [fst snd].
  pose proof (hexstringRe_test_spec ApiSecretKey) as HS.
  pose proof (hexstringRe_test_spec ApiAuthKey) as HA.
  destruct (hexstringRe_test ApiSecretKey);
    [assert (RS : has_hex_run ApiSecretKey) by now apply HS
    |assert (RS : ~ has_hex_run ApiSecretKey)
       by (intros X; apply HS in X; discriminate X)];
    (destruct (hexstringRe_test ApiAuthKey);
     [assert (RA : has_hex_run ApiAuthKey) by now apply HA
     |assert (RA : ~ has_hex_run ApiAuthKey)
        by (intros X; apply HA in X; discriminate X)]);
    clear HS HA; cbn;
    (split; [|split; [|split; [lia | repeat split]]]);
    intuition (try discriminate).
Qed.

(* ------------------------------------------------------------------ *)
(** ** The repository's tests, on the reference platform *)

Example test_encrypt_without_session_key :
  remootioApiConstructEncrypedFrame (P:=Reference.platform)
    (VStr test_action_text) testApiSecretKey testApiAuthKey None test_random16
  = ([], Return VUndefined).
Proof. reflexivity. Qed.

Example test_encryption :
  exists iv payload mac,
    snd (remootioApiConstructEncrypedFrame (P:=Reference.platform)
           (VStr test_action_text) testApiSecretKey testApiAuthKey
           (Some testApiSessionKey) test_random16)
    = Return (encrypted_frame iv payload mac).
Proof. do 3 eexists. reflexivity. Qed.

Example test_decryption :
  snd (remootioApiDecryptEncrypedFrame (P:=Reference.platform)
         test_frame testApiSecretKey testApiAuthKey (Some testApiSessionKey))
  = Return test_response.
Proof. vm_compute. reflexivity. Qed.

Example test_default_fields :
  snd (constructor testIp testApiSecretKey testApiAuthKey None) = []
  /\ isConnected fresh_device = false
  /\ isAuthenticated fresh_device = false
  /\ theLastActionId fresh_device = None.
Proof. vm_compute. repeat split. Qed.

Example test_connect_events :
  trace_of (connect false fresh_device)
  = [new_WebSocket (lit "ws://192.168.0.15:8080/"); emit Connecting].
Proof. vm_compute. reflexivity. Qed.

(** A device that pinged and whose socket then closed: the reply timeout
    armed with the ping is still held after the 'close' callback. *)
Example reply_timeout_survives_close :
  let pinged := dev_of (on_ping_interval (P:=Reference.platform) 2%nat connected_device) in
  let closed := transport_close pinged in
  pingReplyTimeoutHandle pinged = Some 2%nat
  /\ trace_of closed = [clearInterval 1%nat; emit Disconnect]
  /\ pingReplyTimeoutHandle (dev_of closed) = Some 2%nat
  /\ sendPingMessageIntervalHandle (dev_of closed) = None.
Proof. vm_compute. repeat split. Qed.

(** Beyond 2^53 the sum [lastActionId + 1] is rounded: from 2^53 it is 2^53
    again, and the id sent is 2^53 % 0x7fffffff. *)
Example id_sent_from_two_to_the_53 :
  map snd (outgoing (trace_of (sendQuery (P:=Reference.platform) test_random16
                                 far_device)))
  = [action (lit "QUERY") 4194304].
Proof. vm_compute. reflexivity. Qed.

(* ------------------------------------------------------------------ *)
(** ** The theorems at concrete inputs *)

(** The frame of the decryption test, through the theorem on verified
    payloads. *)
Lemma decryption_of_the_test_frame :
  snd (remootioApiDecryptEncrypedFrame (P:=Reference.platform)
         test_frame testApiSecretKey testApiAuthKey (Some testApiSessionKey))
  = Return test_response.
Proof.
  apply (proj2 (proj2 (proj2
           (decrypt_returns_only_verified_json (P:=Reference.platform)
              testApiSecretKey testApiAuthKey (Some testApiSessionKey))))).
  - discriminate.
  - discriminate.
  - discriminate.
  - vm_compute. reflexivity.
  - vm_compute. reflexivity.
Defined.

(** The action of the encryption test, there and back. *)
Lemma round_trip_of_the_test_action :
  exists frame,
    snd (remootioApiConstructEncrypedFrame (P:=Reference.platform)
           (VStr test_action_text) testApiSecretKey testApiAuthKey
           (Some testApiSessionKey) test_random16) = Return frame
    /\ snd (remootioApiDecryptEncrypedFrame (P:=Reference.platform)
              frame testApiSecretKey testApiAuthKey (Some testApiSessionKey))
       = Return (action (lit "QUERY") 808411243).
Proof.
  apply (construct_decrypt_round_trip (P:=Reference.platform)).
  - vm_compute. reflexivity.
  - vm_compute. repeat split.
  - vm_compute. repeat split; discriminate.
  - vm_compute. reflexivity.
Defined.

(** A payload string with a code unit above 255 does not come back: the
    frame built from the JSON text of U+20AC decrypts to U+00AC, on keys and
    an IV where AES and Base64 do invert. *)
Lemma round_trip_truncates_code_units :
  Reference.JSON_parse euro_text = Some (VStr [8364])
  /\ inverts_at (P:=Reference.platform) euro_text testApiSessionKey test_random16
  /\ exists frame,
       snd (remootioApiConstructEncrypedFrame (P:=Reference.platform)
              (VStr euro_text) testApiSecretKey testApiAuthKey
              (Some testApiSessionKey) test_random16) = Return frame
       /\ snd (remootioApiDecryptEncrypedFrame (P:=Reference.platform)
                 frame testApiSecretKey testApiAuthKey (Some testApiSessionKey))
          = Return (VStr [172])
       /\ VStr [172] <> VStr [8364].
Proof.
  split; [vm_compute; reflexivity|].
  split; [vm_compute; repeat split|].
  exists (peer_frame (VStr [8364]) testApiSessionKey).
  repeat split; try discriminate; vm_compute; reflexivity.
Qed.

(** A PONG frame handed to the decryption. *)
Lemma pong_frame_is_rejected :
  remootioApiDecryptEncrypedFrame (P:=Reference.platform)
    pong_frame testApiSecretKey testApiAuthKey None
  = ([], Return VUndefined).
Proof.
  apply (decrypt_rejects_malformed_frame (P:=Reference.platform)).
  right. left. split; [reflexivity|discriminate].
Defined.

(** A frame whose [type] is an object with a [toString] entry, and no
    other field, makes the guard throw; a frame whose [type] is the array
    ["ENCRYPTED"] passes the guard and is decrypted. *)
Lemma guard_throws_or_lets_through :
  snd (remootioApiDecryptEncrypedFrame (P:=Reference.platform)
         frame_with_object_type testApiSecretKey testApiAuthKey None)
  = Throw TypeError
  /\ existsb is_crypto
       (fst (remootioApiDecryptEncrypedFrame (P:=Reference.platform)
               frame_with_array_type testApiSecretKey testApiAuthKey
               (Some testApiSessionKey))) = true
  /\ snd (remootioApiDecryptEncrypedFrame (P:=Reference.platform)
            frame_with_array_type testApiSecretKey testApiAuthKey
            (Some testApiSessionKey)) = Return test_response.
Proof. vm_compute. repeat split. Qed.

(** The challenge that answers AUTH, on the connected test device. *)
Lemma challenge_on_the_test_device :
  lastActionId
    (dev_of (on_message (P:=Reference.platform)
               (Reference.JSON_stringify challenge_frame) test_random16
               connected_device)) = Some 100.
Proof.
  refine (proj1 (challenge_sends_query_101 (P:=Reference.platform)
                   connected_device (Reference.JSON_stringify challenge_frame)
                   challenge_frame test_random16
                   (fst (remootioApiDecryptEncrypedFrame (P:=Reference.platform)
                           challenge_frame testApiSecretKey testApiAuthKey None))
                   testApiSessionKey _ _ _)).
  - vm_compute. reflexivity.
  - vm_compute. reflexivity.
  - vm_compute. reflexivity.
Defined.

(** Right after the challenge, before any response, [isAuthenticated] is
    true, although no 'authenticated' event has been raised. *)
Lemma authenticated_before_the_response :
  let run := on_message (P:=Reference.platform)
               (Reference.JSON_stringify challenge_frame) test_random16
               connected_device in
  isConnected connected_device = true
  /\ isAuthenticated connected_device = false
  /\ lastActionId (dev_of run) = Some 100
  /\ map snd (outgoing (trace_of run)) = [action (lit "QUERY") 101]
  /\ count is_authenticated_event (trace_of run) = 0%nat
  /\ isAuthenticated (dev_of run) = true.
Proof. vm_compute. repeat split. Qed.

(** [sendQuery] on the authenticated test device. *)
Lemma query_on_the_authenticated_device :
  exists frame t,
    frame_for (P:=Reference.platform) authenticated_device
      (action (lit "QUERY") 101) test_random16 = (t, Return frame)
    /\ sendQuery (P:=Reference.platform) test_random16 authenticated_device
       = (authenticated_device,
          map IO t ++ [ws_send (Reference.JSON_stringify frame);
                       emit (OutgoingMessage frame (action (lit "QUERY") 101))],
          Return tt).
Proof.
  exact (action_methods_send_next_id (P:=Reference.platform)
           (lit "QUERY") sendQuery test_random16 authenticated_device
           (or_introl eq_refl) eq_refl).
Defined.

(** With [lastActionId] defined: on a closed socket nothing is sent, and on
    an open one two sends in a row carry the same id. *)
Lemma sends_without_a_response :
  lastActionId closed_device = Some 100
  /\ sendQuery (P:=Reference.platform) test_random16 closed_device
     = (closed_device, [IO (console_warn NotConnected)], Return tt)
  /\ map snd
       (outgoing
          (trace_of ((sendQuery (P:=Reference.platform) test_random16 ;;
                      sendTrigger (P:=Reference.platform) test_random16)
                       authenticated_device)))
     = [action (lit "QUERY") 101; action (lit "TRIGGER") 101].
Proof. vm_compute. repeat split. Qed.

(** The frame with the corrupted MAC, on the authenticated test device. *)
Lemma corrupted_mac_on_the_authenticated_device :
  count is_error
    (trace_of (on_message (P:=Reference.platform)
                 (Reference.JSON_stringify corrupted_frame) test_random16
                 authenticated_device)) = 1%nat.
Proof.
  refine (proj1 (proj2 (failed_decrypt_raises_one_error (P:=Reference.platform)
                   authenticated_device (Reference.JSON_stringify corrupted_frame)
                   corrupted_frame test_random16
                   (fst (remootioApiDecryptEncrypedFrame (P:=Reference.platform)
                           corrupted_frame testApiSecretKey testApiAuthKey
                           (Some testApiSessionKey)))
                   _ _ _ _))).
  - vm_compute. reflexivity.
  - vm_compute. reflexivity.
  - vm_compute. reflexivity.
  - vm_compute. reflexivity.
Defined.

(** A challenge that arrives while the socket is closing: the session is
    overwritten as on an open socket, but no QUERY goes out. *)
Lemma challenge_on_a_closing_socket :
  let run := on_message (P:=Reference.platform)
               (Reference.JSON_stringify rechallenge_frame) test_random16
               closing_device in
  websocketClient closing_device = Some CLOSING
  /\ apiSessionKey (dev_of run) = Some secret_key64
  /\ lastActionId (dev_of run) = Some 7
  /\ waitingForAuthenticationQueryActionResponse (dev_of run) = Some true
  /\ outgoing (trace_of run) = []
  /\ sent (trace_of run) = []
  /\ count is_error (trace_of run) = 0%nat.
Proof. vm_compute. repeat split. Qed.

(** A challenge within a session: the session key is replaced. *)
Lemma rechallenge_on_the_authenticated_device :
  apiSessionKey
    (dev_of (on_message (P:=Reference.platform)
               (Reference.JSON_stringify rechallenge_frame) test_random16
               authenticated_device)) = Some secret_key64.
Proof.
  refine (proj1 (proj2 (every_challenge_resets_session (P:=Reference.platform)
                   authenticated_device (Reference.JSON_stringify rechallenge_frame)
                   rechallenge_frame test_random16
                   (fst (remootioApiDecryptEncrypedFrame (P:=Reference.platform)
                           rechallenge_frame testApiSecretKey testApiAuthKey
                           (Some testApiSessionKey)))
                   secret_key64 7 _ _))).
  - vm_compute. reflexivity.
  - vm_compute. reflexivity.
Defined.

(* ------------------------------------------------------------------ *)
(** ** The further properties on the test device *)

(** [disconnect] on the authenticated test device, then 'close'. *)
Lemma disconnect_on_the_authenticated_device :
  events (trace_of (transport_close (dev_of (disconnect authenticated_device))))
  = [Disconnect].
Proof.
  exact (proj1 (proj2 (disconnect_is_final authenticated_device OPEN eq_refl))).
Defined.

(** The reply timeout on the authenticated test device. *)
Lemma missed_ping_reply_on_the_authenticated_device :
  trace_of (on_ping_reply_timeout authenticated_device)
  = [emit (Error (NoResponseForPing (Qmake 60000 2))); ws_terminate].
Proof.
  exact (proj1 (missed_ping_reply_ends_the_connection authenticated_device OPEN
                  eq_refl)).
Defined.

(** A PONG after a ping on the connected test device. *)
Lemma pong_clears_the_ping_timeout :
  pingReplyTimeoutHandle
    (dev_of (on_message (P:=Reference.platform) pong_text test_random16
               (dev_of (on_ping_interval (P:=Reference.platform) 2%nat
                          connected_device)))) = None.
Proof.
  refine (proj2 (proj2 (proj2
            (any_parsed_message_clears_the_ping_timeout (P:=Reference.platform)
               connected_device 2%nat pong_text pong_frame test_random16 _ _)))).
  - vm_compute. reflexivity.
  - vm_compute. reflexivity.
Defined.

(** The bare word PONG, which is not JSON, on the connected test device. *)
Lemma bare_word_raises_a_syntax_error :
  on_message (P:=Reference.platform) not_json test_random16 connected_device
  = (connected_device, [emit (Error (Caught SyntaxError))], Return tt).
Proof.
  refine (non_json_message_only_raises_an_error (P:=Reference.platform)
            connected_device not_json test_random16 _).
  vm_compute. reflexivity.
Defined.

(** A PONG frame on the connected test device. *)
Lemma pong_is_handed_on :
  on_message (P:=Reference.platform) pong_text test_random16 connected_device
  = (connected_device, [emit (IncomingMessage pong_frame VUndefined)], Return tt).
Proof.
  refine (proj1 (plain_frame_is_handed_on (P:=Reference.platform)
                   connected_device pong_text pong_frame test_random16 _)
                (or_intror _)).
  - vm_compute. reflexivity.
  - vm_compute. reflexivity.
Defined.

(** A challenge on the closed test device: accepted, but no QUERY goes out. *)
Lemma challenge_on_the_closed_device_sends_nothing :
  sent (trace_of (on_message (P:=Reference.platform)
                    (Reference.JSON_stringify rechallenge_frame) test_random16
                    closed_device)) = [].
Proof.
  refine (proj1 (proj2 (proj2 (proj2
            (nothing_is_sent_unless_open (P:=Reference.platform)
               closed_device VUndefined VUndefined
               (Reference.JSON_stringify rechallenge_frame) test_random16 0%nat
               _))))).
  vm_compute. reflexivity.
Defined.

(** Two QUERY responses after the challenge: the second raises no
    'authenticated'. *)
Lemma second_response_raises_nothing :
  events
    (trace_of
       (on_message (P:=Reference.platform)
          (Reference.JSON_stringify second_response_frame) test_random16
          (dev_of (on_message (P:=Reference.platform)
                     (Reference.JSON_stringify query_response_frame)
                     test_random16 challenged_device))))
  = [IncomingMessage second_response_frame (response_payload (lit "QUERY") 102 [])].
Proof.
  refine (proj2 (proj2
            (authenticated_is_raised_once (P:=Reference.platform)
               challenged_device
               (Reference.JSON_stringify query_response_frame)
               (Reference.JSON_stringify second_response_frame)
               query_response_frame second_response_frame
               test_random16 test_random16
               (fst (remootioApiDecryptEncrypedFrame (P:=Reference.platform)
                       query_response_frame testApiSecretKey testApiAuthKey
                       (Some testApiSessionKey)))
               (fst (remootioApiDecryptEncrypedFrame (P:=Reference.platform)
                       second_response_frame testApiSecretKey testApiAuthKey
                       (Some testApiSessionKey)))
               (lit "QUERY") (lit "QUERY") 101 102 [] [] _ _ _ _ _))).
  - vm_compute. reflexivity.
  - vm_compute. reflexivity.
  - vm_compute. reflexivity.
  - vm_compute. reflexivity.
  - vm_compute. reflexivity.
Defined.

(** A payload that is the number 5, on the authenticated test device. *)
Lemma number_payload_raises_a_type_error :
  on_message (P:=Reference.platform) (Reference.JSON_stringify number_frame)
    test_random16 authenticated_device
  = (fst (clear_reply_timer authenticated_device),
     snd (clear_reply_timer authenticated_device)
       ++ map IO (fst (remootioApiDecryptEncrypedFrame (P:=Reference.platform)
                         number_frame testApiSecretKey testApiAuthKey
                         (Some testApiSessionKey)))
       ++ [emit (IncomingMessage number_frame (VNum 5));
           emit (Error (Caught TypeError))],
     Return tt).
Proof.
  refine (primitive_payload_raises_a_type_error (P:=Reference.platform)
            authenticated_device (Reference.JSON_stringify number_frame)
            number_frame test_random16
            (fst (remootioApiDecryptEncrypedFrame (P:=Reference.platform)
                    number_frame testApiSecretKey testApiAuthKey
                    (Some testApiSessionKey)))
            (VNum 5) _ _ _ _).
  - vm_compute. reflexivity.
  - vm_compute. reflexivity.
  - reflexivity.
  - reflexivity.
Defined.

(** An event frame on the authenticated test device. *)
Lemma event_on_the_authenticated_device :
  on_message (P:=Reference.platform) (Reference.JSON_stringify event_frame)
    test_random16 authenticated_device
  = (fst (clear_reply_timer authenticated_device),
     snd (clear_reply_timer authenticated_device)
       ++ map IO (fst (remootioApiDecryptEncrypedFrame (P:=Reference.platform)
                         event_frame testApiSecretKey testApiAuthKey
                         (Some testApiSessionKey)))
       ++ [emit (IncomingMessage event_frame event_payload)],
     Return tt).
Proof.
  refine (event_payload_is_only_reported (P:=Reference.platform)
            authenticated_device (Reference.JSON_stringify event_frame)
            event_frame test_random16
            (fst (remootioApiDecryptEncrypedFrame (P:=Reference.platform)
                    event_frame testApiSecretKey testApiAuthKey
                    (Some testApiSessionKey)))
            event_payload _ _ _ _).
  - vm_compute. reflexivity.
  - vm_compute. reflexivity.
  - reflexivity.
  - reflexivity.
Defined.

(** The handshake of the test device with the peer's challenge and response. *)
Lemma handshake_of_the_test_device :
  let opened := (connect true ;; transport_open 1%nat) fresh_device in
  let auth := authenticate (P:=Reference.platform) (dev_of opened) in
  let run1 := on_message (P:=Reference.platform)
                (Reference.JSON_stringify challenge_frame) test_random16
                (dev_of auth) in
  let run2 := on_message (P:=Reference.platform)
                (Reference.JSON_stringify query_response_frame) test_random16
                (dev_of run1) in
  events (trace_of run2)
  = [IncomingMessage query_response_frame (response_payload (lit "QUERY") 101 []);
     Authenticated]
  /\ isAuthenticated (dev_of run2) = true
  /\ apiSessionKey (dev_of run2) = Some testApiSessionKey
  /\ lastActionId (dev_of run2) = Some 101.
Proof.
  refine (proj2 (proj2 (proj2 (proj2
            (handshake_ends_authenticated (P:=Reference.platform)
               fresh_device true 1%nat
               (Reference.JSON_stringify challenge_frame)
               (Reference.JSON_stringify query_response_frame)
               challenge_frame query_response_frame
               (fst (remootioApiDecryptEncrypedFrame (P:=Reference.platform)
                       challenge_frame testApiSecretKey testApiAuthKey None))
               (fst (remootioApiDecryptEncrypedFrame (P:=Reference.platform)
                       query_response_frame testApiSecretKey testApiAuthKey
                       (Some testApiSessionKey)))
               test_random16 test_random16 testApiSessionKey 100 101 []
               _ _ _ _ _))))).
  - vm_compute. reflexivity.
  - vm_compute. reflexivity.
  - vm_compute. reflexivity.
  - vm_compute. reflexivity.
  - vm_compute. reflexivity.
Defined.

(** The frame with the corrupted MAC: all eight calls are made. *)
Lemma corrupted_mac_is_still_decrypted :
  crypto_calls
    (fst (remootioApiDecryptEncrypedFrame (P:=Reference.platform) corrupted_frame
            testApiSecretKey testApiAuthKey (Some testApiSessionKey)))
  = [enc_Base64_parse; enc_Hex_parse; HmacSHA256_call; enc_Base64_stringify;
     enc_Base64_parse; enc_Base64_parse; AES_decrypt_call; enc_Latin1_stringify].
Proof.
  refine (proj1 (decryption_runs_whatever_the_mac (P:=Reference.platform)
                   test_iv test_payload
                   (lit "dD4IpRARmeWoUjkL4Kh40uhOMbs7P9prP497qZUapwQ=")
                   testApiSecretKey testApiAuthKey (Some testApiSessionKey)
                   _ _ _)).
  - vm_compute. discriminate.
  - vm_compute. discriminate.
  - vm_compute. discriminate.
Defined.

(** The authenticated test device with the auth key in place of its secret
    key sends the same QUERY. *)
Lemma query_under_another_secret_key :
  trace_of (sendEncryptedFrame (P:=Reference.platform) (action (lit "QUERY") 101)
              test_random16 (with_secret testApiAuthKey authenticated_device))
  = trace_of (sendEncryptedFrame (P:=Reference.platform) (action (lit "QUERY") 101)
                test_random16 authenticated_device).
Proof.
  exact (proj1 (proj2
           (secret_key_is_unused_within_a_session (P:=Reference.platform)
              testApiAuthKey testApiSessionKey authenticated_device
              (Reference.JSON_stringify test_frame) (action (lit "QUERY") 101)
              test_random16 eq_refl))).
Defined.

(** A PONG frame on the connected test device is reported first. *)
Lemma pong_is_reported_first :
  (exists v rest,
     events (trace_of (on_message (P:=Reference.platform) pong_text test_random16
                         connected_device))
     = IncomingMessage pong_frame v :: rest)
  \/ (exists e,
        events (trace_of (on_message (P:=Reference.platform) pong_text
                            test_random16 connected_device))
        = [Error (Caught e)]).
Proof.
  refine (parsed_message_is_reported_first (P:=Reference.platform)
            connected_device pong_text pong_frame test_random16 _).
  vm_compute. reflexivity.
Defined.

(** [sendQuery] on the authenticated test device, read by the peer. *)
Lemma query_of_the_test_device_reaches_the_peer :
  exists frame,
    sent (trace_of (sendQuery (P:=Reference.platform) test_random16
                      authenticated_device))
    = [Reference.JSON_stringify frame]
    /\ snd (remootioApiDecryptEncrypedFrame (P:=Reference.platform) frame
              testApiSecretKey testApiAuthKey (Some testApiSessionKey))
       = Return (action (lit "QUERY") 101).
Proof.
  refine (sent_action_decrypts_at_the_peer (P:=Reference.platform)
            (lit "QUERY") sendQuery test_random16 authenticated_device 100
            testApiSessionKey testApiSecretKey (or_introl eq_refl) _ _ _ _ _ _ _ _).
  - reflexivity.
  - reflexivity.
  - reflexivity.
  - vm_compute. reflexivity.
  - vm_compute. reflexivity.
  - vm_compute. reflexivity.
  - vm_compute. repeat split.
  - vm_compute. repeat split; discriminate.
Defined.
